(** * Aura studio client: HTTP resiliency layer, event-stream manager and
      workflow handlers

    A shallow embedding of [services/config.ts], [services/errors.ts],
    [services/http-client.ts], [services/sse.ts] and of the session handlers
    of [components/orchestrator/OrchestratorFlow.tsx] and
    [components/creation/CreationFlow.tsx], with the properties the
    specification states about them; and of the calls of [services/api.ts],
    [services/orchestrator.ts] and [services/creation.ts] that skip or
    invalidate the cache, of the hook [useSSESubscription] and of the editors
    of the plan and of the selection, with further properties of the code.

    Conventions.  JavaScript numbers that the code only uses as integers
    (status codes, milliseconds, attempt counters) are [Z].  A value that may
    be [undefined] is an [option]; what [JSON.parse] makes of an error body
    is a [Js.Json].  A [Map] or plain object used as a map with
    string keys is a [gmap string _]; the subscription registry, whose key
    order reaches the connection URL, is an association list in insertion
    order.  Asynchronous code is written in a state-and-exception monad over
    an explicit world; every effect the properties speak about is appended to
    a trace. *)

From Stdlib Require Import ZArith String Ascii List Lia Bool.
From stdpp Require Import base option list gmap strings pretty.
Import ListNotations.

Local Open Scope string_scope.
Local Open Scope Z_scope.

(* ===================================================================== *)
(** ** services/config.ts *)
(* ===================================================================== *)

Module Config.

Record ApiConfig := {
  baseURL : string;
  timeout : Z;
  retryAttempts : Z;
  retryDelay : Z;
  cacheEnabled : bool;
  cacheTTL : Z;
  logRequests : bool
}.

Definition API_BASE_URL : string := "http://localhost:8000".
Definition SSE_BASE_URL : string := API_BASE_URL.

(** [logRequests] is [isDevelopment], fixed by the build mode. *)
Definition defaultApiConfig (isDevelopment : bool) : ApiConfig := {|
  baseURL := API_BASE_URL;
  timeout := 30000;
  retryAttempts := 3;
  retryDelay := 1000;
  cacheEnabled := true;
  cacheTTL := 5 * 60 * 1000;
  logRequests := isDevelopment
|}.

Record SseConfig := {
  maxReconnectAttempts : Z;
  initialReconnectDelay : Z;
  maxReconnectDelay : Z;
  heartbeatInterval : Z;
  heartbeatTimeout : Z
}.

Definition sseConfig : SseConfig := {|
  maxReconnectAttempts := 10;
  initialReconnectDelay := 1000;
  maxReconnectDelay := 30000;
  heartbeatInterval := 30000;
  heartbeatTimeout := 45000
|}.

Module STORAGE_KEYS.
Definition AUTH_TOKEN : string := "aura_token".
Definition USER_DATA : string := "aura_user".
Definition API_CACHE : string := "aura_api_cache".
End STORAGE_KEYS.

Module HTTP_STATUS.
Definition OK : Z := 200.
Definition CREATED : Z := 201.
Definition NO_CONTENT : Z := 204.
Definition BAD_REQUEST : Z := 400.
Definition UNAUTHORIZED : Z := 401.
Definition FORBIDDEN : Z := 403.
Definition NOT_FOUND : Z := 404.
Definition CONFLICT : Z := 409.
Definition UNPROCESSABLE_ENTITY : Z := 422.
Definition TOO_MANY_REQUESTS : Z := 429.
Definition INTERNAL_SERVER_ERROR : Z := 500.
Definition BAD_GATEWAY : Z := 502.
Definition SERVICE_UNAVAILABLE : Z := 503.
Definition GATEWAY_TIMEOUT : Z := 504.
End HTTP_STATUS.

Module ERROR_MESSAGES.
Definition NETWORK_ERROR : string := "Network error. Please check your connection.".
Definition TIMEOUT : string := "Request timed out. Please try again.".
Definition UNAUTHORIZED : string := "You are not authorized. Please log in.".
Definition FORBIDDEN : string := "You do not have permission to perform this action.".
Definition NOT_FOUND : string := "The requested resource was not found.".
Definition SERVER_ERROR : string := "Server error. Please try again later.".
Definition VALIDATION_ERROR : string := "Invalid request data.".
Definition UNKNOWN_ERROR : string := "An unknown error occurred.".
End ERROR_MESSAGES.

End Config.

(* ===================================================================== *)
(** ** JavaScript values the client handles *)
(* ===================================================================== *)

Module Js.

(** What [parseInt] returns: [NaN]; an integer of magnitude up to [2^53],
    which is a double as it stands; or, for a longer run of digits, a double
    near the integer read, which the model leaves open ([Beyond]). *)
Inductive Number := NaN | Num (z : Z) | Beyond.

(** A parsed response body, as far as the client looks into it: the
    primitives, whose truthiness the cache test depends on, and objects,
    arrays and blobs, which are always truthy and carried by their text. *)
Inductive Data :=
| DNull
| DBool (b : bool)
| DNumber (z : Z)
| DString (s : string)
| DObject (repr : string)
| DBlob (bytes : string).

(** [if (v)] on a parsed body. *)
Definition truthy (v : Data) : bool :=
  match v with
  | DNull => false
  | DBool b => b
  | DNumber z => negb (z =? 0)
  | DString s => negb (String.eqb s "")
  | DObject _ => true
  | DBlob _ => true
  end.

(** [a || b] on possibly-missing strings: the first one that is neither
    [undefined] nor empty. *)
Definition str_truthy (o : option string) : bool :=
  match o with
  | Some s => negb (String.eqb s "")
  | None => false
  end.

Definition or_str (a : option string) (b : option string) : option string :=
  if str_truthy a then a else b.

(** [x || d] on a possibly-missing number: [0] and [undefined] give [d]. *)
Definition or_num (x : option Z) (d : Z) : Z :=
  match x with
  | Some v => if v =? 0 then d else v
  | None => d
  end.

(** [x ?? d]. *)
Definition nullish (x : option Z) (d : Z) : Z :=
  match x with
  | Some v => v
  | None => d
  end.

Definition is_space (a : ascii) : bool :=
  let n := nat_of_ascii a in
  ((9 <=? n)%nat && (n <=? 13)%nat) || (n =? 32)%nat.

Definition digit_of (a : ascii) : option Z :=
  let n := nat_of_ascii a in
  if ((48 <=? n)%nat && (n <=? 57)%nat) then Some (Z.of_nat n - 48) else None.

Fixpoint skip_spaces (s : string) : string :=
  match s with
  | String a s' => if is_space a then skip_spaces s' else s
  | EmptyString => s
  end.

(** The leading decimal digits of [s], folded into [acc]; [None] when
    there is none. *)
Fixpoint read_digits (acc : option Z) (s : string) : option Z :=
  match s with
  | String a s' =>
      match digit_of a with
      | Some d => read_digits (Some (10 * default 0 acc + d)) s'
      | None => acc
      end
  | EmptyString => acc
  end.

(** [parseInt(s, 10)]: leading white space, an optional sign, then the
    longest run of digits; [NaN] without a digit.  The integer read is
    rounded to a double, which changes nothing up to [2^53]. *)
Definition parseInt10 (s : string) : Number :=
  let s1 := skip_spaces s in
  let '(neg, s2) :=
    match s1 with
    | String "-" r => (true, r)
    | String "+" r => (false, r)
    | _ => (false, s1)
    end in
  match read_digits None s2 with
  | Some v => if v <=? 2 ^ 53 then Num (if neg then - v else v) else Beyond
  | None => NaN
  end.

(** *** The values [JSON.parse] returns *)

(** A number is carried by the text [String(n)] gives for it, which is
    [Infinity] or [-Infinity] for a literal beyond the range of a double; the
    fields of an object are its own properties, each key once. *)
#[warnings="-register-all"]
Inductive Json :=
| JNull
| JBool (b : bool)
| JNumber (repr : string)
| JString (s : string)
| JArray (items : list Json)
| JObject (fields : list (string * Json)).

Fixpoint field (fields : list (string * Json)) (name : string) : option Json :=
  match fields with
  | [] => None
  | (k, v) :: rest => if String.eqb k name then Some v else field rest name
  end.

(** [v.name] on a value that is not [null], for a name that the prototypes
    do not define: the own property of an object, [undefined] on anything
    else. *)
Definition prop (v : Json) (name : string) : option Json :=
  match v with
  | JObject fields => field fields name
  | _ => None
  end.

(** [if (v)] on a value that may be [undefined]. *)
Definition json_truthy (v : option Json) : bool :=
  match v with
  | None => false
  | Some JNull => false
  | Some (JBool b) => b
  | Some (JNumber repr) => negb (String.eqb repr "0")
  | Some (JString s) => negb (String.eqb s "")
  | Some (JArray _) => true
  | Some (JObject _) => true
  end.

(** [a || b]. *)
Definition or_json (a b : option Json) : option Json :=
  if json_truthy a then a else b.

(** [String(v)], [None] when it throws [TypeError].  An array joins its
    elements with commas, [null] counting for the empty string; an object
    gives [[object Object]] unless it has a property [toString] of its own,
    which JSON cannot make callable. *)
Fixpoint toString (v : Json) : option string :=
  match v with
  | JNull => Some "null"
  | JBool true => Some "true"
  | JBool false => Some "false"
  | JNumber repr => Some repr
  | JString s => Some s
  | JArray items =>
      (fix joined (first : bool) (l : list Json) : option string :=
         match l with
         | [] => Some ""
         | x :: rest =>
             match match x with JNull => Some "" | _ => toString x end,
                   joined false rest with
             | Some a, Some b => Some ((if first then "" else ",") +:+ a +:+ b)
             | _, _ => None
             end
         end) true items
  | JObject fields =>
      match field fields "toString" with
      | Some _ => None
      | None => Some "[object Object]"
      end
  end.

(** [JSON.parse(JSON.stringify(v))] for a value that [JSON.parse] returned:
    [JSON.stringify] writes [null] for a number that is not finite. *)
Fixpoint reparsed (v : Json) : Json :=
  match v with
  | JNumber repr =>
      if String.eqb repr "Infinity" || String.eqb repr "-Infinity" then JNull else v
  | JArray items => JArray (map reparsed items)
  | JObject fields => JObject (map (fun '(k, x) => (k, reparsed x)) fields)
  | _ => v
  end.

End Js.

(* ===================================================================== *)
(** ** services/errors.ts *)
(* ===================================================================== *)

Module Errors.
Import Config.

(** The class an error object was built by ([instanceof]). *)
Inductive ErrorClass :=
| ClsApiError
| ClsNetworkError
| ClsTimeoutError
| ClsUnauthorizedError
| ClsForbiddenError
| ClsNotFoundError
| ClsValidationError
| ClsRateLimitError
| ClsServerError
| ClsAbortError.

#[export] Instance ErrorClass_eq_dec : EqDecision ErrorClass.
Proof. solve_decision. Defined.

(** [this.name], set by each constructor. *)
Definition class_name (c : ErrorClass) : string :=
  match c with
  | ClsApiError => "ApiError"
  | ClsNetworkError => "NetworkError"
  | ClsTimeoutError => "TimeoutError"
  | ClsUnauthorizedError => "UnauthorizedError"
  | ClsForbiddenError => "ForbiddenError"
  | ClsNotFoundError => "NotFoundError"
  | ClsValidationError => "ValidationError"
  | ClsRateLimitError => "RateLimitError"
  | ClsServerError => "ServerError"
  | ClsAbortError => "AbortError"
  end.

Record ApiError := {
  cls : ErrorClass;
  message : string;
  statusCode : Z;
  code : option Js.Json;
  detail : option Js.Json;
  errors : option Js.Json;
  retryAfter : option Js.Number
}.

Definition name (e : ApiError) : string := class_name (cls e).

Definition mkApiError (msg : string) (status : Z) (c d errs : option Js.Json)
    : ApiError :=
  {| cls := ClsApiError; message := msg; statusCode := status; code := c;
     detail := d; errors := errs; retryAfter := None |}.

Definition subclass (k : ErrorClass) (msg : string) (status : Z) (c : string)
    (errs : option Js.Json) (ra : option Js.Number) : ApiError :=
  {| cls := k; message := msg; statusCode := status; code := Some (Js.JString c);
     detail := None; errors := errs; retryAfter := ra |}.

Definition NetworkError : ApiError :=
  subclass ClsNetworkError ERROR_MESSAGES.NETWORK_ERROR 0 "NETWORK_ERROR" None None.
Definition TimeoutError : ApiError :=
  subclass ClsTimeoutError ERROR_MESSAGES.TIMEOUT 0 "TIMEOUT_ERROR" None None.
Definition UnauthorizedError (msg : string) : ApiError :=
  subclass ClsUnauthorizedError msg HTTP_STATUS.UNAUTHORIZED "UNAUTHORIZED" None None.
Definition ForbiddenError (msg : string) : ApiError :=
  subclass ClsForbiddenError msg HTTP_STATUS.FORBIDDEN "FORBIDDEN" None None.
Definition NotFoundError (msg : string) : ApiError :=
  subclass ClsNotFoundError msg HTTP_STATUS.NOT_FOUND "NOT_FOUND" None None.
Definition ValidationError (msg : string) (errs : option Js.Json) : ApiError :=
  subclass ClsValidationError msg HTTP_STATUS.UNPROCESSABLE_ENTITY "VALIDATION_ERROR" errs None.
Definition RateLimitError (msg : string) (ra : option Js.Number) : ApiError :=
  subclass ClsRateLimitError msg HTTP_STATUS.TOO_MANY_REQUESTS "RATE_LIMIT_ERROR" None ra.
Definition ServerError (msg : string) (status : Z) : ApiError :=
  subclass ClsServerError msg status "SERVER_ERROR" None None.
Definition AbortError : ApiError :=
  subclass ClsAbortError "Request was cancelled" 0 "ABORT_ERROR" None None.

(** What a [catch] can receive: one of the client's errors, the
    [TypeError] that [fetch] rejects with when the network fails and that
    reading a property of [null] raises, the [DOMException] of an aborted
    signal, or anything else. *)
Inductive Exn :=
| ExApi (e : ApiError)
| ExTypeError (msg : string)
| ExDOMAbort
| ExOther (nm : string).

Definition exn_name (x : Exn) : string :=
  match x with
  | ExApi e => name e
  | ExTypeError _ => "TypeError"
  | ExDOMAbort => "AbortError"
  | ExOther nm => nm
  end.

(** How a call ends: with a value, or by throwing. *)
Inductive Outcome (A : Type) :=
| Ok (a : A)
| Throw (x : Exn).
Arguments Ok {A} a.
Arguments Throw {A} x.

(** A [Response].  Header names are kept in lower case, which is how
    [headers.get] compares them.  [text] is the body, [None] for a response
    that has none (a 204, the answer to a HEAD).  [json] is what
    [response.json()] resolves with, as far as the client looks into a
    payload, [None] when it rejects; [parsed] is what [JSON.parse] makes of
    the body, as far as the classifier looks into an error body, [None]
    when it throws. *)
Record Response := {
  status : Z;
  statusText : string;
  headers : gmap string string;
  text : option string;
  json : option Js.Data;
  parsed : option Js.Json
}.

Definition ok (r : Response) : bool :=
  (200 <=? status r) && (status r <=? 299).

Definition headers_get (r : Response) (h : string) : option string :=
  headers r !! h.

(** [parseErrorResponse].  The body is read inside a [try] that falls back
    to the empty object; the properties of what was read are read outside of
    it, so a body that is the JSON value [null] makes the function throw
    [TypeError].  Every constructor hands the message to [Error], which
    keeps [String(message)] and throws [TypeError] when there is none.  The
    [switch] compares with [===], so the first matching case wins and
    everything unlisted falls to [default]. *)
Definition parseErrorResponse (response : Response) : Outcome ApiError :=
  let statusCode := status response in
  let text := default "" (text response) in
  let errorData :=
    if negb (String.eqb text "")
    then default (Js.JObject []) (parsed response)
    else Js.JObject [] in
  match errorData with
  | Js.JNull => Throw (ExTypeError "Cannot read properties of null")
  | _ =>
      let message :=
        Js.or_json (Js.prop errorData "message")
          (Js.or_json (Js.prop errorData "detail")
             (Js.or_json (Some (Js.JString (statusText response)))
                (Some (Js.JString ERROR_MESSAGES.UNKNOWN_ERROR)))) in
      let code := Js.prop errorData "code" in
      let detail := Js.prop errorData "detail" in
      let errors := Js.prop errorData "errors" in
      match message ≫= Js.toString with
      | None => Throw (ExTypeError "Cannot convert object to primitive value")
      | Some message =>
          Ok (if statusCode =? HTTP_STATUS.UNAUTHORIZED then UnauthorizedError message
              else if statusCode =? HTTP_STATUS.FORBIDDEN then ForbiddenError message
              else if statusCode =? HTTP_STATUS.NOT_FOUND then NotFoundError message
              else if statusCode =? HTTP_STATUS.UNPROCESSABLE_ENTITY
              then ValidationError message errors
              else if statusCode =? HTTP_STATUS.TOO_MANY_REQUESTS then
                let retryAfter := headers_get response "retry-after" in
                RateLimitError message
                  (if Js.str_truthy retryAfter
                   then Some (Js.parseInt10 (default "" retryAfter))
                   else None)
              else if (statusCode =? HTTP_STATUS.BAD_GATEWAY)
                   || (statusCode =? HTTP_STATUS.SERVICE_UNAVAILABLE)
                   || (statusCode =? HTTP_STATUS.GATEWAY_TIMEOUT)
                   || (statusCode =? HTTP_STATUS.INTERNAL_SERVER_ERROR)
              then ServerError message statusCode
              else mkApiError message statusCode code detail errors)
      end
  end.

(** [isApiError]: only [ApiError] objects carry [isApiError === true]. *)
Definition isApiError (x : Exn) : bool :=
  match x with
  | ExApi _ => true
  | _ => false
  end.

Definition instanceof (e : ApiError) (k : ErrorClass) : bool :=
  bool_decide (cls e = k).

(** [isRetryableError]. *)
Definition isRetryableError (x : Exn) : bool :=
  match x with
  | ExApi error =>
      instanceof error ClsNetworkError
      || instanceof error ClsTimeoutError
      || instanceof error ClsServerError
      || (statusCode error =? HTTP_STATUS.TOO_MANY_REQUESTS)
      || (statusCode error =? HTTP_STATUS.BAD_GATEWAY)
      || (statusCode error =? HTTP_STATUS.SERVICE_UNAVAILABLE)
      || (statusCode error =? HTTP_STATUS.GATEWAY_TIMEOUT)
  | _ => false
  end.

End Errors.

(* ===================================================================== *)
(** ** services/http-client.ts *)
(* ===================================================================== *)

Module Http.
Import Errors.

(** [RequestOptions]: the fields of [RequestInit] the client reads, and its
    own.  [skipAuth] and [skipCache] are only tested for truthiness. *)
Module Opts.
Record t := {
  method : option string;
  headers : gmap string string;
  body : option string;
  timeout : option Z;
  retryAttempts : option Z;
  retryDelay : option Z;
  skipAuth : bool;
  skipCache : bool;
  cacheTTL : option Z
}.

Definition empty : t := {|
  method := None; headers := ∅; body := None; timeout := None;
  retryAttempts := None; retryDelay := None; skipAuth := false;
  skipCache := false; cacheTTL := None
|}.

Definition with_headers (o : t) (h : gmap string string) : t := {|
  method := method o; headers := h; body := body o; timeout := timeout o;
  retryAttempts := retryAttempts o; retryDelay := retryDelay o;
  skipAuth := skipAuth o; skipCache := skipCache o; cacheTTL := cacheTTL o
|}.

Definition with_method (o : t) (m : string) : t := {|
  method := Some m; headers := headers o; body := body o; timeout := timeout o;
  retryAttempts := retryAttempts o; retryDelay := retryDelay o;
  skipAuth := skipAuth o; skipCache := skipCache o; cacheTTL := cacheTTL o
|}.
End Opts.

Record CacheEntry := {
  data : Js.Data;
  timestamp : Z;
  ttl : Z
}.

(** Every effect of the client on its surroundings, in program order.  The
    three [FxIntercept] events and [FxResponse] are bookkeeping: they record
    that the loop called its [i]-th interceptor and that [fetch] resolved
    with a response of that status. *)
Inductive Effect :=
| FxInterceptRequest (i : nat)
| FxInterceptResponse (i : nat)
| FxInterceptError (i : nat)
| FxFetch (url : string) (options : Opts.t) (timeout : Z)
| FxResponse (status : Z)
| FxSleep (delay : Z)
| FxRemoveItem (key : string)
| FxDispatch (event : string)
| FxConsole (msg : string).

(** The browser as the client sees it: [localStorage], [Date.now()], the
    number of [fetch] calls made so far, and the trace. *)
Record World := {
  localStorage : gmap string string;
  clock : Z;
  fetches : nat;
  trace : list Effect
}.

(** The network.  The [n]-th [fetch] of a run either resolves with a
    response or rejects with [TypeError], after [latency] milliseconds; while
    it is in flight other code of the page may rewrite [localStorage]. *)
Inductive FetchOutcome :=
| Responds (latency : Z) (r : Response)
| NetworkFailure (latency : Z).

Record Server := {
  answer : nat -> string -> Opts.t -> FetchOutcome;
  meanwhile : nat -> gmap string string -> gmap string string
}.

(** *** The monad of asynchronous code *)

Definition M (A : Type) : Type := World -> Outcome A * World.

Definition ret {A} (a : A) : M A := fun w => (Ok a, w).

Definition throw {A} (x : Exn) : M A := fun w => (Throw x, w).

(** [await] on a promise that settles without touching the world. *)
Definition settled {A} (o : Outcome A) : M A := fun w => (o, w).

Definition bind {A B} (m : M A) (k : A -> M B) : M B :=
  fun w =>
    match m w with
    | (Ok a, w') => k a w'
    | (Throw x, w') => (Throw x, w')
    end.

Notation "x <- m ;; k" := (bind m (fun x => k))
  (at level 100, m at next level, right associativity).
Notation "m ;;; k" := (bind m (fun _ => k))
  (at level 100, right associativity).

Definition emit (e : Effect) : M unit := fun w =>
  (Ok tt, {| localStorage := localStorage w; clock := clock w;
             fetches := fetches w; trace := trace w ++ [e] |}).

Definition getItem (key : string) : M (option string) := fun w =>
  (Ok (localStorage w !! key), w).

Definition removeItem (key : string) : M unit := fun w =>
  (Ok tt, {| localStorage := delete key (localStorage w); clock := clock w;
             fetches := fetches w; trace := trace w ++ [FxRemoveItem key] |}).

Definition now : M Z := fun w => (Ok (clock w), w).

(** [await new Promise((resolve) => setTimeout(resolve, delay))]. *)
Definition sleep (delay : Z) : M unit := fun w =>
  (Ok tt, {| localStorage := localStorage w; clock := clock w + Z.max 0 delay;
             fetches := fetches w; trace := trace w ++ [FxSleep delay] |}).

(** [fetch(url, { ...options, signal })] raced against the abort timer set
    to [timeout]: the timer wins when the answer takes at least that long,
    and [fetch] then rejects with the signal's [AbortError]. *)
Definition fetch (srv : Server) (url : string) (options : Opts.t) (timeout : Z)
    : M Response := fun w =>
  let n := fetches w in
  let landed elapsed effects := {|
    localStorage := meanwhile srv n (localStorage w);
    clock := clock w + Z.max 0 elapsed;
    fetches := S n;
    trace := trace w ++ FxFetch url options timeout :: effects |} in
  match answer srv n url options with
  | Responds latency r =>
      if timeout <=? latency then (Throw ExDOMAbort, landed timeout [])
      else (Ok r, landed latency [FxResponse (status r)])
  | NetworkFailure latency =>
      if timeout <=? latency then (Throw ExDOMAbort, landed timeout [])
      else (Throw (ExTypeError "Failed to fetch"), landed latency [])
  end.

(** *** Interceptors *)

Definition RequestInterceptor : Type := string -> Opts.t -> M (string * Opts.t).
Definition ResponseInterceptor : Type := Response -> M Response.
Definition ErrorInterceptor : Type := ApiError -> M unit.

Record HttpClient := {
  config : Config.ApiConfig;
  cache : gmap string CacheEntry;
  requestInterceptors : list RequestInterceptor;
  responseInterceptors : list ResponseInterceptor;
  errorInterceptors : list ErrorInterceptor
}.

Definition set_cache (c : HttpClient) (m : gmap string CacheEntry) : HttpClient := {|
  config := config c; cache := m;
  requestInterceptors := requestInterceptors c;
  responseInterceptors := responseInterceptors c;
  errorInterceptors := errorInterceptors c
|}.

(** The auth interceptor of [setupDefaultInterceptors]. *)
Definition authInterceptor : RequestInterceptor := fun url options =>
  if negb (Opts.skipAuth options) then
    token <- getItem Config.STORAGE_KEYS.AUTH_TOKEN ;;
    if Js.str_truthy token then
      ret (url, Opts.with_headers options
                  (<["Authorization" := "Bearer " +:+ default "" token]>
                     (Opts.headers options)))
    else ret (url, options)
  else ret (url, options).

Definition logRequestInterceptor : RequestInterceptor := fun url options =>
  emit (FxConsole ("[HTTP] " +:+ default "GET" (Js.or_str (Opts.method options) None)
                   +:+ " " +:+ url)) ;;;
  ret (url, options).

Definition logResponseInterceptor : ResponseInterceptor := fun response =>
  emit (FxConsole "[HTTP] Response") ;;;
  ret response.

(** The unauthorized handler: clears the credentials and broadcasts the
    logout on a [401], and rethrows in every case. *)
Definition unauthorizedHandler : ErrorInterceptor := fun error =>
  (if statusCode error =? Config.HTTP_STATUS.UNAUTHORIZED then
     removeItem Config.STORAGE_KEYS.AUTH_TOKEN ;;;
     removeItem Config.STORAGE_KEYS.USER_DATA ;;;
     emit (FxDispatch "auth:logout")
   else ret tt) ;;;
  throw (ExApi error).

(** [new HttpClient(config)], [config] being the merged configuration. *)
Definition new_HttpClient (cfg : Config.ApiConfig) : HttpClient := {|
  config := cfg;
  cache := ∅;
  requestInterceptors :=
    authInterceptor :: (if Config.logRequests cfg then [logRequestInterceptor] else []);
  responseInterceptors :=
    if Config.logRequests cfg then [logResponseInterceptor] else [];
  errorInterceptors := [unauthorizedHandler]
|}.

(** [for (const interceptor of this.responseInterceptors)]. *)
Fixpoint runResponseInterceptors (i : nat) (l : list ResponseInterceptor)
    (response : Response) : M Response :=
  match l with
  | [] => ret response
  | interceptor :: l' =>
      emit (FxInterceptResponse i) ;;;
      processed <- interceptor response ;;
      runResponseInterceptors (S i) l' processed
  end.

(** [for (const interceptor of this.errorInterceptors)]. *)
Fixpoint runErrorInterceptors (i : nat) (l : list ErrorInterceptor)
    (error : ApiError) : M unit :=
  match l with
  | [] => ret tt
  | interceptor :: l' =>
      emit (FxInterceptError i) ;;;
      interceptor error ;;;
      runErrorInterceptors (S i) l' error
  end.

(** [for (const interceptor of this.requestInterceptors)]. *)
Fixpoint runRequestInterceptors (i : nat) (l : list RequestInterceptor)
    (url : string) (options : Opts.t) : M (string * Opts.t) :=
  match l with
  | [] => ret (url, options)
  | interceptor :: l' =>
      emit (FxInterceptRequest i) ;;;
      result <- interceptor url options ;;
      runRequestInterceptors (S i) l' (fst result) (snd result)
  end.

(** *** [makeRequest] *)

(** How the [try] block of one attempt ends when it does not throw: with the
    response, or by asking for the next attempt. *)
Inductive Attempt :=
| Done (response : Response)
| Again.

Definition attemptBody (c : HttpClient) (srv : Server) (url : string)
    (options : Opts.t) (attempt timeout retryAttempts : Z) : M Attempt :=
  response <- fetch srv url options timeout ;;
  processedResponse <- runResponseInterceptors 0 (responseInterceptors c) response ;;
  if negb (ok processedResponse) then
    error <- settled (parseErrorResponse processedResponse) ;;
    if isRetryableError (ExApi error) && (attempt <? retryAttempts) then ret Again
    else
      runErrorInterceptors 0 (errorInterceptors c) error ;;;
      throw (ExApi error)
  else ret (Done processedResponse).

Definition isTypeError (x : Exn) : bool :=
  match x with
  | ExTypeError _ => true
  | _ => false
  end.

(** [makeRequest(url, options, attempt)].  The recursion is bounded by
    [retryAttempts - attempt]; [fuel] makes that bound structural, and
    [None] is the answer of a run that used it up. *)
Fixpoint makeRequest_from (fuel : nat) (c : HttpClient) (srv : Server)
    (url : string) (options : Opts.t) (attempt : Z) (w : World)
    : option (Outcome Response * World) :=
  match fuel with
  | O => None
  | S fuel' =>
      let timeout := Js.or_num (Opts.timeout options) (Config.timeout (config c)) in
      let retryAttempts :=
        Js.nullish (Opts.retryAttempts options) (Config.retryAttempts (config c)) in
      let retryDelay :=
        Js.or_num (Opts.retryDelay options) (Config.retryDelay (config c)) in
      let retry (w1 : World) :=
        let delay := retryDelay * 2 ^ (attempt - 1) in
        makeRequest_from fuel' c srv url options (attempt + 1) (snd (sleep delay w1)) in
      match attemptBody c srv url options attempt timeout retryAttempts w with
      | (Ok (Done response), w1) => Some (Ok response, w1)
      | (Ok Again, w1) => retry w1
      | (Throw error, w1) =>
          if String.eqb (exn_name error) "AbortError" then
            if attempt <? retryAttempts then retry w1
            else Some (Throw (ExApi TimeoutError), w1)
          else if isTypeError error then
            if attempt <? retryAttempts then retry w1
            else Some (Throw (ExApi NetworkError), w1)
          else Some (Throw error, w1)
      end
  end.

Definition attemptsOf (c : HttpClient) (options : Opts.t) : Z :=
  Js.nullish (Opts.retryAttempts options) (Config.retryAttempts (config c)).

Definition makeRequest (c : HttpClient) (srv : Server) (url : string)
    (options : Opts.t) (w : World) : option (Outcome Response * World) :=
  makeRequest_from (S (Z.to_nat (attemptsOf c options - 1))) c srv url options 1 w.

(** *** The response cache *)

(** [getCachedResponse]: [null] (here [DNull]) without an entry or with an
    expired one, which it deletes; the stored payload otherwise. *)
Definition getCachedResponse (cache : gmap string CacheEntry) (key : string)
    (now : Z) : Js.Data * gmap string CacheEntry :=
  match cache !! key with
  | None => (Js.DNull, cache)
  | Some entry =>
      if ttl entry <? now - timestamp entry then (Js.DNull, delete key cache)
      else (data entry, cache)
  end.

Definition cacheResponse (cache : gmap string CacheEntry) (key : string)
    (d : Js.Data) (ttl : Z) (now : Z) : gmap string CacheEntry :=
  <[key := {| data := d; timestamp := now; ttl := ttl |}]> cache.

Definition clearCache (c : HttpClient) : HttpClient := set_cache c ∅.

Definition clearCacheEntry (c : HttpClient) (endpoint : string) (method : string)
    : HttpClient :=
  set_cache c (delete (method +:+ ":" +:+ Config.baseURL (config c) +:+ endpoint) (cache c)).

(** *** [parseResponse] *)

(** [hay.includes(needle)]. *)
Fixpoint includes (hay : string) (needle : string) : bool :=
  String.prefix needle hay
  || match hay with
     | String _ rest => includes rest needle
     | EmptyString => false
     end.

Definition contentTypeIncludes (response : Response) (needle : string) : bool :=
  match headers_get response "content-type" with
  | Some contentType => includes contentType needle
  | None => false
  end.

(** [response.json()]: rejects with [SyntaxError] on a body that is not
    JSON. *)
Definition responseJson (response : Response) : M Js.Data :=
  match json response with
  | Some d => ret d
  | None => throw (ExOther "SyntaxError")
  end.

(** [response.text()], the empty string for a response without a body. *)
Definition responseText (response : Response) : string := default "" (text response).

(** [parseResponse].  In the last case [response.json()] has consumed the
    body before failing, so the [response.text()] of the [catch] clause
    rejects with [TypeError], unless the response has no body: then there
    was nothing to consume and it resolves with the empty string. *)
Definition parseResponse (response : Response) : M Js.Data :=
  if contentTypeIncludes response "application/json" then responseJson response
  else if contentTypeIncludes response "text/" then ret (Js.DString (responseText response))
  else if contentTypeIncludes response "application/octet-stream"
  then ret (Js.DBlob (responseText response))
  else
    match json response with
    | Some d => ret d
    | None =>
        match text response with
        | None => ret (Js.DString "")
        | Some _ => throw (ExTypeError "body stream already read")
        end
    end.

(** *** [request] and the verbs *)

Definition methodIsGet (options : Opts.t) : bool :=
  match Opts.method options with
  | Some m => String.eqb m "GET" || String.eqb m ""
  | None => true
  end.

Definition cacheable (c : HttpClient) (options : Opts.t) : bool :=
  Config.cacheEnabled (config c) && negb (Opts.skipCache options) && methodIsGet options.

Definition cacheKeyOf (url : string) (options : Opts.t) : string :=
  default "GET" (Js.or_str (Opts.method options) None) +:+ ":" +:+ url.

Definition resolveUrl (c : HttpClient) (endpoint : string) : string :=
  if String.prefix "http" endpoint then endpoint
  else Config.baseURL (config c) +:+ endpoint.

(** [{ ...options, headers: { 'Content-Type': 'application/json',
    ...options.headers } }]: the caller's headers win. *)
Definition withDefaultHeaders (options : Opts.t) : Opts.t :=
  Opts.with_headers options
    (Opts.headers options ∪ {["Content-Type" := "application/json"]}).

(** [request(endpoint, options)]: the outcome, the client with its cache as
    the call leaves it, and the world. *)
Definition request (c : HttpClient) (srv : Server) (endpoint : string)
    (options : Opts.t) (w : World)
    : option (Outcome Js.Data * HttpClient * World) :=
  match runRequestInterceptors 0 (requestInterceptors c)
          (resolveUrl c endpoint) (withDefaultHeaders options) w with
  | (Throw x, w1) => Some (Throw x, c, w1)
  | (Ok (url, requestOptions), w1) =>
      let cacheKey := cacheKeyOf url requestOptions in
      let '(cached, cache1) :=
        if cacheable c requestOptions
        then getCachedResponse (cache c) cacheKey (clock w1)
        else (Js.DNull, cache c) in
      let c1 := set_cache c cache1 in
      if cacheable c requestOptions && Js.truthy cached then Some (Ok cached, c1, w1)
      else
        match makeRequest c1 srv url requestOptions w1 with
        | None => None
        | Some (Throw x, w2) => Some (Throw x, c1, w2)
        | Some (Ok response, w2) =>
            match parseResponse response w2 with
            | (Throw x, w3) => Some (Throw x, c1, w3)
            | (Ok d, w3) =>
                if cacheable c requestOptions then
                  Some (Ok d,
                        set_cache c1
                          (cacheResponse cache1 cacheKey d
                             (Js.or_num (Opts.cacheTTL requestOptions)
                                (Config.cacheTTL (config c)))
                             (clock w3)),
                        w3)
                else Some (Ok d, c1, w3)
            end
        end
  end.

Definition get (c : HttpClient) (srv : Server) (endpoint : string)
    (options : Opts.t) : World -> option (Outcome Js.Data * HttpClient * World) :=
  request c srv endpoint (Opts.with_method options "GET").

Definition delete_request (c : HttpClient) (srv : Server) (endpoint : string)
    (options : Opts.t) : World -> option (Outcome Js.Data * HttpClient * World) :=
  request c srv endpoint (Opts.with_method options "DELETE").

(** *** Reading a trace *)

Definition sleepsOf (tr : list Effect) : list Z :=
  omap (fun e => match e with FxSleep d => Some d | _ => None end) tr.

Definition fetchesOf (tr : list Effect) : list (string * Opts.t) :=
  omap (fun e => match e with FxFetch u o _ => Some (u, o) | _ => None end) tr.

Definition isLogout (e : Effect) : bool :=
  match e with
  | FxDispatch ev => String.eqb ev "auth:logout"
  | _ => false
  end.

Definition isResponse (s : Z) (e : Effect) : bool :=
  match e with
  | FxResponse s' => s' =? s
  | _ => false
  end.

Definition isInterceptRequest (i : nat) (e : Effect) : bool :=
  match e with
  | FxInterceptRequest j => Nat.eqb i j
  | _ => false
  end.

Definition isFetch (e : Effect) : bool :=
  match e with
  | FxFetch _ _ _ => true
  | _ => false
  end.

Definition count (p : Effect -> bool) (tr : list Effect) : nat :=
  length (List.filter p tr).

End Http.

(* ===================================================================== *)
(** ** services/sse.ts *)
(* ===================================================================== *)

Module Sse.

Inductive ConnectionState :=
| DISCONNECTED
| CONNECTING
| CONNECTED
| RECONNECTING
| ERROR.

#[export] Instance ConnectionState_eq_dec : EqDecision ConnectionState.
Proof. solve_decision. Defined.

(** [EventSource.readyState]. *)
Inductive ReadyState :=
| ES_CONNECTING
| ES_OPEN
| ES_CLOSED.

#[export] Instance ReadyState_eq_dec : EqDecision ReadyState.
Proof. solve_decision. Defined.

Record EventSource := {
  url : string;
  readyState : ReadyState
}.

(** A subscriber callback: a function object, told apart by identity
    ([cb_id]); [cb_throws] says whether calling it raises. *)
Record Callback := {
  cb_id : nat;
  cb_throws : bool
}.

#[export] Instance Callback_eq_dec : EqDecision Callback.
Proof. solve_decision. Defined.

Record SSEEvent := {
  resource_id : string;
  data : string
}.

(** The event names [connect] and [registerEventHandlers] install a
    dispatching listener for; [message] stands for [onmessage]. *)
Inductive EventType :=
| status_update
| post_update
| video_status
| agent_thinking
| agent_action
| agent_question
| agent_complete
| agent_error
| orch_planning
| orch_plan_ready
| orch_researching
| orch_research_ready
| orch_generating
| orch_post_ready
| orch_question
| orch_error
| message.

Inductive Effect :=
| FxNewEventSource (url : string)
| FxClose (source : nat)
| FxSetTimeout (handle : nat) (delay : Z)
| FxClearTimeout (handle : nat)
| FxInvoke (cb : Callback) (event : SSEEvent) (eventType : EventType)
| FxListener (listener : nat) (state : ConnectionState)
| FxConsoleError (msg : string).

(** The manager's private fields together with the part of the browser it
    acts on: every [EventSource] constructed so far (the manager holds the
    index of its own), the pending timeouts and active intervals, the clock
    and the trace. *)
Record State := {
  eventSource : option nat;
  subscriptions : list (string * list Callback);
  reconnectAttempts : Z;
  reconnectTimeout : option nat;
  heartbeatTimeout : option nat;
  isManualClose : bool;
  connectionState : ConnectionState;
  stateChangeListeners : list nat;
  lastHeartbeat : Z;
  sources : list EventSource;
  timers : list (nat * Z);
  intervals : list nat;
  nextHandle : nat;
  clock : Z;
  log : list Effect
}.

(** [new SSEManager()] in a page whose clock reads [t]. *)
Definition new_SSEManager (t : Z) : State := {|
  eventSource := None; subscriptions := []; reconnectAttempts := 0;
  reconnectTimeout := None; heartbeatTimeout := None; isManualClose := false;
  connectionState := DISCONNECTED; stateChangeListeners := []; lastHeartbeat := t;
  sources := []; timers := []; intervals := []; nextHandle := 1; clock := t;
  log := []
|}.

Definition set_eventSource (v : option nat) (s : State) : State := {|
  eventSource := v; subscriptions := subscriptions s;
  reconnectAttempts := reconnectAttempts s; reconnectTimeout := reconnectTimeout s;
  heartbeatTimeout := heartbeatTimeout s; isManualClose := isManualClose s;
  connectionState := connectionState s;
  stateChangeListeners := stateChangeListeners s; lastHeartbeat := lastHeartbeat s;
  sources := sources s; timers := timers s; intervals := intervals s;
  nextHandle := nextHandle s; clock := clock s; log := log s |}.

Definition set_subscriptions (v : list (string * list Callback)) (s : State) : State := {|
  eventSource := eventSource s; subscriptions := v;
  reconnectAttempts := reconnectAttempts s; reconnectTimeout := reconnectTimeout s;
  heartbeatTimeout := heartbeatTimeout s; isManualClose := isManualClose s;
  connectionState := connectionState s;
  stateChangeListeners := stateChangeListeners s; lastHeartbeat := lastHeartbeat s;
  sources := sources s; timers := timers s; intervals := intervals s;
  nextHandle := nextHandle s; clock := clock s; log := log s |}.

Definition set_reconnectAttempts (v : Z) (s : State) : State := {|
  eventSource := eventSource s; subscriptions := subscriptions s;
  reconnectAttempts := v; reconnectTimeout := reconnectTimeout s;
  heartbeatTimeout := heartbeatTimeout s; isManualClose := isManualClose s;
  connectionState := connectionState s;
  stateChangeListeners := stateChangeListeners s; lastHeartbeat := lastHeartbeat s;
  sources := sources s; timers := timers s; intervals := intervals s;
  nextHandle := nextHandle s; clock := clock s; log := log s |}.

Definition set_reconnectTimeout (v : option nat) (s : State) : State := {|
  eventSource := eventSource s; subscriptions := subscriptions s;
  reconnectAttempts := reconnectAttempts s; reconnectTimeout := v;
  heartbeatTimeout := heartbeatTimeout s; isManualClose := isManualClose s;
  connectionState := connectionState s;
  stateChangeListeners := stateChangeListeners s; lastHeartbeat := lastHeartbeat s;
  sources := sources s; timers := timers s; intervals := intervals s;
  nextHandle := nextHandle s; clock := clock s; log := log s |}.

Definition set_heartbeatTimeout (v : option nat) (s : State) : State := {|
  eventSource := eventSource s; subscriptions := subscriptions s;
  reconnectAttempts := reconnectAttempts s; reconnectTimeout := reconnectTimeout s;
  heartbeatTimeout := v; isManualClose := isManualClose s;
  connectionState := connectionState s;
  stateChangeListeners := stateChangeListeners s; lastHeartbeat := lastHeartbeat s;
  sources := sources s; timers := timers s; intervals := intervals s;
  nextHandle := nextHandle s; clock := clock s; log := log s |}.

Definition set_isManualClose (v : bool) (s : State) : State := {|
  eventSource := eventSource s; subscriptions := subscriptions s;
  reconnectAttempts := reconnectAttempts s; reconnectTimeout := reconnectTimeout s;
  heartbeatTimeout := heartbeatTimeout s; isManualClose := v;
  connectionState := connectionState s;
  stateChangeListeners := stateChangeListeners s; lastHeartbeat := lastHeartbeat s;
  sources := sources s; timers := timers s; intervals := intervals s;
  nextHandle := nextHandle s; clock := clock s; log := log s |}.

Definition set_connectionState (v : ConnectionState) (s : State) : State := {|
  eventSource := eventSource s; subscriptions := subscriptions s;
  reconnectAttempts := reconnectAttempts s; reconnectTimeout := reconnectTimeout s;
  heartbeatTimeout := heartbeatTimeout s; isManualClose := isManualClose s;
  connectionState := v;
  stateChangeListeners := stateChangeListeners s; lastHeartbeat := lastHeartbeat s;
  sources := sources s; timers := timers s; intervals := intervals s;
  nextHandle := nextHandle s; clock := clock s; log := log s |}.

Definition set_stateChangeListeners (v : list nat) (s : State) : State := {|
  eventSource := eventSource s; subscriptions := subscriptions s;
  reconnectAttempts := reconnectAttempts s; reconnectTimeout := reconnectTimeout s;
  heartbeatTimeout := heartbeatTimeout s; isManualClose := isManualClose s;
  connectionState := connectionState s;
  stateChangeListeners := v; lastHeartbeat := lastHeartbeat s;
  sources := sources s; timers := timers s; intervals := intervals s;
  nextHandle := nextHandle s; clock := clock s; log := log s |}.

Definition set_lastHeartbeat (v : Z) (s : State) : State := {|
  eventSource := eventSource s; subscriptions := subscriptions s;
  reconnectAttempts := reconnectAttempts s; reconnectTimeout := reconnectTimeout s;
  heartbeatTimeout := heartbeatTimeout s; isManualClose := isManualClose s;
  connectionState := connectionState s;
  stateChangeListeners := stateChangeListeners s; lastHeartbeat := v;
  sources := sources s; timers := timers s; intervals := intervals s;
  nextHandle := nextHandle s; clock := clock s; log := log s |}.

Definition set_sources (v : list EventSource) (s : State) : State := {|
  eventSource := eventSource s; subscriptions := subscriptions s;
  reconnectAttempts := reconnectAttempts s; reconnectTimeout := reconnectTimeout s;
  heartbeatTimeout := heartbeatTimeout s; isManualClose := isManualClose s;
  connectionState := connectionState s;
  stateChangeListeners := stateChangeListeners s; lastHeartbeat := lastHeartbeat s;
  sources := v; timers := timers s; intervals := intervals s;
  nextHandle := nextHandle s; clock := clock s; log := log s |}.

Definition set_timers (v : list (nat * Z)) (s : State) : State := {|
  eventSource := eventSource s; subscriptions := subscriptions s;
  reconnectAttempts := reconnectAttempts s; reconnectTimeout := reconnectTimeout s;
  heartbeatTimeout := heartbeatTimeout s; isManualClose := isManualClose s;
  connectionState := connectionState s;
  stateChangeListeners := stateChangeListeners s; lastHeartbeat := lastHeartbeat s;
  sources := sources s; timers := v; intervals := intervals s;
  nextHandle := nextHandle s; clock := clock s; log := log s |}.

Definition set_intervals (v : list nat) (s : State) : State := {|
  eventSource := eventSource s; subscriptions := subscriptions s;
  reconnectAttempts := reconnectAttempts s; reconnectTimeout := reconnectTimeout s;
  heartbeatTimeout := heartbeatTimeout s; isManualClose := isManualClose s;
  connectionState := connectionState s;
  stateChangeListeners := stateChangeListeners s; lastHeartbeat := lastHeartbeat s;
  sources := sources s; timers := timers s; intervals := v;
  nextHandle := nextHandle s; clock := clock s; log := log s |}.

Definition set_nextHandle (v : nat) (s : State) : State := {|
  eventSource := eventSource s; subscriptions := subscriptions s;
  reconnectAttempts := reconnectAttempts s; reconnectTimeout := reconnectTimeout s;
  heartbeatTimeout := heartbeatTimeout s; isManualClose := isManualClose s;
  connectionState := connectionState s;
  stateChangeListeners := stateChangeListeners s; lastHeartbeat := lastHeartbeat s;
  sources := sources s; timers := timers s; intervals := intervals s;
  nextHandle := v; clock := clock s; log := log s |}.

Definition set_clock (v : Z) (s : State) : State := {|
  eventSource := eventSource s; subscriptions := subscriptions s;
  reconnectAttempts := reconnectAttempts s; reconnectTimeout := reconnectTimeout s;
  heartbeatTimeout := heartbeatTimeout s; isManualClose := isManualClose s;
  connectionState := connectionState s;
  stateChangeListeners := stateChangeListeners s; lastHeartbeat := lastHeartbeat s;
  sources := sources s; timers := timers s; intervals := intervals s;
  nextHandle := nextHandle s; clock := v; log := log s |}.

Definition emit (l : list Effect) (s : State) : State := {|
  eventSource := eventSource s; subscriptions := subscriptions s;
  reconnectAttempts := reconnectAttempts s; reconnectTimeout := reconnectTimeout s;
  heartbeatTimeout := heartbeatTimeout s; isManualClose := isManualClose s;
  connectionState := connectionState s;
  stateChangeListeners := stateChangeListeners s; lastHeartbeat := lastHeartbeat s;
  sources := sources s; timers := timers s; intervals := intervals s;
  nextHandle := nextHandle s; clock := clock s; log := log s ++ l |}.

(** *** The connection URL *)

Definition unreserved (a : ascii) : bool :=
  let n := nat_of_ascii a in
  ((65 <=? n)%nat && (n <=? 90)%nat)
  || ((97 <=? n)%nat && (n <=? 122)%nat)
  || ((48 <=? n)%nat && (n <=? 57)%nat)
  || existsb (Nat.eqb n) [45; 95; 46; 33; 126; 42; 39; 40; 41]%nat.

Definition hexDigit (n : nat) : ascii :=
  nth n (list_ascii_of_string "0123456789ABCDEF") "0"%char.

(** [encodeURIComponent] on the UTF-8 bytes of a string: everything but
    letters, digits and [- _ . ! ~ * ' ( )] becomes [%XX]. *)
Fixpoint encodeURIComponent (s : string) : string :=
  match s with
  | EmptyString => EmptyString
  | String a rest =>
      if unreserved a then String a (encodeURIComponent rest)
      else
        let n := nat_of_ascii a in
        String "%" (String (hexDigit (n / 16)) (String (hexDigit (n mod 16))
          (encodeURIComponent rest)))
  end.

(** [resourceIds.join(',')]. *)
Definition join (ids : list string) : string := String.concat "," ids.

Definition streamUrl (resourceIds : list string) : string :=
  Config.SSE_BASE_URL +:+ "/stream?resources=" +:+ encodeURIComponent (join resourceIds).

(** *** The subscription registry: [Map<string, Set<SSECallback>>] *)

Definition resourceIds (s : State) : list string := map fst (subscriptions s).

Fixpoint subs_get (subs : list (string * list Callback)) (r : string)
    : option (list Callback) :=
  match subs with
  | [] => None
  | (k, cbs) :: rest => if String.eqb k r then Some cbs else subs_get rest r
  end.

Definition subs_has (subs : list (string * list Callback)) (r : string) : bool :=
  match subs_get subs r with
  | Some _ => true
  | None => false
  end.

(** [Set.add]: a member stays where it is, a new one goes last. *)
Definition set_add (cb : Callback) (cbs : list Callback) : list Callback :=
  if bool_decide (cb ∈ cbs) then cbs else cbs ++ [cb].

(** [Set.delete]. *)
Definition set_delete (cb : Callback) (cbs : list Callback) : list Callback :=
  List.filter (fun c => negb (bool_decide (c = cb))) cbs.

(** [subscriptions.get(r)!.add(cb)], after [subscriptions.set(r, new Set())]
    for a new key, which goes last. *)
Fixpoint subs_add (subs : list (string * list Callback)) (r : string) (cb : Callback)
    : list (string * list Callback) :=
  match subs with
  | [] => [(r, [cb])]
  | (k, cbs) :: rest =>
      if String.eqb k r then (k, set_add cb cbs) :: rest
      else (k, cbs) :: subs_add rest r cb
  end.

(** The registry after the unsubscribe closure removed [cb] from the set of
    [r], and the key with it when the set became empty. *)
Fixpoint subs_remove (subs : list (string * list Callback)) (r : string) (cb : Callback)
    : list (string * list Callback) :=
  match subs with
  | [] => []
  | (k, cbs) :: rest =>
      if String.eqb k r then
        match set_delete cb cbs with
        | [] => rest
        | cbs' => (k, cbs') :: rest
        end
      else (k, cbs) :: subs_remove rest r cb
  end.

(** *** Timers *)

Definition setTimeout (delay : Z) (s : State) : nat * State :=
  let h := nextHandle s in
  (h, emit [FxSetTimeout h delay]
        (set_nextHandle (S h) (set_timers (timers s ++ [(h, delay)]) s))).

Definition clearTimeout (h : nat) (s : State) : State :=
  emit [FxClearTimeout h]
    (set_timers (List.filter (fun p => negb (Nat.eqb (fst p) h)) (timers s)) s).

Definition setInterval (s : State) : nat * State :=
  let h := nextHandle s in
  (h, set_nextHandle (S h) (set_intervals (intervals s ++ [h]) s)).

Definition clearInterval (h : nat) (s : State) : State :=
  set_intervals (List.filter (fun i => negb (Nat.eqb i h)) (intervals s)) s.

(** *** The manager *)

Definition getConnectionState (s : State) : ConnectionState := connectionState s.

(** [setConnectionState]: listeners hear of changes only; what a listener
    throws is caught and logged. *)
Definition setConnectionState (state : ConnectionState) (s : State) : State :=
  if bool_decide (connectionState s <> state) then
    emit (map (fun l => FxListener l state) (stateChangeListeners s))
      (set_connectionState state s)
  else s.

Definition addStateListener (l : nat) (s : State) : State :=
  set_stateChangeListeners
    (if bool_decide (l ∈ stateChangeListeners s) then stateChangeListeners s
     else stateChangeListeners s ++ [l]) s.

Definition removeStateListener (l : nat) (s : State) : State :=
  set_stateChangeListeners
    (List.filter (fun x => negb (Nat.eqb x l)) (stateChangeListeners s)) s.

Definition stopHeartbeat (s : State) : State :=
  match heartbeatTimeout s with
  | Some h => set_heartbeatTimeout None (clearInterval h s)
  | None => s
  end.

Definition startHeartbeat (s : State) : State :=
  let s1 := stopHeartbeat s in
  let s2 := set_lastHeartbeat (clock s1) s1 in
  let '(h, s3) := setInterval s2 in
  set_heartbeatTimeout (Some h) s3.

Definition updateHeartbeat (s : State) : State := set_lastHeartbeat (clock s) s.

(** [readyState] of the manager's own [EventSource], if it has one. *)
Definition currentReadyState (s : State) : option ReadyState :=
  match eventSource s with
  | Some i => readyState <$> sources s !! i
  | None => None
  end.

(** [this.eventSource && this.eventSource.readyState !== EventSource.CLOSED]. *)
Definition live (s : State) : bool :=
  match eventSource s with
  | Some _ => negb (bool_decide (currentReadyState s = Some ES_CLOSED))
  | None => false
  end.

Definition setReadyState (i : nat) (rs : ReadyState) (s : State) : State :=
  set_sources
    (alter (fun es => {| url := url es; readyState := rs |}) i (sources s)) s.

(** [connect]. *)
Definition connect (s : State) : State :=
  if live s then s
  else
    match subscriptions s with
    | [] => s
    | _ =>
        let s1 := setConnectionState CONNECTING s in
        let u := streamUrl (resourceIds s1) in
        set_eventSource (Some (length (sources s1)))
          (set_sources (sources s1 ++ [{| url := u; readyState := ES_CONNECTING |}])
             (emit [FxNewEventSource u] s1))
    end.

(** [disconnect]. *)
Definition disconnect (s : State) : State :=
  let s1 := set_isManualClose true s in
  let s2 :=
    match reconnectTimeout s1 with
    | Some h => set_reconnectTimeout None (clearTimeout h s1)
    | None => s1
    end in
  let s3 := stopHeartbeat s2 in
  let s4 :=
    match eventSource s3 with
    | Some i => set_eventSource None (emit [FxClose i] (setReadyState i ES_CLOSED s3))
    | None => s3
    end in
  set_isManualClose false (setConnectionState DISCONNECTED s4).

(** [reconnect]. *)
Definition reconnect (s : State) : State := connect (disconnect s).

(** [scheduleReconnect]. *)
Definition scheduleReconnect (s : State) : State :=
  let s1 :=
    match reconnectTimeout s with
    | Some h => clearTimeout h s
    | None => s
    end in
  if Config.maxReconnectAttempts Config.sseConfig <=? reconnectAttempts s1 then
    setConnectionState ERROR (emit [FxConsoleError "[SSE] Max reconnection attempts reached"] s1)
  else
    let delay :=
      Z.min (Config.initialReconnectDelay Config.sseConfig * 2 ^ reconnectAttempts s1)
            (Config.maxReconnectDelay Config.sseConfig) in
    let s2 := set_reconnectAttempts (reconnectAttempts s1 + 1) s1 in
    let s3 := setConnectionState RECONNECTING s2 in
    let '(h, s4) := setTimeout delay s3 in
    set_reconnectTimeout (Some h) s4.

(** [eventSource.onopen]. *)
Definition onopen (s : State) : State :=
  startHeartbeat (set_reconnectAttempts 0 (setConnectionState CONNECTED s)).

(** [eventSource.onerror]. *)
Definition onerror (s : State) : State :=
  let s1 := stopHeartbeat (setConnectionState ERROR s) in
  if bool_decide (currentReadyState s1 = Some ES_CLOSED) then
    if negb (isManualClose s1) then scheduleReconnect s1 else s1
  else s1.

(** [notifySubscribers]: every callback of the set of [resourceId], in
    insertion order, each inside its own [try]. *)
Definition invoke (event : SSEEvent) (eventType : EventType) (cb : Callback)
    : list Effect :=
  FxInvoke cb event eventType
  :: (if cb_throws cb then [FxConsoleError "[SSE] Error in callback"] else []).

Definition notifySubscribers (resourceId : string) (event : SSEEvent)
    (eventType : EventType) (s : State) : State :=
  match subs_get (subscriptions s) resourceId with
  | Some callbacks => emit (concat (map (invoke event eventType) callbacks)) s
  | None => s
  end.

(** The listener [registerEventHandlers] installs for [eventType]; [payload]
    is [JSON.parse(e.data)], [None] when that throws. *)
Definition onframe (eventType : EventType) (payload : option SSEEvent) (s : State)
    : State :=
  let s1 := updateHeartbeat s in
  match payload with
  | Some p => notifySubscribers (resource_id p) p eventType s1
  | None => emit [FxConsoleError "[SSE] Error parsing event"] s1
  end.

(** [subscribe(resourceId, callback)]; the closure it returns is
    [unsubscribe resourceId callback]. *)
Definition subscribe (resourceId : string) (callback : Callback) (s : State) : State :=
  let isNewResource := negb (subs_has (subscriptions s) resourceId) in
  let s1 := set_subscriptions (subs_add (subscriptions s) resourceId callback) s in
  if isNewResource && live s1 then reconnect s1 else connect s1.

Definition unsubscribe (resourceId : string) (callback : Callback) (s : State) : State :=
  let s1 := set_subscriptions (subs_remove (subscriptions s) resourceId callback) s in
  match subscriptions s1 with
  | [] => disconnect s1
  | _ => reconnect s1
  end.

(** [destroy]. *)
Definition destroy (s : State) : State :=
  set_stateChangeListeners [] (set_subscriptions [] (disconnect s)).

(** *** What can happen to a manager *)

(** [EsConnected parses] is a [connected] event; its listener reads
    [JSON.parse(e.data).resources] before it updates the heartbeat and
    outside any [try], so it gets that far only when the data parses to a
    value other than [null] ([parses]). *)
Inductive Event :=
| Subscribe (resourceId : string) (callback : Callback)
| Unsubscribe (resourceId : string) (callback : Callback)
| AddStateListener (l : nat)
| RemoveStateListener (l : nat)
| Disconnect
| Destroy
| EsOpen
| EsError (fatal : bool)
| EsFrame (eventType : EventType) (payload : option SSEEvent)
| EsConnected (parses : bool)
| TimerFires (h : nat)
| HeartbeatTick
| Tick (dt : Z).

(** A transport error leaves the source [CLOSED] when it is fatal and
    [CONNECTING] (the browser retries by itself) otherwise; a source that is
    closed stays closed. *)
Definition afterError (fatal : bool) (rs : ReadyState) : ReadyState :=
  if fatal then ES_CLOSED
  else match rs with
       | ES_CLOSED => ES_CLOSED
       | _ => ES_CONNECTING
       end.

Definition step (e : Event) (s : State) : State :=
  match e with
  | Subscribe r cb => subscribe r cb s
  | Unsubscribe r cb => unsubscribe r cb s
  | AddStateListener l => addStateListener l s
  | RemoveStateListener l => removeStateListener l s
  | Disconnect => disconnect s
  | Destroy => destroy s
  | EsOpen =>
      match eventSource s, currentReadyState s with
      | Some i, Some ES_CONNECTING => onopen (setReadyState i ES_OPEN s)
      | _, _ => s
      end
  | EsError fatal =>
      match eventSource s, currentReadyState s with
      | Some i, Some rs => onerror (setReadyState i (afterError fatal rs) s)
      | _, _ => s
      end
  | EsFrame ty payload =>
      match currentReadyState s with
      | Some ES_OPEN => onframe ty payload s
      | _ => s
      end
  | EsConnected parses =>
      match currentReadyState s with
      | Some ES_OPEN => if parses then updateHeartbeat s else s
      | _ => s
      end
  | TimerFires h =>
      if existsb (fun p => Nat.eqb (fst p) h) (timers s) then
        reconnect
          (set_timers (List.filter (fun p => negb (Nat.eqb (fst p) h)) (timers s)) s)
      else s
  | HeartbeatTick =>
      match heartbeatTimeout s with
      | Some h =>
          if existsb (Nat.eqb h) (intervals s)
             && (Config.heartbeatTimeout Config.sseConfig <? clock s - lastHeartbeat s)
          then reconnect s
          else s
      | None => s
      end
  | Tick dt => set_clock (clock s + Z.max 0 dt) s
  end.

Definition run (events : list Event) (s : State) : State :=
  fold_left (fun st e => step e st) events s.

(** *** Reading a state *)

Definition isOpen (es : EventSource) : bool :=
  negb (bool_decide (readyState es = ES_CLOSED)).

(** The physical connections that are not closed. *)
Definition openSources (s : State) : list EventSource := List.filter isOpen (sources s).

Definition scheduledDelays (l : list Effect) : list Z :=
  omap (fun e => match e with FxSetTimeout _ d => Some d | _ => None end) l.

Definition invoked (l : list Effect) : list Callback :=
  omap (fun e => match e with FxInvoke cb _ _ => Some cb | _ => None end) l.

End Sse.

(* ===================================================================== *)
(** ** The four steps of a discard *)
(* ===================================================================== *)

(** The steps the specification asks of a user-initiated discard, by which
    the effects of both flows are read. *)
Module Discard.

Inductive Step :=
| RequestDeletion
| ClearPersistedId
| UnsubscribeOld
| ReturnToInitial.

#[export] Instance Step_eq_dec : EqDecision Step.
Proof. solve_decision. Defined.

Definition required : list Step :=
  [RequestDeletion; ClearPersistedId; UnsubscribeOld; ReturnToInitial].

End Discard.

(* ===================================================================== *)
(** ** components/orchestrator/OrchestratorFlow.tsx *)
(* ===================================================================== *)

Module Orchestrator.

Inductive OrchestratorPhase :=
| planning
| plan_review
| research
| selection
| generation
| complete
| error.

Record SubTask := {
  id : string;
  name : string;
  queries : list string;
  status : string
}.

Record OrchestratorSession := {
  session_id : string;
  phase : OrchestratorPhase;
  query : string;
  post_type_hint : string;
  research_plan : option (list SubTask)
}.

Definition STORAGE_KEY_PREFIX : string := "orch_session_".

Definition phaseToStep (p : OrchestratorPhase) : Z :=
  match p with
  | planning => 1
  | plan_review => 2
  | research => 2
  | selection => 3
  | generation => 3
  | complete => 4
  | error => 1
  end.

Definition phaseIsLoading (p : OrchestratorPhase) : bool :=
  match p with
  | planning | research | generation => true
  | _ => false
  end.

(** The component's [useState] cells and its [unsubRef], which holds the
    unsubscribe closure of the channel named. *)
Record Component := {
  sessionId : string;
  currentStep : Z;
  session : option OrchestratorSession;
  loading : bool;
  statusMsg : option string;
  errorMsg : option string;
  queryText : string;
  postTypeHint : string;
  editingPlan : list SubTask;
  selectedWebIds : list string;
  selectedImageIds : list string;
  unsubRef : option string
}.

Inductive Effect :=
| FxSubscribe (channel : string)
| FxUnsubscribe (channel : string)
| FxResetSession (sessionId : string)
| FxGetSession (sessionId : string)
| FxRemoveItem (key : string)
| FxSetItem (key : string) (value : string)
| FxSetSessionId (sessionId : string)
| FxSetSession (present : bool)
| FxSetCurrentStep (step : Z)
| FxSetEditingPlan
| FxSetOther (cell : string)
| FxOnComplete.

Record World := {
  localStorage : gmap string string;
  trace : list Effect
}.

Definition emit (l : list Effect) (w : World) : World :=
  {| localStorage := localStorage w; trace := trace w ++ l |}.

Definition channelOf (sessionId : string) : string := "orchestrator:" +:+ sessionId.

Definition clearStoredSessionId (influencerId : string) (w : World) : World :=
  {| localStorage := delete (STORAGE_KEY_PREFIX +:+ influencerId) (localStorage w);
     trace := trace w ++ [FxRemoveItem (STORAGE_KEY_PREFIX +:+ influencerId)] |}.

Definition storeSessionId (influencerId sid : string) (w : World) : World :=
  {| localStorage := <[STORAGE_KEY_PREFIX +:+ influencerId := sid]> (localStorage w);
     trace := trace w ++ [FxSetItem (STORAGE_KEY_PREFIX +:+ influencerId) sid] |}.

(** [handleReset]; [newId] is what [generateSessionId()] returns.  Whether
    the [DELETE] succeeds makes no difference: its [catch] is empty. *)
Definition handleReset (influencerId newId : string) (c : Component) (w : World)
    : Component * World :=
  let w1 :=
    match unsubRef c with
    | Some channel => emit [FxUnsubscribe channel] w
    | None => w
    end in
  let w2 := emit [FxResetSession (sessionId c)] w1 in
  let w3 := storeSessionId influencerId newId (clearStoredSessionId influencerId w2) in
  let w4 :=
    emit [FxSetSessionId newId; FxSetSession false; FxSetCurrentStep 1;
          FxSetOther "query"; FxSetOther "postTypeHint"; FxSetEditingPlan;
          FxSetOther "selectedWebIds"; FxSetOther "selectedImageIds";
          FxSetOther "error"; FxSetOther "loading"; FxSetOther "statusMsg"] w3 in
  ({| sessionId := newId; currentStep := 1; session := None; loading := false;
      statusMsg := None; errorMsg := None; queryText := ""; postTypeHint := "";
      editingPlan := []; selectedWebIds := []; selectedImageIds := [];
      unsubRef := None |}, w4).

(** How the effects of [handleReset] read as steps of a discard. *)
Definition stepOf (e : Effect) : option Discard.Step :=
  match e with
  | FxResetSession _ => Some Discard.RequestDeletion
  | FxRemoveItem _ => Some Discard.ClearPersistedId
  | FxUnsubscribe _ => Some Discard.UnsubscribeOld
  | FxSetCurrentStep 1 => Some Discard.ReturnToInitial
  | _ => None
  end.

Definition stepsOf (tr : list Effect) : list Discard.Step := omap stepOf tr.

(** *** Push events and the plan being edited *)

(** [event?.data ?? event], as far as [handleSSE] reads it. *)
Record EventData := {
  ev_message : option string;
  ev_slide_urls : bool
}.

Definition set_status (m : option string) (c : Component) : Component := {|
  sessionId := sessionId c; currentStep := currentStep c; session := session c;
  loading := loading c; statusMsg := m; errorMsg := errorMsg c;
  queryText := queryText c; postTypeHint := postTypeHint c;
  editingPlan := editingPlan c; selectedWebIds := selectedWebIds c;
  selectedImageIds := selectedImageIds c; unsubRef := unsubRef c |}.

(** [setCurrentStep(n); setLoading(false); setStatusMsg(null)]. *)
Definition ready (n : Z) (c : Component) : Component := {|
  sessionId := sessionId c; currentStep := n; session := session c;
  loading := false; statusMsg := None; errorMsg := errorMsg c;
  queryText := queryText c; postTypeHint := postTypeHint c;
  editingPlan := editingPlan c; selectedWebIds := selectedWebIds c;
  selectedImageIds := selectedImageIds c; unsubRef := unsubRef c |}.

(** [setError(m); setLoading(false); setStatusMsg(null)]. *)
Definition failed (m : string) (c : Component) : Component := {|
  sessionId := sessionId c; currentStep := currentStep c; session := session c;
  loading := false; statusMsg := None; errorMsg := Some m;
  queryText := queryText c; postTypeHint := postTypeHint c;
  editingPlan := editingPlan c; selectedWebIds := selectedWebIds c;
  selectedImageIds := selectedImageIds c; unsubRef := unsubRef c |}.

Definition setSession (s : option OrchestratorSession) (c : Component) : Component := {|
  sessionId := sessionId c; currentStep := currentStep c; session := s;
  loading := loading c; statusMsg := statusMsg c; errorMsg := errorMsg c;
  queryText := queryText c; postTypeHint := postTypeHint c;
  editingPlan := editingPlan c; selectedWebIds := selectedWebIds c;
  selectedImageIds := selectedImageIds c; unsubRef := unsubRef c |}.

Definition setEditingPlan (p : list SubTask) (c : Component) : Component := {|
  sessionId := sessionId c; currentStep := currentStep c; session := session c;
  loading := loading c; statusMsg := statusMsg c; errorMsg := errorMsg c;
  queryText := queryText c; postTypeHint := postTypeHint c;
  editingPlan := p; selectedWebIds := selectedWebIds c;
  selectedImageIds := selectedImageIds c; unsubRef := unsubRef c |}.

(** The synchronous part of [handleSSE]: the new cells, and whether it
    called [refreshSession()]. *)
Definition handleSSE (eventType : string) (d : EventData) (c : Component)
    : Component * bool :=
  if String.eqb eventType "orch_planning" then
    (set_status (Some (default "Planning research…" (ev_message d))) c, false)
  else if String.eqb eventType "orch_plan_ready" then (ready 2 c, true)
  else if String.eqb eventType "orch_researching" then
    (set_status (Some (default "Searching the web…" (ev_message d))) c, false)
  else if String.eqb eventType "orch_research_ready" then (ready 3 c, true)
  else if String.eqb eventType "orch_generating" then
    (set_status (Some (default "Generating your post…" (ev_message d))) c, false)
  else if String.eqb eventType "orch_post_ready" then (ready 4 c, true)
  else if String.eqb eventType "orch_error" then
    (failed (default "Something went wrong" (Js.or_str (ev_message d) None)) c, false)
  else (c, false).

(** The effect "Keep editingPlan in sync", run on the render that follows a
    change of [session?.research_plan]. *)
Definition syncEditingPlan (c : Component) : Component :=
  match session c with
  | Some s =>
      match research_plan s with
      | Some plan => setEditingPlan plan c
      | None => c
      end
  | None => c
  end.

(** [refreshSession], once its [GET] has settled: [fetched] is the session it
    resolved with, [None] when it failed (the [catch] is empty).  A session
    just parsed from a response is a new object, and so is its plan: the
    dependency of the effect above has changed and the effect runs. *)
Definition refreshSession (fetched : option OrchestratorSession) (c : Component)
    : Component :=
  match fetched with
  | Some s => syncEditingPlan (setSession (Some s) c)
  | None => c
  end.

(** A push event handled to completion. *)
Definition onPushEvent (eventType : string) (d : EventData)
    (fetched : option OrchestratorSession) (c : Component) : Component :=
  let '(c1, refresh) := handleSSE eventType d c in
  if refresh then refreshSession fetched c1 else c1.

(** [updateSubTask], the local edit of one entry. *)
Definition updateSubTask (tid : string) (newName : string) (c : Component) : Component :=
  setEditingPlan
    (map (fun t => if String.eqb (id t) tid
                   then {| id := id t; name := newName; queries := queries t;
                           status := status t |}
                   else t) (editingPlan c)) c.

(** What the specification asks of a push event: an entry being edited
    survives it whenever the server's new plan still has its id. *)
Definition keepsLocalEdits (before after : Component) (serverPlan : list SubTask) : Prop :=
  forall t, In t (editingPlan before) ->
    (exists t', In t' serverPlan /\ id t' = id t) ->
    In t (editingPlan after).

End Orchestrator.

(* ===================================================================== *)
(** ** components/creation/CreationFlow.tsx *)
(* ===================================================================== *)

Module Creation.

Inductive Step :=
| input
| generating_images
| select_avatar
| generating_persona
| review
| complete.

Record CreationSession := {
  id : string;
  status : string;
  location : string;
  prompt : string
}.

Record Component := {
  step : Step;
  locationText : string;
  promptText : string;
  session : option CreationSession;
  selectedAvatar : option string;
  errorMsg : option string
}.

Inductive Effect :=
| FxSubscribe (resourceId : string)
| FxUnsubscribe (resourceId : string)
| FxDiscardSession (sessionId : string)
| FxSetSession (present : bool)
| FxSetStep (s : Step)
| FxSetOther (cell : string).

(** The first argument of [useSSESubscription]:
    [session?.id ? `session:${session.id}` : null]. *)
Definition resourceOf (c : Component) : option string :=
  match session c with
  | Some s => if String.eqb (id s) "" then None else Some ("session:" +:+ id s)
  | None => None
  end.

(** [handleDiscard]; [failure] is the message of the error the [DELETE]
    failed with, [None] when it succeeded. *)
Definition handleDiscard (failure : option string) (c : Component)
    : Component * list Effect :=
  match session c with
  | None => (c, [])
  | Some s =>
      match failure with
      | None =>
          ({| step := input; locationText := ""; promptText := "";
              session := None; selectedAvatar := None; errorMsg := None |},
           [FxDiscardSession (id s); FxSetSession false; FxSetStep input;
            FxSetOther "location"; FxSetOther "prompt";
            FxSetOther "selectedAvatar"; FxSetOther "error"])
      | Some msg =>
          ({| step := step c; locationText := locationText c;
              promptText := promptText c; session := session c;
              selectedAvatar := selectedAvatar c; errorMsg := Some msg |},
           [FxDiscardSession (id s); FxSetOther "error"])
      end
  end.

(** The effect of [useSSESubscription] on the render that follows: when the
    resource changed, the cleanup of the old subscription runs, then the
    effect subscribes to the new resource if there is one. *)
Definition commitSubscription (before after : option string) : list Effect :=
  if bool_decide (before = after) then []
  else
    (match before with Some r => [FxUnsubscribe r] | None => [] end
     ++ match after with Some r => [FxSubscribe r] | None => [] end)%list.

(** A click on discard, up to and including the render it causes. *)
Definition discard (failure : option string) (c : Component)
    : Component * list Effect :=
  let '(c1, tr) := handleDiscard failure c in
  (c1, (tr ++ commitSubscription (resourceOf c) (resourceOf c1))%list).

Definition stepOf (e : Effect) : option Discard.Step :=
  match e with
  | FxDiscardSession _ => Some Discard.RequestDeletion
  | FxUnsubscribe _ => Some Discard.UnsubscribeOld
  | FxSetStep input => Some Discard.ReturnToInitial
  | _ => None
  end.

Definition stepsOf (tr : list Effect) : list Discard.Step := omap stepOf tr.

End Creation.

(* ===================================================================== *)
(** ** services/errors.ts: serialising an error *)
(* ===================================================================== *)

Module ErrorsJson.
Import Errors.

(** [ApiErrorResponse]. *)
Record ApiErrorResponse := {
  r_message : string;
  r_code : option Js.Json;
  r_detail : option Js.Json;
  r_errors : option Js.Json;
  r_statusCode : Z
}.

(** [ApiError.prototype.toJSON]. *)
Definition toJSON (e : ApiError) : ApiErrorResponse := {|
  r_message := message e;
  r_code := code e;
  r_detail := detail e;
  r_errors := errors e;
  r_statusCode := statusCode e
|}.

(** The properties of the object that [JSON.parse] gives back for the text
    that [JSON.stringify] makes of [j]: a property that is [undefined] is
    left out, and a number that is not finite has become [null]. *)
Definition asJson (j : ApiErrorResponse) : list (string * Js.Json) :=
  omap (fun p => pair (fst p) <$> snd p)
    [("message", Some (Js.JString (r_message j)));
     ("code", Js.reparsed <$> r_code j);
     ("detail", Js.reparsed <$> r_detail j);
     ("errors", Js.reparsed <$> r_errors j);
     ("statusCode", Some (Js.JNumber (pretty (r_statusCode j))))].

End ErrorsJson.

(* ===================================================================== *)
(** ** services/config.ts: the endpoints *)
(* ===================================================================== *)

Module ENDPOINTS.
Definition INFLUENCERS : string := "/influencer".
Definition INFLUENCER_BY_ID (id : string) : string := "/influencer/" +:+ id.
Definition POSTS_CREATE : string := "/postings/create".
Definition POSTS_BY_INFLUENCER (id : string) : string := "/postings/influencer/" +:+ id.
Definition POST_BY_ID (id : string) : string := "/postings/" +:+ id.
Definition CREATION_SESSION (id : string) : string := "/creation/" +:+ id.
Definition CREATION_ACTIVE : string := "/creation".
Definition ORCHESTRATOR_SESSION (id : string) : string := "/orchestrator/" +:+ id.
End ENDPOINTS.

(* ===================================================================== *)
(** ** services/http-client.ts: the verbs that send a body *)
(* ===================================================================== *)

Module HttpVerbs.
Import Errors Http.

(** [{ ...options, method: m, body: b }]. *)
Definition with_method_body (o : Opts.t) (m : string) (b : option string) : Opts.t := {|
  Opts.method := Some m; Opts.headers := Opts.headers o; Opts.body := b;
  Opts.timeout := Opts.timeout o; Opts.retryAttempts := Opts.retryAttempts o;
  Opts.retryDelay := Opts.retryDelay o; Opts.skipAuth := Opts.skipAuth o;
  Opts.skipCache := Opts.skipCache o; Opts.cacheTTL := Opts.cacheTTL o
|}.

Section Verbs.

(** [JSON.stringify], a function of the platform from values to their JSON
    text. *)
Variable JSON_stringify : Js.Data -> string.

(** [data ? JSON.stringify(data) : undefined]. *)
Definition bodyOf (data : option Js.Data) : option string :=
  match data with
  | Some d => if Js.truthy d then Some (JSON_stringify d) else None
  | None => None
  end.

(** [post]. *)
Definition post (c : HttpClient) (srv : Server) (endpoint : string)
    (data : option Js.Data) (options : Opts.t)
    : World -> option (Outcome Js.Data * HttpClient * World) :=
  request c srv endpoint (with_method_body options "POST" (bodyOf data)).

(** [put]. *)
Definition put (c : HttpClient) (srv : Server) (endpoint : string)
    (data : option Js.Data) (options : Opts.t)
    : World -> option (Outcome Js.Data * HttpClient * World) :=
  request c srv endpoint (with_method_body options "PUT" (bodyOf data)).

(** [patch]. *)
Definition patch (c : HttpClient) (srv : Server) (endpoint : string)
    (data : option Js.Data) (options : Opts.t)
    : World -> option (Outcome Js.Data * HttpClient * World) :=
  request c srv endpoint (with_method_body options "PATCH" (bodyOf data)).

End Verbs.

End HttpVerbs.

(* ===================================================================== *)
(** ** services/orchestrator.ts, services/creation.ts, services/api.ts *)
(* ===================================================================== *)

(** The calls of the service modules whose result is the payload of the
    client, made on the client [c] that stands for the shared [httpClient]. *)
Module Services.
Import Errors Http HttpVerbs.

(** [{ skipCache: true }]. *)
Definition skipCacheOptions : Opts.t := {|
  Opts.method := None; Opts.headers := ∅; Opts.body := None; Opts.timeout := None;
  Opts.retryAttempts := None; Opts.retryDelay := None; Opts.skipAuth := false;
  Opts.skipCache := true; Opts.cacheTTL := None
|}.

(** [getOrchestratorSession]. *)
Definition getOrchestratorSession (c : HttpClient) (srv : Server) (sessionId : string)
    : World -> option (Outcome Js.Data * HttpClient * World) :=
  get c srv (ENDPOINTS.ORCHESTRATOR_SESSION sessionId) skipCacheOptions.

(** [resetSession]. *)
Definition resetSession (c : HttpClient) (srv : Server) (sessionId : string)
    : World -> option (Outcome Js.Data * HttpClient * World) :=
  delete_request c srv (ENDPOINTS.ORCHESTRATOR_SESSION sessionId) Opts.empty.

(** [creationService.getSession]. *)
Definition getSession (c : HttpClient) (srv : Server) (sessionId : string)
    : World -> option (Outcome Js.Data * HttpClient * World) :=
  get c srv (ENDPOINTS.CREATION_SESSION sessionId) skipCacheOptions.

(** [creationService.discardSession]. *)
Definition discardSession (c : HttpClient) (srv : Server) (sessionId : string)
    : World -> option (Outcome Js.Data * HttpClient * World) :=
  delete_request c srv (ENDPOINTS.CREATION_SESSION sessionId) Opts.empty.

(** A [CreatePostRequest]: the object, carried by its text as every object
    is, and the one field of it that [postingApi.create] reads. *)
Record CreatePostRequest := {
  influencer_id : string;
  repr : string
}.

(** [postingApi.create]. *)
Definition postingApi_create (JSON_stringify : Js.Data -> string) (c : HttpClient)
    (srv : Server) (data : CreatePostRequest)
    : World -> option (Outcome Js.Data * HttpClient * World) :=
  let c1 := clearCacheEntry c (ENDPOINTS.POSTS_BY_INFLUENCER (influencer_id data)) "GET" in
  post JSON_stringify c1 srv ENDPOINTS.POSTS_CREATE (Some (Js.DObject (repr data)))
    Opts.empty.

(** [postingApi.delete]; the payload of the answer is dropped. *)
Definition postingApi_delete (c : HttpClient) (srv : Server) (postId : string)
    (w : World) : option (Outcome unit * HttpClient * World) :=
  match delete_request c srv (ENDPOINTS.POST_BY_ID postId) Opts.empty w with
  | Some (Ok _, c', w') => Some (Ok tt, c', w')
  | Some (Throw x, c', w') => Some (Throw x, c', w')
  | None => None
  end.

(** [influencerApi.delete]. *)
Definition influencerApi_delete (c : HttpClient) (srv : Server) (id : string)
    (w : World) : option (Outcome unit * HttpClient * World) :=
  let c1 := clearCacheEntry c ENDPOINTS.INFLUENCERS "GET" in
  let c2 := clearCacheEntry c1 (ENDPOINTS.INFLUENCER_BY_ID id) "GET" in
  match delete_request c2 srv (ENDPOINTS.INFLUENCER_BY_ID id) Opts.empty w with
  | Some (Ok _, c', w') => Some (Ok tt, c', w')
  | Some (Throw x, c', w') => Some (Throw x, c', w')
  | None => None
  end.

End Services.

(* ===================================================================== *)
(** ** services/sse.ts: the hook [useSSESubscription] *)
(* ===================================================================== *)

Module SseHook.
Import Sse.

(** The states the listener [l] was called with, in order. *)
Definition heard (l : nat) (lg : list Effect) : list ConnectionState :=
  omap (fun e => match e with
                 | FxListener l' st => if Nat.eqb l' l then Some st else None
                 | _ => None
                 end) lg.

(** A mounted hook: the shared manager, and the [connectionState] cell of
    the hook, whose setter the hook registers as state listener [l]. *)
Record Hooked := {
  manager : State;
  cell : ConnectionState
}.

(** The cell after the manager went from [m] to [m']: every call of the
    listener sets it. *)
Definition deliver (l : nat) (m m' : State) (c : ConnectionState) : ConnectionState :=
  List.last (drop (length (heard l (log m))) (heard l (log m'))) c.

(** The effect of the hook. *)
Definition effect (resourceId : option string) (enabled : bool) (l : nat)
    (callback : Callback) (h : Hooked) : Hooked :=
  match resourceId with
  | Some r =>
      if negb (String.eqb r "") && enabled then
        let m1 := addStateListener l (manager h) in
        let c1 := getConnectionState m1 in
        let m2 := subscribe r callback m1 in
        {| manager := m2; cell := deliver l m1 m2 c1 |}
      else {| manager := manager h; cell := DISCONNECTED |}
  | None => {| manager := manager h; cell := DISCONNECTED |}
  end.

(** The clean-up that the effect returns when it subscribed. *)
Definition cleanup (r : string) (l : nat) (callback : Callback) (h : Hooked) : Hooked :=
  let m1 := unsubscribe r callback (manager h) in
  let m2 := removeStateListener l m1 in
  {| manager := m2; cell := DISCONNECTED |}.

(** Something happens to the manager while the hook is mounted. *)
Definition on (l : nat) (h : Hooked) (e : Event) : Hooked :=
  {| manager := step e (manager h);
     cell := deliver l (manager h) (step e (manager h)) (cell h) |}.

(** What the hook returns. *)
Definition isConnected (h : Hooked) : bool := bool_decide (cell h = CONNECTED).

End SseHook.

(* ===================================================================== *)
(** ** components/orchestrator/OrchestratorFlow.tsx: editing the plan and
       the selection *)
(* ===================================================================== *)

Module PlanEdits.
Import Orchestrator.

(** [toggleIn]; a [Set<string>] is the list of its members in the order
    they were added. *)
Definition toggleIn (set : list string) (id : string) : list string :=
  if bool_decide (id ∈ set)
  then List.filter (fun x => negb (String.eqb x id)) set
  else (set ++ [id])%list.

(** The entry [addSubTask] appends when [Date.now()] is [now]. *)
Definition newSubTask (now : Z) : SubTask :=
  {| id := "t-" +:+ pretty now; name := ""; queries := [""]; status := "pending" |}.

(** [addSubTask]. *)
Definition addSubTask (now : Z) (c : Component) : Component :=
  setEditingPlan (editingPlan c ++ [newSubTask now])%list c.

(** [removeSubTask]. *)
Definition removeSubTask (tid : string) (c : Component) : Component :=
  setEditingPlan (List.filter (fun t => negb (String.eqb (id t) tid)) (editingPlan c)) c.

End PlanEdits.

(* ===================================================================== *)
(** ** Notions the properties are stated with *)
(* ===================================================================== *)

Local Open Scope list_scope.

Module ErrorsNotions.
Import Config Errors.

Definition quote : string := String (ascii_of_nat 34) EmptyString.

Definition backslash : string := String (ascii_of_nat 92) EmptyString.

Definition hexLower (n : nat) : ascii :=
  nth n (list_ascii_of_string "0123456789abcdef") "0"%char.

(** One character inside a JSON string: the quote, the backslash and the
    control characters are escaped, everything else is itself. *)
Definition escapeChar (a : ascii) : string :=
  let n := nat_of_ascii a in
  if (n =? 34)%nat then backslash +:+ quote
  else if (n =? 92)%nat then backslash +:+ backslash
  else if (n <? 32)%nat then
    backslash +:+ "u00"
    +:+ String (hexLower (n / 16)) (String (hexLower (n mod 16)) EmptyString)
  else String a EmptyString.

Fixpoint escape (s : string) : string :=
  match s with
  | EmptyString => EmptyString
  | String a rest => escapeChar a +:+ escape rest
  end.

(** A JSON text that parses to [v]. *)
Fixpoint jsonText (v : Js.Json) : string :=
  match v with
  | Js.JNull => "null"
  | Js.JBool true => "true"
  | Js.JBool false => "false"
  | Js.JNumber repr => repr
  | Js.JString s => quote +:+ escape s +:+ quote
  | Js.JArray items =>
      "[" +:+ (fix go (first : bool) (l : list Js.Json) : string :=
                 match l with
                 | [] => ""
                 | x :: rest =>
                     (if first then "" else ",") +:+ jsonText x +:+ go false rest
                 end) true items +:+ "]"
  | Js.JObject fields =>
      "{" +:+ (fix go (first : bool) (l : list (string * Js.Json)) : string :=
                 match l with
                 | [] => ""
                 | (k, x) :: rest =>
                     (if first then "" else ",") +:+ quote +:+ escape k +:+ quote
                     +:+ ":" +:+ jsonText x +:+ go false rest
                 end) true fields +:+ "}"
  end.

(** A response whose body is the JSON object with the properties
    [fields]. *)
Definition objectBody (s : Z) (st : string) (h : gmap string string)
    (fields : list (string * Js.Json)) : Response :=
  {| status := s; statusText := st; headers := h;
     text := Some (jsonText (Js.JObject fields));
     json := Some (Js.DObject (jsonText (Js.JObject fields)));
     parsed := Some (Js.JObject fields) |}.

(** [Record<string, string[]>] of field-level messages. *)
Definition FieldErrors := list (string * list string).

(** An error body as [ApiErrorResponse] describes it: an object whose
    properties [message], [detail] and [code] are strings and whose
    [errors] are lists of messages by field, each of them optional. *)
Record ErrorData := {
  data_message : option string;
  data_detail : option string;
  data_code : option string;
  data_errors : option FieldErrors
}.

Definition emptyErrorData : ErrorData :=
  {| data_message := None; data_detail := None; data_code := None;
     data_errors := None |}.

Definition fieldErrorsJson (f : FieldErrors) : Js.Json :=
  Js.JObject (map (fun p => (fst p, Js.JArray (map Js.JString (snd p)))) f).

Definition errorFields (d : ErrorData) : list (string * Js.Json) :=
  omap (fun p => pair (fst p) <$> snd p)
    [("message", Js.JString <$> data_message d);
     ("detail", Js.JString <$> data_detail d);
     ("code", Js.JString <$> data_code d);
     ("errors", fieldErrorsJson <$> data_errors d)].

(** A response whose body is the object [d]. *)
Definition mkResponse (s : Z) (st : string) (h : gmap string string)
    (d : ErrorData) : Response :=
  objectBody s st h (errorFields d).

(** What [parseErrorResponse] takes for the parsed body, the message it
    chooses, and the error its [switch] builds once the message is a
    string. *)
Definition errorDataOf (r : Response) : Js.Json :=
  if negb (String.eqb (default "" (text r)) "")
  then default (Js.JObject []) (parsed r)
  else Js.JObject [].

Definition messageOf (r : Response) : option Js.Json :=
  Js.or_json (Js.prop (errorDataOf r) "message")
    (Js.or_json (Js.prop (errorDataOf r) "detail")
       (Js.or_json (Some (Js.JString (statusText r)))
          (Some (Js.JString ERROR_MESSAGES.UNKNOWN_ERROR)))).

Definition classified (r : Response) (msg : string) : ApiError :=
  if status r =? HTTP_STATUS.UNAUTHORIZED then UnauthorizedError msg
  else if status r =? HTTP_STATUS.FORBIDDEN then ForbiddenError msg
  else if status r =? HTTP_STATUS.NOT_FOUND then NotFoundError msg
  else if status r =? HTTP_STATUS.UNPROCESSABLE_ENTITY
  then ValidationError msg (Js.prop (errorDataOf r) "errors")
  else if status r =? HTTP_STATUS.TOO_MANY_REQUESTS then
    RateLimitError msg
      (if Js.str_truthy (headers_get r "retry-after")
       then Some (Js.parseInt10 (default "" (headers_get r "retry-after")))
       else None)
  else if (status r =? HTTP_STATUS.BAD_GATEWAY)
       || (status r =? HTTP_STATUS.SERVICE_UNAVAILABLE)
       || (status r =? HTTP_STATUS.GATEWAY_TIMEOUT)
       || (status r =? HTTP_STATUS.INTERNAL_SERVER_ERROR)
  then ServerError msg (status r)
  else mkApiError msg (status r) (Js.prop (errorDataOf r) "code")
         (Js.prop (errorDataOf r) "detail") (Js.prop (errorDataOf r) "errors").

(** The statuses whose errors the client retries. *)
Definition retriedStatuses : list Z := [429; 500; 502; 503; 504].

Definition retriedStatus (s : Z) : bool := existsb (Z.eqb s) retriedStatuses.

(** A response with an empty body. *)
Definition emptyBody (s : Z) (st : string) : Response :=
  {| status := s; statusText := st; headers := ∅; text := Some ""; json := None;
     parsed := None |}.

(** A response whose body is the JSON text [null]. *)
Definition nullBody (s : Z) (st : string) : Response :=
  {| status := s; statusText := st; headers := ∅; text := Some "null";
     json := Some Js.DNull; parsed := Some Js.JNull |}.

End ErrorsNotions.

Module DiscardNotions.
Import Discard.

Definition someComponent : Orchestrator.Component := {|
  Orchestrator.sessionId := "s1"; Orchestrator.currentStep := 2;
  Orchestrator.session := None; Orchestrator.loading := false;
  Orchestrator.statusMsg := None; Orchestrator.errorMsg := None;
  Orchestrator.queryText := "q"; Orchestrator.postTypeHint := "";
  Orchestrator.editingPlan := []; Orchestrator.selectedWebIds := [];
  Orchestrator.selectedImageIds := [];
  Orchestrator.unsubRef := Some (Orchestrator.channelOf "s1") |}.

Definition someWorld : Orchestrator.World :=
  {| Orchestrator.localStorage := {[ "orch_session_inf" := "s1" ]};
     Orchestrator.trace := [] |}.

Definition someCreation : Creation.Component := {|
  Creation.step := Creation.select_avatar; Creation.locationText := "Tokyo";
  Creation.promptText := "p";
  Creation.session :=
    Some {| Creation.id := "c1"; Creation.status := "images_ready";
            Creation.location := "Tokyo"; Creation.prompt := "p" |};
  Creation.selectedAvatar := None; Creation.errorMsg := None |}.

End DiscardNotions.

Module PlanNotions.
Import Orchestrator.

Definition task (i n : string) : SubTask :=
  {| id := i; name := n; queries := ["q"]; status := "pending" |}.

Definition serverSession (plan : list SubTask) : OrchestratorSession :=
  {| session_id := "s1"; phase := plan_review; query := "q";
     post_type_hint := ""; research_plan := Some plan |}.

(** A component showing the plan [[t1]] of the server, in which the user has
    just renamed [t1]. *)
Definition editing : Component :=
  updateSubTask "t1" "renamed by the user"
    {| sessionId := "s1"; currentStep := 2;
       session := Some (serverSession [task "t1" "from the server"]);
       loading := false; statusMsg := None; errorMsg := None; queryText := "q";
       postTypeHint := ""; editingPlan := [task "t1" "from the server"];
       selectedWebIds := []; selectedImageIds := [];
       unsubRef := Some (channelOf "s1") |}.

Definition noData : EventData := {| ev_message := None; ev_slide_urls := false |}.

(** The events on which [handleSSE] calls [refreshSession]. *)
Definition refreshes (eventType : string) : bool :=
  String.eqb eventType "orch_plan_ready"
  || String.eqb eventType "orch_research_ready"
  || String.eqb eventType "orch_post_ready".

End PlanNotions.

Module HttpNotions.
Import Errors Http.

(** A client as [new HttpClient(cfg)] builds it, whatever its cache holds
    by now. *)
Definition client (cfg : Config.ApiConfig) (m : gmap string CacheEntry) : HttpClient :=
  set_cache (new_HttpClient cfg) m.

Definition emits (l : list Effect) (w : World) : World :=
  {| localStorage := localStorage w; clock := clock w; fetches := fetches w;
     trace := trace w ++ l |}.

(** What the response interceptors of the client add to the trace. *)
Definition responseLog (cfg : Config.ApiConfig) : list Effect :=
  if Config.logRequests cfg
  then [FxInterceptResponse 0; FxConsole "[HTTP] Response"]
  else [].

(** The world after the error interceptors ran on [error]. *)
Definition afterErrorInterceptors (error : ApiError) (w : World) : World :=
  if statusCode error =? Config.HTTP_STATUS.UNAUTHORIZED then
    {| localStorage :=
         delete Config.STORAGE_KEYS.USER_DATA
           (delete Config.STORAGE_KEYS.AUTH_TOKEN (localStorage w));
       clock := clock w; fetches := fetches w;
       trace := trace w ++ [FxInterceptError 0;
                            FxRemoveItem Config.STORAGE_KEYS.AUTH_TOKEN;
                            FxRemoveItem Config.STORAGE_KEYS.USER_DATA;
                            FxDispatch "auth:logout"] |}
  else emits [FxInterceptError 0] w.

Definition timeoutOf (c : HttpClient) (options : Opts.t) : Z :=
  Js.or_num (Opts.timeout options) (Config.timeout (config c)).

Definition delayOf (c : HttpClient) (options : Opts.t) : Z :=
  Js.or_num (Opts.retryDelay options) (Config.retryDelay (config c)).

Definition interceptsOf (tr : list Effect) : list nat :=
  omap (fun e => match e with FxInterceptRequest i => Some i | _ => None end) tr.

Definition AUTH_TOKEN := Config.STORAGE_KEYS.AUTH_TOKEN.

Definition USER_DATA := Config.STORAGE_KEYS.USER_DATA.

(** What a run of [makeRequest] leaves behind: the effects [tr] it added;
    every [fetch] among them was given the same URL and options; and no
    request interceptor ran. *)
Record Run (url : string) (options : Opts.t) (w w' : World)
    (res : Outcome Response) (tr : list Effect) : Prop := {
  run_trace : trace w' = trace w ++ tr;
  run_fetches : Forall (fun p => p = (url, options)) (fetchesOf tr);
  run_intercepts : interceptsOf tr = []
}.

(** What the auth interceptor makes of the options, given the storage it
    reads. *)
Definition authorize (storage : gmap string string) (options : Opts.t) : Opts.t :=
  if negb (Opts.skipAuth options) && Js.str_truthy (storage !! AUTH_TOKEN) then
    Opts.with_headers options
      (<["Authorization" := "Bearer " +:+ default "" (storage !! AUTH_TOKEN)]>
         (Opts.headers options))
  else options.

(** The effects of the request interceptors of the client. *)
Definition requestLog (cfg : Config.ApiConfig) (url : string) (options : Opts.t)
    : list Effect :=
  FxInterceptRequest 0
  :: (if Config.logRequests cfg
      then [FxInterceptRequest 1;
            FxConsole ("[HTTP] " +:+ default "GET" (Js.or_str (Opts.method options) None)
                       +:+ " " +:+ url)]
      else []).


Definition response503 : Response :=
  {| status := 503; statusText := "Service Unavailable"; headers := ∅;
     text := Some ""; json := None; parsed := None |}.


Definition freshWorld : World :=
  {| localStorage := {[ "aura_token" := "t0" ]}; clock := 0; fetches := 0; trace := [] |}.

Definition retry3 : Opts.t := {|
  Opts.method := Some "GET"; Opts.headers := ∅; Opts.body := None;
  Opts.timeout := None; Opts.retryAttempts := Some 3; Opts.retryDelay := Some 100;
  Opts.skipAuth := false; Opts.skipCache := false; Opts.cacheTTL := None |}.

(** A 401 with an empty body. *)
Definition response401 : Response :=
  {| status := 401; statusText := "Unauthorized"; headers := ∅; text := Some "";
     json := None; parsed := None |}.

(** A 401 that comes as the answer to a retry: the first attempt meets a
    503, the second a 401; the logout is broadcast once. *)
Definition server503then401 : Server :=
  {| answer := fun n _ _ =>
       match n with
       | O => Responds 10 response503
       | _ => Responds 10 response401
       end;
     meanwhile := fun _ s => s |}.

(** A 401 whose body is the JSON text [null], every time. *)
Definition response401null : Response :=
  {| status := 401; statusText := "Unauthorized"; headers := ∅; text := Some "null";
     json := Some Js.DNull; parsed := Some Js.JNull |}.

Definition server401null : Server :=
  {| answer := fun _ _ _ => Responds 10 response401null; meanwhile := fun _ s => s |}.

(** A 401 with an empty body, every time. *)
Definition server401 : Server :=
  {| answer := fun _ _ _ => Responds 10 response401; meanwhile := fun _ s => s |}.

(** A 503 whose body is the JSON text [null], every time. *)
Definition response503null : Response :=
  {| status := 503; statusText := "Service Unavailable"; headers := ∅;
     text := Some "null"; json := Some Js.DNull; parsed := Some Js.JNull |}.

Definition server503null : Server :=
  {| answer := fun _ _ _ => Responds 10 response503null; meanwhile := fun _ s => s |}.

(** A token replaced while the first attempt is in flight: the second
    attempt still carries the token read when the call started. *)
Definition serverRotatingToken : Server :=
  {| answer := fun _ _ _ => Responds 10 response503;
     meanwhile := fun _ s => <["aura_token" := "t1"]> s |}.

Definition jsonResponse (d : Js.Data) : Response :=
  {| status := 200; statusText := "OK";
     headers := {[ "content-type" := "application/json" ]};
     text := Some ""; json := Some d; parsed := None |}.

Definition serverOf (d : Js.Data) : Server :=
  {| answer := fun _ _ _ => Responds 10 (jsonResponse d); meanwhile := fun _ s => s |}.

Definition ttl1000 : Opts.t := {|
  Opts.method := None; Opts.headers := ∅; Opts.body := None;
  Opts.timeout := None; Opts.retryAttempts := None; Opts.retryDelay := None;
  Opts.skipAuth := false; Opts.skipCache := false; Opts.cacheTTL := Some 1000 |}.

Definition at_time (t : Z) (w : World) : World :=
  {| localStorage := localStorage w; clock := t; fetches := fetches w; trace := trace w |}.

(** [GET /x] with [cacheTTL = 1000] against a server whose payload is [d],
    then again [dt] milliseconds after the first answer was cached: the
    payload of the second call and the number of fetches of the two. *)
Definition twice (d : Js.Data) (dt : Z) : option (Outcome Js.Data * nat) :=
  match get (client (Config.defaultApiConfig false) ∅) (serverOf d) "/x" ttl1000
          freshWorld with
  | Some (Ok _, c1, w1) =>
      match get c1 (serverOf d) "/x" ttl1000 (at_time (clock w1 + dt) w1) with
      | Some (res, _, w2) => Some (res, fetches w2)
      | None => None
      end
  | _ => None
  end.

End HttpNotions.

Module SseNotions.
Import Sse.

(** The fields the connection invariant speaks about. *)
Definition core (s : State) : option nat * list EventSource * list (string * list Callback) :=
  (eventSource s, sources s, subscriptions s).

Definition closeAt (i : nat) (l : list EventSource) : list EventSource :=
  alter (fun es => {| url := url es; readyState := ES_CLOSED |}) i l.

Definition liveC (es : option nat) (srcs : list EventSource) : bool :=
  match es with
  | Some i => negb (bool_decide (readyState <$> srcs !! i = Some ES_CLOSED))
  | None => false
  end.

Definition fresh (subs : list (string * list Callback)) : EventSource :=
  {| url := streamUrl (map fst subs); readyState := ES_CONNECTING |}.

(** *** The connection invariant *)

Definition closed (es : EventSource) : Prop := readyState es = ES_CLOSED.

(** Either the manager holds no source and every source constructed so far
    is closed, or it holds the last one constructed, every earlier one is
    closed, and [P] holds of the one it holds. *)
Inductive Shape (P : EventSource -> Prop) : option nat -> list EventSource -> Prop :=
| Shape_none srcs : Forall closed srcs -> Shape P None srcs
| Shape_some pre cur :
    Forall closed pre -> P cur -> Shape P (Some (length pre)) (pre ++ [cur]).

(** The source, unless closed, was opened on the URL that lists [subs]. *)
Definition carries (subs : list (string * list Callback)) (cur : EventSource) : Prop :=
  readyState cur <> ES_CLOSED -> url cur = streamUrl (map fst subs).

Definition Inv (s : State) : Prop :=
  Shape (carries (subscriptions s)) (eventSource s) (sources s).


Definition cbA : Callback := {| cb_id := 1; cb_throws := false |}.

Definition cbB : Callback := {| cb_id := 2; cb_throws := false |}.

Definition cbC : Callback := {| cb_id := 3; cb_throws := true |}.

(** The callbacks registered under [r], in the order they were added. *)
Definition registered (s : State) (r : string) : list Callback :=
  default [] (subs_get (subscriptions s) r).

Definition KeysOk (s : State) : Prop := NoDup (map fst (subscriptions s)).



(** No key of the registry is left with an empty set. *)
Definition SetsOk (s : State) : Prop := Forall (fun p => snd p <> []) (subscriptions s).

(** *** The calls made so far *)



End SseNotions.

Module ReconnectNotions.
Import Sse SseNotions.

(** The delay before the [n]-th reconnect attempt, [n] counted from 1. *)
Definition backoff (n : Z) : Z :=
  Z.min (Config.initialReconnectDelay Config.sseConfig * 2 ^ (n - 1))
        (Config.maxReconnectDelay Config.sseConfig).

(** One transport error that closes the connection, followed by the firing
    of the reconnect timer if the manager holds one. *)
Definition errorRound (s : State) : State :=
  let s1 := step (EsError true) s in
  match reconnectTimeout s1 with
  | Some h => step (TimerFires h) s1
  | None => s1
  end.


(** The fields that steer reconnection, and what the properties observe of
    the trace. *)
Definition ctl (s : State) : bool * Z * option nat * list (nat * Z) * nat :=
  (isManualClose s, reconnectAttempts s, reconnectTimeout s, timers s, nextHandle s).

Definition obs (s : State) : list Z * list Callback :=
  (scheduledDelays (log s), invoked (log s)).




End ReconnectNotions.

Module ErrorsMoreNotions.
Import Errors ErrorsNotions.

(** A response that carries the serialisation of [e] as the body of an
    answer with the status of [e]. *)
Definition carrying (e : ApiError) (st : string) (h : gmap string string) : Response :=
  objectBody (statusCode e) st h (ErrorsJson.asJson (ErrorsJson.toJSON e)).

(** A 404 whose body names the reason. *)
Definition notFound : Response :=
  mkResponse 404 "Not Found" ∅
    {| data_message := Some "no such post"; data_detail := None;
       data_code := None; data_errors := None |}.

(** Every number in the [code], the [detail] and the [errors] of [e] is
    finite, so that each is what [JSON.parse] reads back from the text
    [JSON.stringify] makes of it. *)
Definition survives (e : ApiError) : Prop :=
  Js.reparsed <$> code e = code e
  /\ Js.reparsed <$> detail e = detail e
  /\ Js.reparsed <$> errors e = errors e.

(** A 400 whose body gives a [code] beyond the range of a double. *)
Definition codeIsInfinite : Response :=
  objectBody 400 "" ∅ [("message", Js.JString "bad"); ("code", Js.JNumber "Infinity")].

(** A property that is a string, or is missing. *)
Definition stringOrMissing (v : option Js.Json) : Prop :=
  match v with
  | None | Some (Js.JString _) => True
  | _ => False
  end.

(** Error bodies the classifier does not take for what they say: an array
    as [message], and an object with a property [toString] as [message]. *)
Definition messageIsArray (s : Z) : Response :=
  objectBody s "" ∅ [("message", Js.JArray [])].

Definition messageHasToString (s : Z) : Response :=
  objectBody s "" ∅ [("message", Js.JObject [("toString", Js.JNull)])].

End ErrorsMoreNotions.

Module RetryNotions.
Import Errors Http ErrorsNotions HttpNotions ErrorsMoreNotions.

(** How one attempt ends for a caller that gives up after [timeout]
    milliseconds: with a response that is [ok]; with an error response and
    the error [parseErrorResponse] builds from it; with an error response on
    which [parseErrorResponse] throws; by the timeout; or by a failure of
    the network. *)
Inductive Verdict :=
| VOk (r : Response)
| VHttp (r : Response) (e : ApiError)
| VThrows (r : Response)
| VTimeout
| VNetwork.

(** The verdict on the [i]-th [fetch] of the page. *)
Definition verdict (srv : Server) (timeout : Z) (url : string) (options : Opts.t)
    (i : nat) : Verdict :=
  match answer srv i url options with
  | Responds latency r =>
      if timeout <=? latency then VTimeout
      else if ok r then VOk r
      else match parseErrorResponse r with
           | Ok e => VHttp r e
           | Throw _ => VThrows r
           end
  | NetworkFailure latency =>
      if timeout <=? latency then VTimeout else VNetwork
  end.

(** The verdicts after which another attempt is made while attempts remain. *)
Definition retried (v : Verdict) : bool :=
  match v with
  | VOk _ => false
  | VHttp r _ => retriedStatus (status r)
  | VThrows _ | VTimeout | VNetwork => true
  end.

(** What [makeRequest] makes of the verdict on its last attempt. *)
Definition resultOf (v : Verdict) : Outcome Response :=
  match v with
  | VOk r => Ok r
  | VHttp _ e => Throw (ExApi e)
  | VTimeout => Throw (ExApi TimeoutError)
  | VThrows _ | VNetwork => Throw (ExApi NetworkError)
  end.

(** The waits after attempts [attempt], [attempt + 1], ... ([k] of them). *)
Definition backoffFrom (d attempt : Z) (k : nat) : list Z :=
  map (fun i => d * 2 ^ (attempt - 1 + Z.of_nat i)) (seq 0 k).

Definition isInterceptError (e : Effect) : bool :=
  match e with
  | FxInterceptError _ => true
  | _ => false
  end.

Definition isRemoveItem (e : Effect) : bool :=
  match e with
  | FxRemoveItem _ => true
  | _ => false
  end.

Definition fetchTimeouts (tr : list Effect) : list Z :=
  omap (fun e => match e with FxFetch _ _ t => Some t | _ => None end) tr.

(** What a run of [makeRequest] that started with attempt number [a] and
    made [S k] attempts leaves behind. *)
Record Law (c : HttpClient) (srv : Server) (url : string) (options : Opts.t)
    (a : Z) (w w' : World) (res : Outcome Response) (k : nat) (tr : list Effect)
    : Prop := {
  law_result :
    res = resultOf (verdict srv (timeoutOf c options) url options (fetches w + k));
  law_retried :
    forall i, (i < k)%nat ->
      retried (verdict srv (timeoutOf c options) url options (fetches w + i)) = true
      /\ a + Z.of_nat i < attemptsOf c options;
  law_last :
    retried (verdict srv (timeoutOf c options) url options (fetches w + k)) = true ->
    attemptsOf c options <= a + Z.of_nat k;
  law_trace : trace w' = trace w ++ tr;
  law_fetches : fetchesOf tr = repeat (url, options) (S k);
  law_timeouts : fetchTimeouts tr = repeat (timeoutOf c options) (S k);
  law_sleeps : sleepsOf tr = backoffFrom (delayOf c options) a k;
  law_interceptors :
    count isInterceptError tr
    = match verdict srv (timeoutOf c options) url options (fetches w + k) with
      | VHttp _ _ => 1%nat
      | _ => 0%nat
      end;
  law_storage :
    (count isRemoveItem tr + count isLogout tr)%nat
    = match verdict srv (timeoutOf c options) url options (fetches w + k) with
      | VHttp r _ => if status r =? 401 then 3%nat else 0%nat
      | _ => 0%nat
      end;
  law_count : fetches w' = (fetches w + S k)%nat
}.

(** The most attempts a call makes: [retryAttempts], and one at least. *)
Definition budget (c : HttpClient) (options : Opts.t) : Z :=
  Z.max 1 (attemptsOf c options).




(** A server that never answers in time. *)
Definition serverSilent : Server :=
  {| answer := fun _ _ _ => Responds 60000 response503; meanwhile := fun _ s => s |}.

End RetryNotions.

Module CacheNotions.
Import Errors Http HttpNotions.

(** The time an entry made by this request stays fresh. *)
Definition ttlOf (cfg : Config.ApiConfig) (options : Opts.t) : Z :=
  Js.or_num (Opts.cacheTTL options) (Config.cacheTTL cfg).

(** The key under which [request] looks up and stores its answer. *)
Definition keyOf (cfg : Config.ApiConfig) (endpoint : string) (options : Opts.t) : string :=
  cacheKeyOf (resolveUrl (new_HttpClient cfg) endpoint) options.

(** What the look-up of [request] finds: the payload and the cache it
    leaves. *)
Definition lookUp (cfg : Config.ApiConfig) (m : gmap string CacheEntry)
    (endpoint : string) (options : Opts.t) (now : Z) : Js.Data * gmap string CacheEntry :=
  if cacheable (new_HttpClient cfg) options
  then getCachedResponse m (keyOf cfg endpoint options) now
  else (Js.DNull, m).

Definition GET (options : Opts.t) : Opts.t := Opts.with_method options "GET".

(** How a [request] that returned is related to the cache [m] it started
    with: [mc] is the cache it leaves. *)
Inductive Outcome_of (cfg : Config.ApiConfig) (m : gmap string CacheEntry)
    (endpoint : string) (options : Opts.t) (w : World)
    : Outcome Js.Data -> gmap string CacheEntry -> World -> Prop :=
| served_from_cache w' :
    cacheable (new_HttpClient cfg) options = true ->
    Js.truthy (fst (lookUp cfg m endpoint options (clock w))) = true ->
    fetches w' = fetches w -> clock w' = clock w ->
    localStorage w' = localStorage w ->
    Outcome_of cfg m endpoint options w
      (Ok (fst (lookUp cfg m endpoint options (clock w))))
      (snd (lookUp cfg m endpoint options (clock w))) w'
| fetched_failed x w' :
    cacheable (new_HttpClient cfg) options
    && Js.truthy (fst (lookUp cfg m endpoint options (clock w))) = false ->
    (fetches w < fetches w')%nat ->
    Outcome_of cfg m endpoint options w (Throw x)
      (snd (lookUp cfg m endpoint options (clock w))) w'
| fetched_ok d w' :
    cacheable (new_HttpClient cfg) options
    && Js.truthy (fst (lookUp cfg m endpoint options (clock w))) = false ->
    (fetches w < fetches w')%nat ->
    Outcome_of cfg m endpoint options w (Ok d)
      (if cacheable (new_HttpClient cfg) options
       then cacheResponse (snd (lookUp cfg m endpoint options (clock w)))
              (keyOf cfg endpoint options) d (ttlOf cfg options) (clock w')
       else snd (lookUp cfg m endpoint options (clock w))) w'.

Definition skipping (options : Opts.t) : Opts.t := {|
  Opts.method := Opts.method options; Opts.headers := Opts.headers options;
  Opts.body := Opts.body options; Opts.timeout := Opts.timeout options;
  Opts.retryAttempts := Opts.retryAttempts options;
  Opts.retryDelay := Opts.retryDelay options; Opts.skipAuth := Opts.skipAuth options;
  Opts.skipCache := true; Opts.cacheTTL := Opts.cacheTTL options
|}.

(** The cache and the world that the first [get] of the scenario of
    [twice] leaves. *)
Definition afterFirst : gmap string CacheEntry * World :=
  match get (client (Config.defaultApiConfig false) ∅) (serverOf (Js.DObject "{}")) "/x"
          ttl1000 freshWorld with
  | Some (_, c1, w1) => (cache c1, w1)
  | None => (∅, freshWorld)
  end.

(** A cache that holds a fresh answer for the absolute URL
    [http://cdn.example/a]. *)
Definition cdnCache : gmap string CacheEntry :=
  {[ "GET:http://cdn.example/a" :=
       {| data := Js.DObject "{}"; timestamp := 0; ttl := 1000 |} ]}.

(** The configuration with the cache switched off. *)
Definition cacheOff (cfg : Config.ApiConfig) : Config.ApiConfig := {|
  Config.baseURL := Config.baseURL cfg; Config.timeout := Config.timeout cfg;
  Config.retryAttempts := Config.retryAttempts cfg;
  Config.retryDelay := Config.retryDelay cfg; Config.cacheEnabled := false;
  Config.cacheTTL := Config.cacheTTL cfg; Config.logRequests := Config.logRequests cfg
|}.

End CacheNotions.

Module TidyNotions.
Import Sse SseNotions ReconnectNotions.

(** A delay between the first backoff and the ceiling. *)
Definition delayOk (d : Z) : Prop :=
  Config.initialReconnectDelay Config.sseConfig <= d
  <= Config.maxReconnectDelay Config.sseConfig.

(** What every handler of the manager finds when it starts and leaves when
    it ends. *)
Record Tidy (s : State) : Prop := {
  tidy_manual : isManualClose s = false;
  tidy_attempts :
    0 <= reconnectAttempts s <= Config.maxReconnectAttempts Config.sseConfig;
  tidy_timers :
    timers s = []
    \/ exists h d, timers s = [(h, d)] /\ reconnectTimeout s = Some h;
  tidy_intervals :
    intervals s = match heartbeatTimeout s with Some h => [h] | None => [] end;
  tidy_heartbeat :
    heartbeatTimeout s <> None ->
    connectionState s = CONNECTED /\ currentReadyState s = Some ES_OPEN;
  tidy_connected : connectionState s = CONNECTED -> heartbeatTimeout s <> None;
  tidy_delays : Forall delayOk (scheduledDelays (log s))
}.

(** The part of [Tidy] that holds inside a handler too. *)
Record Tidy0 (s : State) : Prop := {
  tidy0_attempts :
    0 <= reconnectAttempts s <= Config.maxReconnectAttempts Config.sseConfig;
  tidy0_timers :
    timers s = []
    \/ exists h d, timers s = [(h, d)] /\ reconnectTimeout s = Some h;
  tidy0_intervals :
    intervals s = match heartbeatTimeout s with Some h => [h] | None => [] end;
  tidy0_delays : Forall delayOk (scheduledDelays (log s))
}.

(** What [Tidy] reads of a state. *)
Definition tv (s : State)
    : (bool * Z * option nat * list (nat * Z) * nat) * (option nat * list nat)
      * ConnectionState * list Z * option ReadyState :=
  (ctl s, (heartbeatTimeout s, intervals s), connectionState s,
   scheduledDelays (log s), currentReadyState s).

(** The fields of the heartbeat. *)
Definition hbv (s : State) : option nat * list nat := (heartbeatTimeout s, intervals s).

(** One subscription, then five rounds of a fatal error and the firing of
    the timer it armed. *)
Definition fiveRounds : list Event :=
  [Subscribe "session:1" cbA;
   EsError true; TimerFires 1; EsError true; TimerFires 2; EsError true; TimerFires 3;
   EsError true; TimerFires 4; EsError true; TimerFires 5].

(** The manager holds a connection only while something is subscribed. *)
Definition Busy (s : State) : Prop := eventSource s <> None -> subscriptions s <> [].

(** The manager is at rest: no connection, no timer, no heartbeat. *)
Record AtRest (s : State) : Prop := {
  rest_source : eventSource s = None;
  rest_open : openSources s = [];
  rest_timers : timers s = [];
  rest_intervals : intervals s = [];
  rest_state : connectionState s = DISCONNECTED
}.

(** One subscription whose connection opened, left without a frame for
    [silence] milliseconds. *)
Definition silentFor (silence : Z) : list Event :=
  [Subscribe "session:1" cbA; EsOpen; Tick silence].

End TidyNotions.

Module ListenerNotions.
Import Sse SseNotions SseHook.

(** [hs] is a sequence of changes that leads from state [a] to state [b]:
    each entry differs from the one before it, the first from [a], and the
    last is [b]. *)
Inductive Chain : ConnectionState -> list ConnectionState -> ConnectionState -> Prop :=
| chain_nil a : Chain a [] a
| chain_cons a b hs c : a <> b -> Chain b hs c -> Chain a (b :: hs) c.

(** What the listener [l] hears between [s] and [s'] is a sequence of
    changes from the state of [s] to the state of [s']. *)
Definition Sync (l : nat) (s s' : State) : Prop :=
  exists hs, heard l (log s') = heard l (log s) ++ hs
             /\ Chain (connectionState s) hs (connectionState s').

(** From [s] to [s'] the set of listeners stays a set, and [l], if it is
    in it, stays in it and hears every change. *)
Definition Said (l : nat) (s s' : State) : Prop :=
  NoDup (stateChangeListeners s) ->
  NoDup (stateChangeListeners s')
  /\ (In l (stateChangeListeners s) ->
      In l (stateChangeListeners s') /\ Sync l s s').

(** What the relation of [l] to the manager depends on. *)
Definition lv (l : nat) (s : State) : list nat * ConnectionState * list ConnectionState :=
  (stateChangeListeners s, connectionState s, heard l (log s)).

(** The events that take the listener [l] off the manager. *)
Definition removes (l : nat) (e : Event) : bool :=
  match e with
  | RemoveStateListener l' => Nat.eqb l' l
  | Destroy => true
  | _ => false
  end.

(** The hook sees the state of the manager, and is registered with it. *)
Definition InSync (l : nat) (h : Hooked) : Prop :=
  cell h = connectionState (manager h)
  /\ In l (stateChangeListeners (manager h))
  /\ NoDup (stateChangeListeners (manager h)).

End ListenerNotions.

Module PlanEditsNotions.
Import Orchestrator PlanEdits.

Definition ids (c : Component) : list string := map id (editingPlan c).

End PlanEditsNotions.

(* ===================================================================== *)
(** ** Properties *)
(* ===================================================================== *)

(** *** The error classifier *)

Module ErrorsSpec.

Import Config Errors ErrorsNotions.

Ltac status_consts :=
  unfold HTTP_STATUS.UNAUTHORIZED, HTTP_STATUS.FORBIDDEN,
    HTTP_STATUS.NOT_FOUND, HTTP_STATUS.UNPROCESSABLE_ENTITY,
    HTTP_STATUS.TOO_MANY_REQUESTS, HTTP_STATUS.BAD_GATEWAY,
    HTTP_STATUS.SERVICE_UNAVAILABLE, HTTP_STATUS.GATEWAY_TIMEOUT,
    HTTP_STATUS.INTERNAL_SERVER_ERROR in *.

Ltac status_cases r :=
  unfold classified;
  repeat match goal with
         | |- context [if ?b then _ else _] =>
             lazymatch b with
             | context [status r] => destruct b eqn:?
             end
         end;
  repeat match goal with
         | H : (_ || _) = true |- _ => apply orb_true_iff in H; destruct H
         | H : (_ || _) = false |- _ => apply orb_false_iff in H; destruct H
         | H : (_ =? _) = true |- _ => apply Z.eqb_eq in H
         | H : (_ =? _) = false |- _ => apply Z.eqb_neq in H
         end;
  status_consts.

(** [parseErrorResponse], step by step: it throws on a body that is [null]
    and on a message that has no string, and builds the error of the status
    otherwise. *)
Lemma parseErrorResponse_eq (r : Response) :
  parseErrorResponse r
  = match errorDataOf r with
    | Js.JNull => Throw (ExTypeError "Cannot read properties of null")
    | _ =>
        match messageOf r ≫= Js.toString with
        | None => Throw (ExTypeError "Cannot convert object to primitive value")
        | Some msg => Ok (classified r msg)
        end
    end.
Proof.
  unfold parseErrorResponse, messageOf, classified. cbv zeta.
  fold (errorDataOf r). destruct (errorDataOf r); reflexivity.
Qed.

Lemma parseErrorResponse_Ok (r : Response) (e : ApiError) :
  parseErrorResponse r = Ok e ->
  errorDataOf r <> Js.JNull
  /\ exists msg, messageOf r ≫= Js.toString = Some msg /\ e = classified r msg.
Proof.
  intros H. rewrite parseErrorResponse_eq in H.
  destruct (errorDataOf r) eqn:E; try discriminate;
    (split; [discriminate |]);
    destruct (messageOf r ≫= Js.toString) as [msg |]; try discriminate;
    injection H as <-; eauto.
Qed.

Lemma parseErrorResponse_Throw (r : Response) (x : Exn) :
  parseErrorResponse r = Throw x ->
  (exists msg, x = ExTypeError msg)
  /\ (errorDataOf r = Js.JNull \/ messageOf r ≫= Js.toString = None).
Proof.
  intros H. rewrite parseErrorResponse_eq in H.
  destruct (errorDataOf r) eqn:E;
    try (injection H as <-; split; [eauto | now left]);
    destruct (messageOf r ≫= Js.toString) as [msg |]; try discriminate;
    injection H as <-; (split; [eauto | now right]).
Qed.

Lemma statusCode_classified (r : Response) (msg : string) :
  statusCode (classified r msg) = status r.
Proof. status_cases r; cbn; status_consts; lia. Qed.

Lemma message_classified (r : Response) (msg : string) :
  message (classified r msg) = msg.
Proof. status_cases r; reflexivity. Qed.

(** The statuses the classifier lists map to the error classes named after
    them, with the payload each carries; the four listed server statuses
    give a [ServerError] that is retried. *)
Lemma parseErrorResponse_listed (r : Response) (e : ApiError) :
  parseErrorResponse r = Ok e ->
  (status r = 401 -> cls e = ClsUnauthorizedError)
  /\ (status r = 403 -> cls e = ClsForbiddenError)
  /\ (status r = 404 -> cls e = ClsNotFoundError)
  /\ (status r = 422 ->
        cls e = ClsValidationError /\ errors e = Js.prop (errorDataOf r) "errors")
  /\ (status r = 429 ->
        cls e = ClsRateLimitError
        /\ retryAfter e =
             (if Js.str_truthy (headers_get r "retry-after")
              then Some (Js.parseInt10 (default "" (headers_get r "retry-after")))
              else None)
        /\ isRetryableError (ExApi e) = true)
  /\ (status r = 500 \/ status r = 502 \/ status r = 503 \/ status r = 504 ->
        cls e = ClsServerError /\ statusCode e = status r
        /\ isRetryableError (ExApi e) = true).
Proof.
  intros (_ & msg & _ & ->)%parseErrorResponse_Ok.
  unfold classified.
  repeat apply conj; intros H;
    try (destruct H as [H | [H | [H | H]]]); rewrite H;
    repeat apply conj; reflexivity.
Qed.

(** The errors that are retried are those of the statuses 429, 500, 502,
    503 and 504. *)
Lemma retryable_classified (r : Response) (msg : string) :
  isRetryableError (ExApi (classified r msg)) = retriedStatus (status r).
Proof.
  destruct (decide (In (status r) [401; 403; 404; 422; 429; 502; 503; 504; 500]))
    as [Hin | Hout]; cbn [In] in *.
  - repeat (destruct Hin as [Hin | Hin];
            [unfold classified; rewrite <- Hin; reflexivity |]).
    contradiction.
  - unfold classified, retriedStatus, retriedStatuses. cbn [existsb]. status_consts.
    repeat match goal with
           | |- context [status r =? ?k] =>
               rewrite (proj2 (Z.eqb_neq (status r) k))
                 by (intros E; apply Hout; rewrite E; tauto)
           end.
    cbn [orb]. unfold isRetryableError, instanceof, mkApiError.
    cbn [cls statusCode]. status_consts.
    rewrite !bool_decide_eq_false_2 by discriminate.
    repeat match goal with
           | |- context [status r =? ?k] =>
               rewrite (proj2 (Z.eqb_neq (status r) k))
                 by (intros E; apply Hout; rewrite E; tauto)
           end.
    reflexivity.
Qed.

Lemma name_classified (r : Response) (msg : string) :
  String.eqb (exn_name (ExApi (classified r msg))) "AbortError" = false.
Proof.
  unfold classified.
  repeat match goal with
         | |- context [if ?b then _ else _] =>
             lazymatch b with
             | context [status r] => destruct b
             end
         end; reflexivity.
Qed.

Lemma text_objectBody s st h fields :
  String.eqb (default "" (text (objectBody s st h fields))) "" = false.
Proof. reflexivity. Qed.

Lemma errorDataOf_objectBody s st h fields :
  errorDataOf (objectBody s st h fields) = Js.JObject fields.
Proof. reflexivity. Qed.

(** An object whose [message] and [detail] are strings or missing always
    gives a message. *)
Lemma messageOf_mkResponse s st h d :
  exists msg, messageOf (mkResponse s st h d) = Some (Js.JString msg).
Proof.
  unfold messageOf, mkResponse. rewrite errorDataOf_objectBody.
  destruct d as [[m |] [dt |] [c |] [er |]]; cbn;
    unfold Js.or_json, Js.json_truthy;
    repeat match goal with
           | |- context [String.eqb ?a ""] => destruct (String.eqb a ""); cbn
           end; eauto.
Qed.

(** C6 (the code falls short of it): a [5xx] status outside 500, 502, 503
    and 504 is not classified as [ServerError].  A response with status 501
    becomes a plain [ApiError], and [isRetryableError] rejects it, although
    the class is documented as "Server Error - 5xx" and the predicate as
    retrying "5xx errors". *)
Theorem C6_status_501_is_not_ServerError (st : string) (h : gmap string string)
    (d : ErrorData) :
  exists e,
    parseErrorResponse (mkResponse 501 st h d) = Ok e
    /\ cls e = ClsApiError /\ name e = "ApiError" /\ statusCode e = 501
    /\ cls e <> ClsServerError
    /\ isRetryableError (ExApi e) = false.
Proof.
  destruct (messageOf_mkResponse 501 st h d) as [msg Hmsg].
  exists (classified (mkResponse 501 st h d) msg).
  split.
  - rewrite parseErrorResponse_eq. unfold mkResponse in *.
    rewrite errorDataOf_objectBody, Hmsg. reflexivity.
  - repeat split. discriminate.
Qed.

End ErrorsSpec.

(** *** Discarding a session *)

Module DiscardSpec.

Import Discard DiscardNotions.

(** C8 as stated fails: on a mounted orchestrator flow [handleReset]
    unsubscribes before it asks for the deletion, and the creation flow's
    discard never clears a persisted identifier and unsubscribes last. *)
Lemma C8_counterexample :
  Orchestrator.stepsOf
    (Orchestrator.trace (snd (Orchestrator.handleReset "inf" "s2" someComponent someWorld)))
  = [UnsubscribeOld; RequestDeletion; ClearPersistedId; ReturnToInitial]
  /\ Orchestrator.stepsOf
       (Orchestrator.trace (snd (Orchestrator.handleReset "inf" "s2" someComponent someWorld)))
     <> required
  /\ Creation.stepsOf (snd (Creation.discard None someCreation))
     = [RequestDeletion; ReturnToInitial; UnsubscribeOld]
  /\ Creation.stepsOf (snd (Creation.discard None someCreation)) <> required.
Proof. vm_compute. repeat split; discriminate. Qed.

(** C8 (amended): [handleReset] performs the steps in the order: unsubscribe
    from the old channel (when the ref holds a subscription), request the
    deletion, clear the persisted identifier, return to the first step.  The
    creation flow's discard requests the deletion and, only if that
    succeeds, returns to the input step, after which the subscription hook
    unsubscribes from the old resource; it clears no persisted identifier,
    and it does nothing at all without a session. *)
Theorem C8_discard_steps :
  (forall influencerId newId c w,
     exists tr,
       Orchestrator.trace (snd (Orchestrator.handleReset influencerId newId c w))
       = (Orchestrator.trace w ++ tr)%list
       /\ Orchestrator.stepsOf tr
          = (match Orchestrator.unsubRef c with
             | Some _ => [UnsubscribeOld]
             | None => []
             end
             ++ [RequestDeletion; ClearPersistedId; ReturnToInitial])%list
       /\ Orchestrator.currentStep (fst (Orchestrator.handleReset influencerId newId c w)) = 1
       /\ Orchestrator.localStorage (snd (Orchestrator.handleReset influencerId newId c w))
            !! (Orchestrator.STORAGE_KEY_PREFIX +:+ influencerId) = Some newId)
  /\ (forall c,
        Creation.stepsOf (snd (Creation.discard None c))
        = match Creation.resourceOf c, Creation.session c with
          | Some _, Some _ => [RequestDeletion; ReturnToInitial; UnsubscribeOld]
          | None, Some _ => [RequestDeletion; ReturnToInitial]
          | _, None => []
          end)
  /\ (forall msg c,
        Creation.stepsOf (snd (Creation.discard (Some msg) c))
        = match Creation.session c with
          | Some _ => [RequestDeletion]
          | None => []
          end
        /\ Creation.step (fst (Creation.discard (Some msg) c)) = Creation.step c).
Proof.
  split; [| split].
  - intros influencerId newId c w.
    unfold Orchestrator.handleReset; cbn [snd fst].
    destruct (Orchestrator.unsubRef c) as [channel |]; cbn.
    + eexists. rewrite <- !app_assoc. split; [reflexivity |].
      cbn. split; [reflexivity |]. split; [reflexivity |].
      apply lookup_insert_eq.
    + eexists. rewrite <- !app_assoc. split; [reflexivity |].
      cbn. split; [reflexivity |]. split; [reflexivity |].
      apply lookup_insert_eq.
  - intros [st lt pt [s |] av er]; [| reflexivity].
    unfold Creation.discard, Creation.handleDiscard, Creation.resourceOf.
    cbn. destruct (String.eqb (Creation.id s) ""); reflexivity.
  - intros msg [st lt pt [s |] av er]; [| split; reflexivity].
    unfold Creation.discard, Creation.handleDiscard, Creation.commitSubscription.
    cbn. rewrite bool_decide_eq_true_2 by reflexivity. split; reflexivity.
Qed.

End DiscardSpec.

(** *** Push events against local edits of the research plan *)

Module PlanSpec.

Import Orchestrator PlanNotions.

(** C9 as stated fails: the user renamed entry [t1]; an [orch_plan_ready]
    event arrives and the refreshed session still has an entry [t1]; the
    renamed entry is gone from the plan being edited, replaced by the
    server's. *)
Lemma C9_counterexample :
  let server := [task "t1" "from the server"] in
  let after := onPushEvent "orch_plan_ready" noData (Some (serverSession server)) editing in
  editingPlan editing = [task "t1" "renamed by the user"]
  /\ editingPlan after = [task "t1" "from the server"]
  /\ ~ keepsLocalEdits editing after server.
Proof.
  cbv zeta. split; [reflexivity |]. split; [reflexivity |].
  intros Hkeep.
  specialize (Hkeep (task "t1" "renamed by the user")).
  assert (Hin : In (task "t1" "renamed by the user")
                   (editingPlan (onPushEvent "orch_plan_ready" noData
                      (Some (serverSession [task "t1" "from the server"])) editing))).
  { apply Hkeep.
    - left. reflexivity.
    - exists (task "t1" "from the server"). split; [left |]; reflexivity. }
  cbn in Hin. destruct Hin as [Heq | []]. discriminate Heq.
Qed.

Lemma handleSSE_editingPlan (eventType : string) (d : EventData) (c : Component) :
  editingPlan (fst (handleSSE eventType d c)) = editingPlan c
  /\ snd (handleSSE eventType d c) = refreshes eventType.
Proof.
  unfold handleSSE, refreshes.
  repeat (match goal with
          | |- context [String.eqb eventType ?s] => destruct (String.eqb eventType s) eqn:?
          end; try (apply String.eqb_eq in H; subst eventType; split; reflexivity));
    try (split; reflexivity).
  all: repeat match goal with
       | H : String.eqb _ _ = true |- _ => apply String.eqb_eq in H; subst eventType
       end; try discriminate; split; reflexivity.
Qed.

(** C9 (amended): a push event on which [handleSSE] refreshes the session
    ([orch_plan_ready], [orch_research_ready], [orch_post_ready]) replaces
    the plan being edited by the research plan of the session fetched,
    whatever the local edits were; it leaves the plan being edited alone only
    when the fetch fails or the session fetched has no research plan.  Every
    other push event leaves it unchanged. *)
Theorem C9_push_event_resets_editing_plan (eventType : string) (d : EventData)
    (fetched : option OrchestratorSession) (c : Component) :
  editingPlan (onPushEvent eventType d fetched c)
  = if refreshes eventType then
      match fetched with
      | Some s => default (editingPlan c) (research_plan s)
      | None => editingPlan c
      end
    else editingPlan c.
Proof.
  unfold onPushEvent.
  destruct (handleSSE_editingPlan eventType d c) as [Hplan Hrefresh].
  destruct (handleSSE eventType d c) as [c1 refresh]. cbn in Hplan, Hrefresh.
  subst refresh. destruct (refreshes eventType); [| exact Hplan].
  destruct fetched as [s |]; [| exact Hplan].
  unfold refreshSession, syncEditingPlan. cbn.
  destruct (research_plan s); cbn; [reflexivity | exact Hplan].
Qed.

End PlanSpec.

(** *** The HTTP client *)

Module HttpSpec.

Import Errors Http ErrorsNotions ErrorsSpec HttpNotions.

Lemma world_eq (w1 w2 : World) :
  localStorage w1 = localStorage w2 -> clock w1 = clock w2 ->
  fetches w1 = fetches w2 -> trace w1 = trace w2 -> w1 = w2.
Proof. destruct w1, w2; cbn; intros; subst; reflexivity. Qed.

(** One attempt of the client, read off [attemptBody]. *)
Lemma attemptBody_client cfg m srv url options attempt timeout retryAttempts w :
  attemptBody (client cfg m) srv url options attempt timeout retryAttempts w
  = match fetch srv url options timeout w with
    | (Throw x, w1) => (Throw x, w1)
    | (Ok r, w1) =>
        let w2 := emits (responseLog cfg) w1 in
        if ok r then (Ok (Done r), w2)
        else
          match parseErrorResponse r with
          | Throw x => (Throw x, w2)
          | Ok error =>
              if isRetryableError (ExApi error) && (attempt <? retryAttempts)
              then (Ok Again, w2)
              else (Throw (ExApi error), afterErrorInterceptors error w2)
          end
    end.
Proof.
  unfold attemptBody, bind at 1.
  destruct (fetch srv url options timeout w) as [[r | x] w1]; [| reflexivity].
  unfold client, responseLog, afterErrorInterceptors.
  cbn [responseInterceptors set_cache new_HttpClient errorInterceptors].
  assert (Hlog : runResponseInterceptors 0
                   (if Config.logRequests cfg then [logResponseInterceptor] else []) r w1
                 = (Ok r, emits (if Config.logRequests cfg
                                 then [FxInterceptResponse 0; FxConsole "[HTTP] Response"]
                                 else []) w1)).
  { destruct (Config.logRequests cfg); cbn.
    - unfold bind, emit, logResponseInterceptor, bind, emit, ret, emits; cbn.
      f_equal. apply world_eq; cbn; try reflexivity. now rewrite <- app_assoc.
    - unfold ret, emits. f_equal. apply world_eq; cbn; try reflexivity.
      now rewrite app_nil_r. }
  unfold bind at 1. rewrite Hlog. cbv zeta.
  destruct (ok r); cbn [negb]; [reflexivity |].
  unfold bind at 1, settled.
  destruct (parseErrorResponse r) as [error | x]; [| reflexivity].
  destruct (isRetryableError (ExApi error) && (attempt <? retryAttempts));
    [reflexivity |].
  generalize (emits (if Config.logRequests cfg
                     then [FxInterceptResponse 0; FxConsole "[HTTP] Response"]
                     else []) w1) as w2. intros w2.
  unfold runErrorInterceptors, unauthorizedHandler, bind, emit, removeItem, throw, ret, emits.
  destruct (statusCode error =? Config.HTTP_STATUS.UNAUTHORIZED); cbn;
    f_equal; apply world_eq; cbn; try reflexivity;
    rewrite <- ?app_assoc; reflexivity.
Qed.

Lemma count_app (p : Effect -> bool) (a b : list Effect) :
  count p (a ++ b) = (count p a + count p b)%nat.
Proof. unfold count. now rewrite List.filter_app, length_app. Qed.

Lemma count_cons (p : Effect -> bool) (e : Effect) (l : list Effect) :
  count p (e :: l) = ((if p e then 1 else 0) + count p l)%nat.
Proof. unfold count. cbn. destruct (p e); reflexivity. Qed.

(** [fetch] adds its own event, and the status of the response when there
    is one; it throws nothing but the abort of the signal and [TypeError]. *)
Lemma fetch_spec srv url options timeout w o w1 :
  fetch srv url options timeout w = (o, w1) ->
  fetches w1 = S (fetches w)
  /\ ((exists r, o = Ok r
         /\ trace w1 = trace w ++ [FxFetch url options timeout; FxResponse (status r)])
      \/ ((o = Throw ExDOMAbort \/ exists msg, o = Throw (ExTypeError msg))
          /\ trace w1 = trace w ++ [FxFetch url options timeout])).
Proof.
  unfold fetch.
  destruct (answer srv (fetches w) url options) as [latency r | latency];
    destruct (timeout <=? latency); intros H; injection H as <- <-; cbn;
    (split; [reflexivity |]); eauto 8.
Qed.

(** The classifier keeps [401] for the status 401 alone, never builds an
    [AbortError], and throws nothing but [TypeError]. *)
Lemma parseErrorResponse_401 (r : Response) (e : ApiError) :
  parseErrorResponse r = Ok e ->
  (statusCode e =? Config.HTTP_STATUS.UNAUTHORIZED) = (status r =? 401).
Proof.
  intros (_ & msg & _ & ->)%parseErrorResponse_Ok.
  now rewrite statusCode_classified.
Qed.

Lemma parseErrorResponse_retryable (r : Response) (e : ApiError) :
  parseErrorResponse r = Ok e ->
  isRetryableError (ExApi e) = retriedStatus (status r).
Proof.
  intros (_ & msg & _ & ->)%parseErrorResponse_Ok. apply retryable_classified.
Qed.

Lemma parseErrorResponse_not_abort (r : Response) (e : ApiError) :
  parseErrorResponse r = Ok e ->
  String.eqb (exn_name (ExApi e)) "AbortError" = false.
Proof.
  intros (_ & msg & _ & ->)%parseErrorResponse_Ok. apply name_classified.
Qed.

Lemma parseErrorResponse_TypeError (r : Response) (x : Exn) :
  parseErrorResponse r = Throw x ->
  String.eqb (exn_name x) "AbortError" = false /\ isTypeError x = true.
Proof.
  intros ((msg & ->) & _)%parseErrorResponse_Throw. split; reflexivity.
Qed.

Lemma ok_not_401 (r : Response) : ok r = true -> status r <> 401.
Proof. unfold ok. intros H. apply andb_true_iff in H as [_ H]. lia. Qed.

Lemma makeRequest_from_S fuel c srv url options attempt w :
  makeRequest_from (S fuel) c srv url options attempt w
  = let retry (w1 : World) :=
      makeRequest_from fuel c srv url options (attempt + 1)
        (snd (sleep (delayOf c options * 2 ^ (attempt - 1)) w1)) in
    match attemptBody c srv url options attempt (timeoutOf c options)
            (attemptsOf c options) w with
    | (Ok (Done response), w1) => Some (Ok response, w1)
    | (Ok Again, w1) => retry w1
    | (Throw error, w1) =>
        if String.eqb (exn_name error) "AbortError" then
          if attempt <? attemptsOf c options then retry w1
          else Some (Throw (ExApi TimeoutError), w1)
        else if isTypeError error then
          if attempt <? attemptsOf c options then retry w1
          else Some (Throw (ExApi NetworkError), w1)
        else Some (Throw error, w1)
    end.
Proof. reflexivity. Qed.

Lemma responseLog_quiet cfg :
  fetchesOf (responseLog cfg) = [] /\ interceptsOf (responseLog cfg) = []
  /\ sleepsOf (responseLog cfg) = []
  /\ forall p, (forall i, p (FxInterceptResponse i) = false) ->
               (forall s, p (FxConsole s) = false) ->
               count p (responseLog cfg) = 0%nat.
Proof.
  unfold responseLog. destruct (Config.logRequests cfg); repeat split;
    try reflexivity; intros p H1 H2; unfold count; cbn; rewrite ?H1, ?H2; reflexivity.
Qed.

(** Prefixing a run of the remaining attempts with an attempt. *)
Lemma Run_prefix url options w w1 w' res pre tr :
  trace w1 = trace w ++ pre ->
  Forall (fun p => p = (url, options)) (fetchesOf pre) ->
  interceptsOf pre = [] ->
  Run url options w1 w' res tr ->
  Run url options w w' res (pre ++ tr).
Proof.
  intros Htr Hf Hi [T F I].
  constructor.
  - rewrite T, Htr. now rewrite app_assoc.
  - unfold fetchesOf in *. rewrite omap_app. apply Forall_app. split; assumption.
  - unfold interceptsOf in *. rewrite omap_app, Hi, I. reflexivity.
Qed.

Lemma count_response_status (s : Z) :
  s <> 401 -> forall l, count (isResponse 401) (FxResponse s :: l) = count (isResponse 401) l.
Proof.
  intros Hs l. rewrite count_cons. cbn.
  destruct (s =? 401) eqn:E; [apply Z.eqb_eq in E; contradiction | reflexivity].
Qed.

Ltac quiet_log cfg :=
  destruct (responseLog_quiet cfg) as (HLf & HLi & HLs & HLc).

(** What one attempt adds to the trace: its [fetch], on the URL and the
    options of the call, and no request interceptor. *)
Lemma attemptBody_effects cfg m srv url options attempt retryAttempts w o w1 :
  attemptBody (client cfg m) srv url options attempt (timeoutOf (client cfg m) options)
    retryAttempts w = (o, w1) ->
  exists pre,
    trace w1 = trace w ++ pre
    /\ Forall (fun p => p = (url, options)) (fetchesOf pre)
    /\ interceptsOf pre = [].
Proof.
  rewrite attemptBody_client. cbv zeta. quiet_log cfg.
  destruct (fetch srv url options (timeoutOf (client cfg m) options) w) as [o' w0] eqn:Hf.
  apply fetch_spec in Hf as [_ [(r & -> & Htr) | [Ho Htr]]].
  - assert (Hbase : forall post,
              fetchesOf post = [] -> interceptsOf post = [] ->
              exists pre,
                trace w0 ++ responseLog cfg ++ post = trace w ++ pre
                /\ Forall (fun p => p = (url, options)) (fetchesOf pre)
                /\ interceptsOf pre = []).
    { intros post Hpf Hpi.
      exists ([FxFetch url options (timeoutOf (client cfg m) options);
               FxResponse (status r)] ++ responseLog cfg ++ post).
      split; [rewrite Htr; now rewrite <- !app_assoc |].
      unfold fetchesOf, interceptsOf in *.
      rewrite !omap_app, HLf, HLi, Hpf, Hpi. cbn. split; [repeat constructor | reflexivity]. }
    destruct (ok r).
    + intros [= <- <-]. cbn [trace emits].
      destruct (Hbase [] eq_refl eq_refl) as (pre & H1 & H2 & H3).
      exists pre. rewrite app_nil_r in H1. auto.
    + destruct (parseErrorResponse r) as [error | x].
      * destruct (isRetryableError (ExApi error) && (attempt <? retryAttempts)).
        -- intros [= <- <-]. cbn [trace emits].
           destruct (Hbase [] eq_refl eq_refl) as (pre & H1 & H2 & H3).
           exists pre. rewrite app_nil_r in H1. auto.
        -- intros [= <- <-]. unfold afterErrorInterceptors.
           destruct (statusCode error =? Config.HTTP_STATUS.UNAUTHORIZED);
             cbn [trace emits]; rewrite <- app_assoc; apply Hbase; reflexivity.
      * intros [= <- <-]. cbn [trace emits].
        destruct (Hbase [] eq_refl eq_refl) as (pre & H1 & H2 & H3).
        exists pre. rewrite app_nil_r in H1. auto.
  - destruct Ho as [-> | [msg ->]]; intros [= <- <-];
      exists [FxFetch url options (timeoutOf (client cfg m) options)];
      (split; [exact Htr |]); (split; [cbn; repeat constructor | reflexivity]).
Qed.

Lemma makeRequest_from_run cfg m srv url options :
  forall fuel attempt w res w',
    makeRequest_from fuel (client cfg m) srv url options attempt w = Some (res, w') ->
    exists tr, Run url options w w' res tr.
Proof.
  induction fuel as [| fuel IH]; intros attempt w res w' H; [discriminate H |].
  rewrite makeRequest_from_S in H. cbv zeta in H.
  destruct (attemptBody (client cfg m) srv url options attempt
              (timeoutOf (client cfg m) options) (attemptsOf (client cfg m) options) w)
    as [o w1] eqn:Hb.
  apply attemptBody_effects in Hb as (pre & Htr & Hf & Hi).
  assert (Hretry : forall res w',
            makeRequest_from fuel (client cfg m) srv url options (attempt + 1)
              (snd (sleep (delayOf (client cfg m) options * 2 ^ (attempt - 1)) w1))
            = Some (res, w') ->
            exists tr, Run url options w w' res tr).
  { intros res0 w0 H0. apply IH in H0 as [tr Hrun].
    exists ((pre ++ [FxSleep (delayOf (client cfg m) options * 2 ^ (attempt - 1))]) ++ tr).
    eapply Run_prefix; [| | | exact Hrun].
    - cbn [trace sleep snd]. rewrite Htr. now rewrite <- app_assoc.
    - unfold fetchesOf in *. rewrite omap_app. cbn. now rewrite app_nil_r.
    - unfold interceptsOf in *. rewrite omap_app, Hi. reflexivity. }
  assert (Hdone : forall res0, exists tr, Run url options w w1 res0 tr).
  { intros res0. exists pre. constructor; assumption. }
  destruct o as [[response |] | error].
  - injection H as <- <-. apply Hdone.
  - now apply Hretry.
  - destruct (String.eqb (exn_name error) "AbortError");
      [| destruct (isTypeError error)];
      try (destruct (attempt <? attemptsOf (client cfg m) options);
           [now apply Hretry |]);
      injection H as <- <-; apply Hdone.
Qed.

(** [attemptBody] asks for another attempt only while attempts remain. *)
Lemma attemptBody_Again c srv url options attempt timeout retryAttempts w w1 :
  attemptBody c srv url options attempt timeout retryAttempts w = (Ok Again, w1) ->
  (attempt <? retryAttempts) = true.
Proof.
  unfold attemptBody, bind.
  destruct (fetch srv url options timeout w) as [[r | x] w2]; [| discriminate].
  destruct (runResponseInterceptors 0 (responseInterceptors c) r w2) as [[p | x] w3];
    [| discriminate].
  destruct (negb (ok p)); [| discriminate].
  unfold settled. destruct (parseErrorResponse p) as [error | x]; [| discriminate].
  destruct (isRetryableError (ExApi error) && (attempt <? retryAttempts)) eqn:E.
  - intros _. now apply andb_true_iff in E as [_ E].
  - destruct (runErrorInterceptors 0 (errorInterceptors c) error w3)
      as [[[] | x] w4]; discriminate.
Qed.

(** [makeRequest] always returns: the fuel it starts with covers every
    attempt it can make. *)
Lemma makeRequest_from_total c srv url options :
  forall fuel attempt w,
    (Z.to_nat (attemptsOf c options - attempt) < fuel)%nat ->
    exists res w', makeRequest_from fuel c srv url options attempt w = Some (res, w').
Proof.
  induction fuel as [| fuel IH]; intros attempt w Hfuel; [lia |].
  rewrite makeRequest_from_S. cbv zeta.
  destruct (attemptBody c srv url options attempt (timeoutOf c options)
              (attemptsOf c options) w) as [[[response |] | error] w1] eqn:Hbody.
  - eauto.
  - apply attemptBody_Again in Hbody. apply Z.ltb_lt in Hbody. apply IH. lia.
  - destruct (String.eqb (exn_name error) "AbortError");
      [| destruct (isTypeError error)];
      try (destruct (attempt <? attemptsOf c options) eqn:Hlt;
           [apply IH; apply Z.ltb_lt in Hlt; lia | eauto]); eauto.
Qed.

Lemma makeRequest_total c srv url options w :
  exists res w', makeRequest c srv url options w = Some (res, w').
Proof. apply makeRequest_from_total. lia. Qed.

(** *** Preparing a request *)

Lemma runRequestInterceptors_client cfg m url options w :
  runRequestInterceptors 0 (requestInterceptors (client cfg m)) url options w
  = (Ok (url, authorize (localStorage w) options),
     emits (requestLog cfg url (authorize (localStorage w) options)) w).
Proof.
  unfold client, requestLog, authorize.
  cbn [requestInterceptors set_cache new_HttpClient runRequestInterceptors].
  unfold bind at 1. unfold emit at 1. unfold bind at 1. unfold authInterceptor.
  unfold AUTH_TOKEN.
  destruct (Opts.skipAuth options); cbn [negb andb].
  - unfold ret at 1. cbn [fst snd].
    destruct (Config.logRequests cfg); cbn [runRequestInterceptors].
    + unfold bind, emit, logRequestInterceptor, bind, emit, ret, emits. cbn.
      f_equal. apply world_eq; cbn; try reflexivity. now rewrite <- !app_assoc.
    + unfold ret, emits. reflexivity.
  - unfold bind at 1, getItem at 1. cbn [localStorage].
    destruct (Js.str_truthy (localStorage w !! Config.STORAGE_KEYS.AUTH_TOKEN));
      unfold ret at 1; cbn [fst snd];
      (destruct (Config.logRequests cfg); cbn [runRequestInterceptors];
       [ unfold bind, emit, logRequestInterceptor, bind, emit, ret, emits; cbn;
         f_equal; apply world_eq; cbn; try reflexivity; now rewrite <- !app_assoc
       | unfold ret, emits; reflexivity ]).
Qed.

(** *** Retrying a server that keeps answering 503 *)





(** The same call against a server whose 503 has the body [null]: three
    attempts, the same two waits, and [NetworkError] at the end. *)
Example null_body_503_ends_in_NetworkError :
  match makeRequest (client (Config.defaultApiConfig false) ∅) server503null
          "http://localhost:8000/x" retry3 freshWorld with
  | Some (Throw (ExApi e), w') =>
      e = NetworkError
      /\ length (fetchesOf (trace w')) = 3%nat
      /\ sleepsOf (trace w') = [100; 200]
  | _ => False
  end.
Proof. vm_compute. repeat split. Qed.

(** *** A whole [request] *)

Lemma parseResponse_world (r : Response) (w : World) : snd (parseResponse r w) = w.
Proof.
  unfold parseResponse, responseJson.
  repeat match goal with
         | |- context [if ?b then _ else _] => destruct b
         | |- context [match json r with _ => _ end] => destruct (json r)
         end; reflexivity.
Qed.

(** A [request] of the client returns.  It runs the request interceptors,
    then either answers from the cache, adding nothing more to the trace, or
    makes one run of [makeRequest] on the URL and options the interceptors
    left, and fails when that run fails. *)
Lemma request_client cfg m srv endpoint options w :
  let url := resolveUrl (client cfg m) endpoint in
  let ro := authorize (localStorage w) (withDefaultHeaders options) in
  let w1 := emits (requestLog cfg url ro) w in
  exists res c' w' post,
    request (client cfg m) srv endpoint options w = Some (res, c', w')
    /\ ((post = [] /\ w' = w1 /\ exists d, res = Ok d)
        \/ exists resp, Run url ro w1 w' resp post
                        /\ forall x, resp = Throw x -> res = Throw x).
Proof.
  cbv zeta. unfold request. rewrite runRequestInterceptors_client.
  set (url := resolveUrl (client cfg m) endpoint).
  set (ro := authorize (localStorage w) (withDefaultHeaders options)).
  set (w1 := emits (requestLog cfg url ro) w).
  destruct (if cacheable (client cfg m) ro
            then getCachedResponse (cache (client cfg m)) (cacheKeyOf url ro) (clock w1)
            else (Js.DNull, cache (client cfg m))) as [cached cache1].
  destruct (cacheable (client cfg m) ro && Js.truthy cached).
  - exists (Ok cached), (set_cache (client cfg m) cache1), w1, []. split; [reflexivity |].
    left. eauto.
  - change (set_cache (client cfg m) cache1) with (client cfg cache1).
    destruct (makeRequest_total (client cfg cache1) srv url ro w1) as (resp & w2 & Hmk).
    rewrite Hmk.
    destruct (makeRequest_from_run _ _ _ _ _ _ _ _ _ _ Hmk) as [post Hrun].
    destruct resp as [response | x].
    + pose proof (parseResponse_world response w2) as Hw.
      destruct (parseResponse response w2) as [[d | x] w3]; cbn in Hw; subst w3.
      * destruct (cacheable (client cfg m) ro);
          eexists _, _, w2, post; (split; [reflexivity |]); right;
          exists (Ok response); (split; [exact Hrun | discriminate]).
      * eexists _, _, w2, post. split; [reflexivity |]. right.
        exists (Ok response). split; [exact Hrun | discriminate].
    + eexists _, _, w2, post. split; [reflexivity |]. right.
      exists (Throw x). split; [exact Hrun |]. intros y [= <-]. reflexivity.
Qed.

Lemma requestLog_quiet cfg url ro :
  fetchesOf (requestLog cfg url ro) = []
  /\ interceptsOf (requestLog cfg url ro)
     = seq 0 (length (requestInterceptors (new_HttpClient cfg)))
  /\ forall p, (forall i, p (FxInterceptRequest i) = false) ->
               (forall s, p (FxConsole s) = false) ->
               count p (requestLog cfg url ro) = 0%nat.
Proof.
  unfold requestLog. cbn [requestInterceptors new_HttpClient].
  destruct (Config.logRequests cfg); repeat split; try reflexivity;
    intros p H1 H2; unfold count; cbn; rewrite ?H1, ?H2; reflexivity.
Qed.

(** C7 (the code falls short of it): a 401 whose body is the JSON text
    [null] clears nothing and broadcasts no logout.  [parseErrorResponse]
    reads the properties of the parsed body outside its [try], so it throws
    [TypeError] on [null]; [makeRequest] takes that for a failure of the
    network, tries again while attempts remain and ends in [NetworkError]
    without having run the error interceptors.  The same call against a 401
    with an empty body fails at once with [UnauthorizedError], removes the
    token and broadcasts the logout once. *)
Theorem C7_null_body_401_is_no_logout :
  match request (client (Config.defaultApiConfig false) ∅) server401null "/x"
          retry3 freshWorld with
  | Some (Throw (ExApi e), _, w') =>
      e = NetworkError
      /\ length (fetchesOf (trace w')) = 3%nat
      /\ count (isResponse 401) (trace w') = 3%nat
      /\ count isLogout (trace w') = 0%nat
      /\ localStorage w' !! Config.STORAGE_KEYS.AUTH_TOKEN
         = localStorage freshWorld !! Config.STORAGE_KEYS.AUTH_TOKEN
      /\ localStorage w' !! Config.STORAGE_KEYS.AUTH_TOKEN <> None
  | _ => False
  end
  /\ match request (client (Config.defaultApiConfig false) ∅) server401 "/x"
            retry3 freshWorld with
     | Some (Throw (ExApi e), _, w') =>
         name e = "UnauthorizedError"
         /\ length (fetchesOf (trace w')) = 1%nat
         /\ count isLogout (trace w') = 1%nat
         /\ localStorage w' !! Config.STORAGE_KEYS.AUTH_TOKEN = None
     | _ => False
     end.
Proof. vm_compute. repeat split. discriminate. Qed.

(** C10: in one [request] each request interceptor runs exactly once, in
    order, before anything is fetched; the auth interceptor reads the token
    from [localStorage] as it is when the call starts; and every attempt
    fetches the same URL with the same options, whatever became of
    [localStorage] while earlier attempts were in flight. *)
Theorem C10_interceptors_once_attempts_identical cfg m srv endpoint options w :
  let url := resolveUrl (client cfg m) endpoint in
  let ro := authorize (localStorage w) (withDefaultHeaders options) in
  exists res c' w' pre post,
    request (client cfg m) srv endpoint options w = Some (res, c', w')
    /\ trace w' = trace w ++ pre ++ post
    /\ interceptsOf pre = seq 0 (length (requestInterceptors (client cfg m)))
    /\ fetchesOf pre = []
    /\ interceptsOf post = []
    /\ Forall (fun p => p = (url, ro)) (fetchesOf post).
Proof.
  cbv zeta.
  destruct (request_client cfg m srv endpoint options w)
    as (res & c' & w' & post & Hreq & Hcases).
  cbv zeta in Hcases.
  set (url := resolveUrl (client cfg m) endpoint) in *.
  set (ro := authorize (localStorage w) (withDefaultHeaders options)) in *.
  destruct (requestLog_quiet cfg url ro) as (HQf & HQi & _).
  exists res, c', w', (requestLog cfg url ro), post.
  split; [exact Hreq |].
  destruct Hcases as [(-> & -> & _) | (resp & [T F I] & Hres)].
  - rewrite app_nil_r. repeat split; try assumption; try reflexivity. constructor.
  - repeat split; try assumption.
    rewrite T. cbn [trace emits]. now rewrite app_assoc.
Qed.

Example logout_once_on_retry :
  match request (client (Config.defaultApiConfig false) ∅) server503then401 "/x"
          retry3 freshWorld with
  | Some (Throw (ExApi e), _, w') =>
      name e = "UnauthorizedError"
      /\ length (fetchesOf (trace w')) = 2%nat
      /\ count isLogout (trace w') = 1%nat
      /\ localStorage w' !! "aura_token" = None
  | _ => False
  end.
Proof. vm_compute. repeat split. Qed.

Example token_change_not_picked_up :
  match request (client (Config.defaultApiConfig false) ∅) serverRotatingToken "/x"
          retry3 freshWorld with
  | Some (_, _, w') =>
      map (fun p => (fst p, Opts.headers (snd p) !! "Authorization")) (fetchesOf (trace w'))
      = [("http://localhost:8000/x", Some "Bearer t0");
         ("http://localhost:8000/x", Some "Bearer t0");
         ("http://localhost:8000/x", Some "Bearer t0")]
      /\ localStorage w' !! "aura_token" = Some "t1"
  | None => False
  end.
Proof. vm_compute. repeat split. Qed.

(** *** The cache *)

(** [getCachedResponse] returns the payload of an entry exactly while
    [now - timestamp <= ttl], and deletes the entry otherwise. *)
Lemma getCachedResponse_entry cache key now entry :
  cache !! key = Some entry ->
  getCachedResponse cache key now
  = if now - timestamp entry <=? ttl entry then (data entry, cache)
    else (Js.DNull, delete key cache).
Proof.
  intros H. unfold getCachedResponse. rewrite H.
  destruct (ttl entry <? now - timestamp entry) eqn:E.
  - apply Z.ltb_lt in E. destruct (now - timestamp entry <=? ttl entry) eqn:E'; [| reflexivity].
    apply Z.leb_le in E'. lia.
  - apply Z.ltb_ge in E. apply Z.leb_le in E. now rewrite E.
Qed.

(** A cacheable request whose entry is fresh and whose payload is truthy is
    answered from the cache: the trace gains the interceptors' events and
    nothing else, and nothing is fetched. *)
Lemma request_served_from_cache cfg m srv endpoint options w entry :
  let url := resolveUrl (client cfg m) endpoint in
  let ro := authorize (localStorage w) (withDefaultHeaders options) in
  cacheable (client cfg m) ro = true ->
  m !! cacheKeyOf url ro = Some entry ->
  clock w - timestamp entry <= ttl entry ->
  Js.truthy (data entry) = true ->
  request (client cfg m) srv endpoint options w
  = Some (Ok (data entry), client cfg m, emits (requestLog cfg url ro) w).
Proof.
  cbv zeta. intros Hc Hm Hfresh Htruthy.
  unfold request. rewrite runRequestInterceptors_client, Hc.
  cbn [cache client set_cache emits clock].
  rewrite (getCachedResponse_entry _ _ _ _ Hm).
  apply Z.leb_le in Hfresh. rewrite Hfresh, Htruthy. reflexivity.
Qed.

(** The scenario of the specification, for a payload that is an object:
    served from the cache after 500 ms, fetched again after 1500 ms. *)
Example cache_ttl_scenario :
  twice (Js.DObject "{}") 500 = Some (Ok (Js.DObject "{}"), 1%nat)
  /\ twice (Js.DObject "{}") 1500 = Some (Ok (Js.DObject "{}"), 2%nat).
Proof. vm_compute. split; reflexivity. Qed.

(** C5 (the code falls short of it): a cached payload that is falsy is never
    served.  [GET /x] answers the JSON value [null]; the answer is cached
    with [cacheTTL = 1000]; 500 ms later the entry is there and fresh, yet
    the same [GET] goes to the network again, because [request] takes the
    [null] that [getCachedResponse] returned for a miss.  The same happens
    for [0], [false] and the empty string. *)
Theorem C5_falsy_payload_is_fetched_again :
  twice Js.DNull 500 = Some (Ok Js.DNull, 2%nat)
  /\ twice (Js.DNumber 0) 500 = Some (Ok (Js.DNumber 0), 2%nat)
  /\ twice (Js.DBool false) 500 = Some (Ok (Js.DBool false), 2%nat)
  /\ twice (Js.DString "") 500 = Some (Ok (Js.DString ""), 2%nat)
  /\ match get (client (Config.defaultApiConfig false) ∅) (serverOf Js.DNull) "/x"
             ttl1000 freshWorld with
     | Some (_, c1, w1) =>
         exists entry,
           cache c1 !! "GET:http://localhost:8000/x" = Some entry
           /\ data entry = Js.DNull
           /\ (clock w1 + 500) - timestamp entry <= ttl entry
     | None => False
     end.
Proof.
  vm_compute. repeat split.
  eexists. split; [reflexivity |]. split; [reflexivity |]. discriminate.
Qed.

End HttpSpec.

(** *** The event-stream manager *)

Module SseSpec.

Import Sse SseNotions.

Ltac crush :=
  repeat (cbn;
          match goal with
          | |- context [match ?x with _ => _ end] => is_var x; destruct x
          | |- context [if ?b then _ else _] => destruct b
          end);
  cbn; try reflexivity.

Lemma core_setConnectionState st s : core (setConnectionState st s) = core s.
Proof. destruct s. unfold setConnectionState. crush. Qed.

Lemma core_stopHeartbeat s : core (stopHeartbeat s) = core s.
Proof. destruct s. unfold stopHeartbeat. crush. Qed.

Lemma core_startHeartbeat s : core (startHeartbeat s) = core s.
Proof. destruct s. unfold startHeartbeat, stopHeartbeat. crush. Qed.

Lemma core_scheduleReconnect s : core (scheduleReconnect s) = core s.
Proof. destruct s. unfold scheduleReconnect, setConnectionState. crush. Qed.

Lemma core_onopen s : core (onopen s) = core s.
Proof.
  unfold onopen. rewrite core_startHeartbeat.
  destruct s. unfold setConnectionState. crush.
Qed.

Lemma core_onerror s : core (onerror s) = core s.
Proof.
  unfold onerror.
  repeat match goal with |- context [if ?b then _ else _] => destruct b end;
    rewrite ?core_scheduleReconnect, core_stopHeartbeat, core_setConnectionState;
    reflexivity.
Qed.

Lemma core_onframe ty p s : core (onframe ty p s) = core s.
Proof.
  destruct s, p as [p |]; unfold onframe, notifySubscribers; cbn; [| reflexivity].
  destruct (subs_get subscriptions0 (resource_id p)); reflexivity.
Qed.

Lemma core_disconnect s :
  core (disconnect s)
  = (None,
     match eventSource s with
     | Some i => closeAt i (sources s)
     | None => sources s
     end,
     subscriptions s).
Proof. destruct s. unfold disconnect, stopHeartbeat, setConnectionState. crush. Qed.

Lemma live_core s : live s = liveC (eventSource s) (sources s).
Proof. destruct s as [[i |]]; reflexivity. Qed.

Lemma core_connect s :
  core (connect s)
  = if liveC (eventSource s) (sources s) then core s
    else match subscriptions s with
         | [] => core s
         | _ => (Some (length (sources s)), sources s ++ [fresh (subscriptions s)],
                 subscriptions s)
         end.
Proof.
  unfold connect. rewrite live_core.
  destruct (liveC (eventSource s) (sources s)); [reflexivity |].
  destruct s. unfold setConnectionState, resourceIds, fresh, core.
  cbn. destruct subscriptions0; [reflexivity |].
  crush.
Qed.

Lemma core_setReadyState i rs s :
  core (setReadyState i rs s)
  = (eventSource s,
     alter (fun es => {| url := url es; readyState := rs |}) i (sources s),
     subscriptions s).
Proof. reflexivity. Qed.

Lemma core_eq s es srcs subs :
  core s = (es, srcs, subs) ->
  eventSource s = es /\ sources s = srcs /\ subscriptions s = subs.
Proof.
  unfold core. intros H. repeat split.
  - exact (f_equal (fun c => fst (fst c)) H).
  - exact (f_equal (fun c => snd (fst c)) H).
  - exact (f_equal snd H).
Qed.

Lemma core_reconnect s :
  core (reconnect s)
  = match subscriptions s with
    | [] => core (disconnect s)
    | _ => (Some (length (sources s)),
            match eventSource s with
            | Some i => closeAt i (sources s)
            | None => sources s
            end ++ [fresh (subscriptions s)],
            subscriptions s)
    end.
Proof.
  unfold reconnect. rewrite core_connect.
  destruct (core_eq _ _ _ _ (core_disconnect s)) as (He & Hs & Hsub).
  rewrite He, Hs, Hsub. cbn [liveC].
  destruct (subscriptions s); [now rewrite core_disconnect |].
  f_equal. f_equal. f_equal.
  destruct (eventSource s); [| reflexivity].
  unfold closeAt. apply length_alter.
Qed.

Lemma alter_last {A} (f : A -> A) (pre : list A) (cur : A) :
  alter f (length pre) (pre ++ [cur]) = pre ++ [f cur].
Proof.
  rewrite <- (Nat.add_0_r (length pre)). now rewrite alter_app_r.
Qed.

Lemma lookup_last {A} (pre : list A) (cur : A) :
  (pre ++ [cur]) !! length pre = Some cur.
Proof. apply list_lookup_middle. reflexivity. Qed.

Lemma Forall_closed_snoc pre cur :
  Forall closed pre -> closed cur -> Forall closed (pre ++ [cur]).
Proof. intros Hp Hc. apply Forall_app. split; [assumption | now constructor]. Qed.

(** After [disconnect] every source is closed. *)
Lemma Shape_disconnect P es srcs :
  Shape P es srcs ->
  Forall closed match es with
                | Some i => closeAt i srcs
                | None => srcs
                end.
Proof.
  intros [srcs' H | pre cur Hpre _]; [exact H |].
  unfold closeAt. rewrite alter_last. now apply Forall_closed_snoc.
Qed.

Lemma Shape_not_live P es srcs :
  Shape P es srcs -> liveC es srcs = false -> Forall closed srcs.
Proof.
  intros [srcs' H | pre cur Hpre _] Hlive; [exact H |].
  apply Forall_closed_snoc; [exact Hpre |].
  cbn in Hlive. rewrite lookup_last in Hlive. cbn in Hlive.
  apply negb_false_iff, bool_decide_eq_true in Hlive. now injection Hlive.
Qed.

Lemma Inv_disconnect s : Shape (fun _ => True) (eventSource s) (sources s) -> Inv (disconnect s).
Proof.
  intros H. unfold Inv.
  destruct (core_eq _ _ _ _ (core_disconnect s)) as (-> & -> & ->).
  constructor. exact (Shape_disconnect _ _ _ H).
Qed.

Lemma Inv_connect s : Inv s -> Inv (connect s).
Proof.
  unfold Inv. intros H.
  pose proof (core_connect s) as Hc.
  destruct (liveC (eventSource s) (sources s)) eqn:Hlive.
  - destruct (core_eq _ _ _ _ Hc) as (-> & -> & ->). exact H.
  - destruct (subscriptions s) as [| p subs] eqn:Hsubs.
    + destruct (core_eq _ _ _ _ Hc) as (-> & -> & ->). rewrite Hsubs. exact H.
    + destruct (core_eq _ _ _ _ Hc) as (-> & -> & ->).
      constructor; [exact (Shape_not_live _ _ _ H Hlive) |].
      intros _. reflexivity.
Qed.

Lemma Shape_weaken (P Q : EventSource -> Prop) es srcs :
  (forall cur, P cur -> Q cur) -> Shape P es srcs -> Shape Q es srcs.
Proof. intros HPQ [srcs' H | pre cur Hpre Hcur]; constructor; auto. Qed.

Lemma Inv_reconnect s : Shape (fun _ => True) (eventSource s) (sources s) -> Inv (reconnect s).
Proof. intros H. apply Inv_connect, Inv_disconnect, H. Qed.

Lemma Inv_core s s' : core s' = core s -> Inv s -> Inv s'.
Proof.
  intros H. destruct (core_eq _ _ _ _ H) as (He & Hs & Hsub).
  unfold Inv. now rewrite He, Hs, Hsub.
Qed.

Lemma Inv_shape s : Inv s -> Shape (fun _ => True) (eventSource s) (sources s).
Proof. apply Shape_weaken. trivial. Qed.

(** *** The registry *)

Lemma subs_add_keys subs r cb :
  map fst (subs_add subs r cb)
  = if subs_has subs r then map fst subs else map fst subs ++ [r].
Proof.
  unfold subs_has.
  induction subs as [| [k cbs] subs IH]; [reflexivity |].
  cbn. destruct (String.eqb k r); [reflexivity |].
  cbn. rewrite IH. destruct (subs_get subs r); reflexivity.
Qed.

Lemma subs_add_nonempty subs r cb : subs_add subs r cb <> [].
Proof. destruct subs as [| [k cbs] subs]; cbn; [| destruct (String.eqb k r)]; discriminate. Qed.

Lemma Shape_carries_change subs subs' es srcs :
  Shape (carries subs) es srcs ->
  map fst subs' = map fst subs \/ liveC es srcs = false ->
  Shape (carries subs') es srcs.
Proof.
  intros [srcs' H | pre cur Hpre Hcur] Hor; constructor; try assumption.
  unfold carries in *. destruct Hor as [-> | Hlive]; [exact Hcur |].
  intros Hopen. exfalso. apply Hopen.
  cbn in Hlive. rewrite lookup_last in Hlive. cbn in Hlive.
  apply negb_false_iff, bool_decide_eq_true in Hlive. now injection Hlive.
Qed.

Lemma Inv_subscribe r cb s : Inv s -> Inv (subscribe r cb s).
Proof.
  intros H. unfold subscribe. cbv zeta.
  set (s1 := set_subscriptions (subs_add (subscriptions s) r cb) s).
  destruct (negb (subs_has (subscriptions s) r) && live s1) eqn:E.
  - apply Inv_reconnect. exact (Inv_shape s H).
  - apply Inv_connect. unfold Inv. cbn [s1 set_subscriptions subscriptions eventSource sources].
    apply (Shape_carries_change (subscriptions s)); [exact H |].
    rewrite subs_add_keys.
    destruct (subs_has (subscriptions s) r); [left; reflexivity |].
    right. cbn in E. rewrite live_core in E. exact E.
Qed.

Lemma Inv_unsubscribe r cb s : Inv s -> Inv (unsubscribe r cb s).
Proof.
  intros H. unfold unsubscribe. cbv zeta.
  destruct (subscriptions (set_subscriptions (subs_remove (subscriptions s) r cb) s)).
  - apply Inv_disconnect. exact (Inv_shape s H).
  - apply Inv_reconnect. exact (Inv_shape s H).
Qed.

Lemma Inv_destroy s : Inv s -> Inv (destroy s).
Proof.
  intros H. unfold destroy.
  pose proof (Inv_disconnect s (Inv_shape s H)) as Hd.
  destruct (core_eq _ _ _ _ (core_disconnect s)) as (He & Hs & _).
  unfold Inv in *. cbn [set_stateChangeListeners set_subscriptions eventSource
                          sources subscriptions].
  rewrite He in *. inversion Hd. now constructor.
Qed.

(** A change of [readyState] of the source the manager holds that never
    reopens a closed source keeps the invariant. *)
Lemma Inv_setReadyState i rs s s' :
  Inv s -> eventSource s = Some i ->
  (forall cur, sources s !! i = Some cur -> readyState cur = ES_CLOSED -> rs = ES_CLOSED) ->
  core s' = core (setReadyState i rs s) ->
  Inv s'.
Proof.
  intros H Hi Hrs Hcore. apply (Inv_core _ _ Hcore).
  unfold Inv in *. cbn [setReadyState set_sources eventSource sources subscriptions].
  rewrite Hi in *.
  inversion H as [| pre cur Hpre Hcur Hlen Hsrc].
  rewrite <- Hsrc in Hrs. rewrite <- Hlen in *. rewrite alter_last.
  constructor; [exact Hpre |].
  unfold carries in *. cbn. intros Hopen. apply Hcur. intros Hclosed.
  apply Hopen. apply (Hrs cur); [| exact Hclosed].
  apply lookup_last.
Qed.

Lemma currentReadyState_lookup s i rs :
  eventSource s = Some i -> currentReadyState s = Some rs ->
  exists cur, sources s !! i = Some cur /\ readyState cur = rs.
Proof.
  unfold currentReadyState. intros -> H.
  destruct (sources s !! i) as [cur |]; [| discriminate].
  injection H as <-. eauto.
Qed.

Lemma step_Inv e s : Inv s -> Inv (step e s).
Proof.
  intros H. destruct e as [r cb | r cb | l | l | | | | fatal | ty p | | h | | dt];
    cbn [step].
  - now apply Inv_subscribe.
  - now apply Inv_unsubscribe.
  - exact H.
  - exact H.
  - apply Inv_disconnect. exact (Inv_shape s H).
  - now apply Inv_destroy.
  - destruct (eventSource s) as [i |] eqn:Hi; [| exact H].
    destruct (currentReadyState s) as [[| |] |] eqn:Hrs; try exact H.
    apply (Inv_setReadyState i ES_OPEN s); [exact H | exact Hi | | apply core_onopen].
    intros cur Hcur Hclosed.
    destruct (currentReadyState_lookup s i _ Hi Hrs) as (cur' & Hcur' & Hrs').
    congruence.
  - destruct (eventSource s) as [i |] eqn:Hi; [| exact H].
    destruct (currentReadyState s) as [rs |] eqn:Hrs; [| exact H].
    apply (Inv_setReadyState i (afterError fatal rs) s);
      [exact H | exact Hi | | apply core_onerror].
    intros cur Hcur Hclosed.
    destruct (currentReadyState_lookup s i _ Hi Hrs) as (cur' & Hcur' & Hrs').
    assert (rs = ES_CLOSED) as -> by congruence.
    destruct fatal; reflexivity.
  - destruct (currentReadyState s) as [[| |] |]; try exact H.
    exact (Inv_core _ _ (core_onframe ty p s) H).
  - destruct (currentReadyState s) as [[| |] |]; try exact H.
    destruct parses; exact H.
  - destruct (existsb _ (timers s)); [| exact H].
    apply Inv_reconnect. exact (Inv_shape s H).
  - destruct (heartbeatTimeout s); [| exact H].
    destruct (_ && _); [| exact H].
    apply Inv_reconnect. exact (Inv_shape s H).
  - exact H.
Qed.

Lemma run_Inv events : forall s, Inv s -> Inv (run events s).
Proof.
  induction events as [| e events IH]; intros s H; [exact H |].
  cbn. apply IH, step_Inv, H.
Qed.

Lemma Inv_new t : Inv (new_SSEManager t).
Proof. constructor. constructor. Qed.

Lemma filter_closed srcs : Forall closed srcs -> List.filter isOpen srcs = [].
Proof.
  induction 1 as [| es srcs Hes _ IH]; [reflexivity |].
  cbn. unfold isOpen at 1. rewrite Hes. cbn. exact IH.
Qed.

(** Under the invariant the open sources are the one source the manager
    holds, when that one is not closed, and none otherwise. *)
Lemma Inv_openSources s :
  Inv s ->
  openSources s = [] /\ live s = false
  \/ exists cur, openSources s = [cur] /\ live s = true
                 /\ url cur = streamUrl (resourceIds s).
Proof.
  unfold Inv, openSources. rewrite live_core.
  intros [srcs H | pre cur Hpre Hcur].
  - left. split; [now apply filter_closed | reflexivity].
  - rewrite List.filter_app, (filter_closed pre Hpre). cbn [app List.filter liveC].
    rewrite lookup_last. cbn [fmap option_fmap option_map].
    unfold isOpen.
    destruct (readyState cur) eqn:Hrs; cbn.
    + right. exists cur. repeat split. apply Hcur. congruence.
    + right. exists cur. repeat split. apply Hcur. congruence.
    + left. split; reflexivity.
Qed.


Lemma subscriptions_connect s : subscriptions (connect s) = subscriptions s.
Proof.
  pose proof (core_connect s) as Hc.
  destruct (liveC _ _); [| destruct (subscriptions s) eqn:E];
    destruct (core_eq _ _ _ _ Hc) as (_ & _ & ->); congruence.
Qed.

Lemma subscriptions_disconnect s : subscriptions (disconnect s) = subscriptions s.
Proof. now destruct (core_eq _ _ _ _ (core_disconnect s)) as (_ & _ & ->). Qed.

Lemma subscriptions_reconnect s : subscriptions (reconnect s) = subscriptions s.
Proof. unfold reconnect. now rewrite subscriptions_connect, subscriptions_disconnect. Qed.

Lemma subscriptions_subscribe r cb s :
  subscriptions (subscribe r cb s) = subs_add (subscriptions s) r cb.
Proof.
  unfold subscribe. cbv zeta. destruct (_ && _);
    now rewrite ?subscriptions_reconnect, ?subscriptions_connect.
Qed.

Lemma subscriptions_unsubscribe r cb s :
  subscriptions (unsubscribe r cb s) = subs_remove (subscriptions s) r cb.
Proof.
  unfold unsubscribe. cbv zeta.
  destruct (subscriptions (set_subscriptions _ s)) eqn:E;
    rewrite ?subscriptions_reconnect, ?subscriptions_disconnect; reflexivity.
Qed.

(** *** Sources are only ever constructed on the current resource list *)








Lemma NoDup_subs_add_keys subs r cb :
  NoDup (map fst subs) -> NoDup (map fst (subs_add subs r cb)).
Proof.
  intros H. rewrite subs_add_keys. unfold subs_has.
  destruct (subs_get subs r) as [cbs |] eqn:E; [exact H |].
  apply NoDup_app. split; [exact H |]. split; [| repeat constructor; inversion 1].
  intros x Hx Hr. apply list_elem_of_In in Hx, Hr. cbn in Hr. destruct Hr as [<- | []].
  clear H. induction subs as [| [k c] subs IH]; [exact Hx |].
  cbn in *. destruct (String.eqb k r) eqn:Ek; [discriminate |].
  destruct Hx as [-> | Hx]; [| now apply IH].
  now rewrite String.eqb_refl in Ek.
Qed.


(** Three subscriptions in sequence: three sources were constructed, two
    of them are closed again, and the one that is open was opened on the URL
    that lists the three identifiers. *)
Example three_subscriptions :
  let s := run [Subscribe "session:1" cbA; Subscribe "post:2" cbB;
                Subscribe "influencer:3" cbC] (new_SSEManager 0) in
  length (sources s) = 3%nat
  /\ openSources s
     = [{| url := "http://localhost:8000/stream?resources=session%3A1%2Cpost%3A2%2Cinfluencer%3A3";
           readyState := ES_CONNECTING |}]
  /\ resourceIds s = ["session:1"; "post:2"; "influencer:3"].
Proof. vm_compute. repeat split. Qed.

(** *** Routing of frames *)



Lemma subscriptions_step e s :
  subscriptions (step e s)
  = match e with
    | Subscribe r cb => subs_add (subscriptions s) r cb
    | Unsubscribe r cb => subs_remove (subscriptions s) r cb
    | Destroy => []
    | _ => subscriptions s
    end.
Proof.
  destruct e as [r cb | r cb | l | l | | | | fatal | ty p | | h | | dt]; cbn [step];
    try reflexivity.
  - apply subscriptions_subscribe.
  - apply subscriptions_unsubscribe.
  - apply subscriptions_disconnect.
  - destruct (eventSource s) as [i |]; [| reflexivity].
    destruct (currentReadyState s) as [[| |] |]; try reflexivity.
    now destruct (core_eq _ _ _ _ (core_onopen (setReadyState i ES_OPEN s))) as (_ & _ & ->).
  - destruct (eventSource s) as [i |]; [| reflexivity].
    destruct (currentReadyState s) as [rs |]; [| reflexivity].
    now destruct (core_eq _ _ _ _ (core_onerror (setReadyState i (afterError fatal rs) s)))
      as (_ & _ & ->).
  - destruct (currentReadyState s) as [[| |] |]; try reflexivity.
    now destruct (core_eq _ _ _ _ (core_onframe ty p s)) as (_ & _ & ->).
  - destruct (currentReadyState s) as [[| |] |]; try reflexivity.
    destruct parses; reflexivity.
  - destruct (existsb _ (timers s)); [| reflexivity]. now rewrite subscriptions_reconnect.
  - destruct (heartbeatTimeout s); [| reflexivity].
    destruct (_ && _); [| reflexivity]. now rewrite subscriptions_reconnect.
Qed.

Lemma subs_get_absent subs r : ~ In r (map fst subs) -> subs_get subs r = None.
Proof.
  induction subs as [| [k cbs] subs IH]; [reflexivity |].
  cbn. intros H. destruct (String.eqb k r) eqn:E.
  - apply String.eqb_eq in E. tauto.
  - apply IH. tauto.
Qed.


Lemma In_set_delete x cb cbs : In x (set_delete cb cbs) <-> In x cbs /\ x <> cb.
Proof.
  unfold set_delete. rewrite List.filter_In.
  rewrite negb_true_iff, bool_decide_eq_false. reflexivity.
Qed.


Lemma registered_subs_remove subs r' cb' r x :
  NoDup (map fst subs) ->
  In x (default [] (subs_get (subs_remove subs r' cb') r)) ->
  In x (default [] (subs_get subs r)) /\ ~ (r' = r /\ x = cb').
Proof.
  induction subs as [| [k cbs] subs IH]; cbn; [tauto |].
  intros Hnd. apply NoDup_cons in Hnd as [Hk Hnd].
  rewrite list_elem_of_In in Hk.
  destruct (String.eqb k r') eqn:E.
  - apply String.eqb_eq in E. subst k.
    destruct (String.eqb r' r) eqn:E'.
    + apply String.eqb_eq in E'. subst r'.
      destruct (set_delete cb' cbs) as [| c cbs'] eqn:Hdel.
      * rewrite (subs_get_absent _ _ Hk). cbn. tauto.
      * cbn -[In]. rewrite String.eqb_refl. cbn -[In].
        rewrite <- Hdel, In_set_delete. tauto.
    + assert (r' <> r) by (now apply String.eqb_neq).
      destruct (set_delete cb' cbs) as [| c cbs'] eqn:Hdel; cbn -[In]; rewrite ?E'.
      all: intros Hx; split; [exact Hx | intros [Heq _]; contradiction].
  - cbn. destruct (String.eqb k r) eqn:E'.
    + apply String.eqb_eq in E'. subst k. apply String.eqb_neq in E. cbn -[In].
      intuition congruence.
    + intros H. apply (IH Hnd) in H. tauto.
Qed.

Lemma subs_remove_keys subs r cb x :
  In x (map fst (subs_remove subs r cb)) -> In x (map fst subs).
Proof.
  induction subs as [| [k cbs] subs IH]; cbn; [tauto |].
  destruct (String.eqb k r).
  - destruct (set_delete cb cbs); cbn; tauto.
  - cbn. tauto.
Qed.

Lemma NoDup_subs_remove_keys subs r cb :
  NoDup (map fst subs) -> NoDup (map fst (subs_remove subs r cb)).
Proof.
  induction subs as [| [k cbs] subs IH]; cbn; [trivial |].
  intros Hnd. apply NoDup_cons in Hnd as [Hk Hnd].
  destruct (String.eqb k r).
  - destruct (set_delete cb cbs); cbn; [exact Hnd | now apply NoDup_cons].
  - cbn. apply NoDup_cons. split; [| now apply IH].
    rewrite list_elem_of_In in *. intros Hin. apply Hk.
    now apply subs_remove_keys in Hin.
Qed.

Lemma step_KeysOk e s : KeysOk s -> KeysOk (step e s).
Proof.
  unfold KeysOk. rewrite subscriptions_step.
  destruct e; try tauto.
  - apply NoDup_subs_add_keys.
  - apply NoDup_subs_remove_keys.
  - intros _. constructor.
Qed.

Lemma run_KeysOk events : forall s, KeysOk s -> KeysOk (run events s).
Proof.
  induction events as [| e events IH]; intros s H; [exact H |].
  cbn. apply IH, step_KeysOk, H.
Qed.



Lemma unsubscribe_unregisters r cb s :
  KeysOk s -> ~ In cb (registered (unsubscribe r cb s) r).
Proof.
  intros Hk Hin. unfold registered in Hin. rewrite subscriptions_unsubscribe in Hin.
  apply (registered_subs_remove _ _ _ _ _ Hk) in Hin. tauto.
Qed.

(** *** The registry and the calls made *)

Lemma SetsOk_subs_add subs r cb :
  Forall (fun p => snd p <> []) subs ->
  Forall (fun p => snd p <> []) (subs_add subs r cb).
Proof.
  induction 1 as [| [k cbs] subs Hne Hok IH]; cbn.
  - repeat constructor. discriminate.
  - destruct (String.eqb k r); constructor; try assumption. cbn in *.
    unfold set_add. destruct (bool_decide _); [exact Hne |].
    destruct cbs; discriminate.
Qed.

Lemma SetsOk_subs_remove subs r cb :
  Forall (fun p => snd p <> []) subs ->
  Forall (fun p => snd p <> []) (subs_remove subs r cb).
Proof.
  induction 1 as [| [k cbs] subs Hne Hok IH]; cbn; [constructor |].
  destruct (String.eqb k r).
  - destruct (set_delete cb cbs) eqn:E; [exact Hok |].
    constructor; [cbn; discriminate | exact Hok].
  - constructor; assumption.
Qed.

Lemma step_SetsOk e s : SetsOk s -> SetsOk (step e s).
Proof.
  unfold SetsOk. rewrite subscriptions_step.
  destruct e; auto using SetsOk_subs_add, SetsOk_subs_remove.
Qed.

Lemma run_SetsOk events : forall s, SetsOk s -> SetsOk (run events s).
Proof.
  induction events as [| e events IH]; intros s H; [exact H |].
  cbn [run fold_left]. fold (run events (step e s)). apply IH. now apply step_SetsOk.
Qed.

Lemma SetsOk_new t : SetsOk (new_SSEManager t).
Proof. constructor. Qed.














End SseSpec.

(** *** Reconnecting after transport errors *)

Module ReconnectSpec.

Import Sse SseSpec SseNotions ReconnectNotions.

Lemma ctl_eq s m a r tm n :
  ctl s = (m, a, r, tm, n) ->
  isManualClose s = m /\ reconnectAttempts s = a /\ reconnectTimeout s = r
  /\ timers s = tm /\ nextHandle s = n.
Proof. unfold ctl. intros [= -> -> -> -> ->]. repeat split. Qed.

Lemma obs_eq s d i :
  obs s = (d, i) -> scheduledDelays (log s) = d /\ invoked (log s) = i.
Proof. unfold obs. intros [= -> ->]. split; reflexivity. Qed.

Lemma omap_listeners {B} (f : Effect -> option B) (ls : list nat) (st : ConnectionState) :
  (forall l, f (FxListener l st) = None) ->
  omap f (map (fun l => FxListener l st) ls) = [].
Proof. intros H. induction ls as [| l ls IH]; [reflexivity |]. cbn. now rewrite H. Qed.

Ltac quiet_logs :=
  unfold obs, scheduledDelays, invoked;
  cbn -[Z.leb Z.min Z.mul Z.pow Z.add Z.sub Config.sseConfig];
  rewrite ?omap_app;
  rewrite ?omap_listeners by reflexivity;
  cbn -[Z.leb Z.min Z.mul Z.pow Z.add Z.sub Config.sseConfig];
  rewrite ?app_nil_r; try reflexivity.

Ltac eval_decide :=
  repeat match goal with
         | |- context [bool_decide ?P] =>
             first [ rewrite (bool_decide_eq_true_2 P) by (clear; congruence)
                   | rewrite (bool_decide_eq_false_2 P)
                       by (clear; let H := fresh in intros H; apply H; reflexivity) ]
         end.

Ltac frozen := cbn -[Z.leb Z.min Z.mul Z.pow Z.add Z.sub Config.sseConfig backoff].

(** [stopHeartbeat (setConnectionState st s)] touches the state, the
    heartbeat and the listeners only. *)
Lemma quiet_state st s :
  let s1 := stopHeartbeat (setConnectionState st s) in
  core s1 = core s /\ ctl s1 = ctl s /\ obs s1 = obs s
  /\ heartbeatTimeout s1 = None /\ connectionState s1 = st.
Proof.
  destruct s as [es subs att rt ht man cs ls lh srcs tms ivs nh clk lg].
  unfold stopHeartbeat, setConnectionState.
  destruct cs, st, ht; frozen; eval_decide; frozen; repeat split; quiet_logs.
Qed.

Lemma scheduleReconnect_lt s :
  reconnectAttempts s < Config.maxReconnectAttempts Config.sseConfig ->
  let s' := scheduleReconnect s in
  core s' = core s
  /\ ctl s' = (isManualClose s, reconnectAttempts s + 1, Some (nextHandle s),
              match reconnectTimeout s with
              | Some h => List.filter (fun p => negb (Nat.eqb (fst p) h)) (timers s)
              | None => timers s
              end ++ [(nextHandle s, backoff (reconnectAttempts s + 1))],
              S (nextHandle s))
  /\ obs s' = (scheduledDelays (log s) ++ [backoff (reconnectAttempts s + 1)],
              invoked (log s))
  /\ heartbeatTimeout s' = heartbeatTimeout s
  /\ connectionState s' = RECONNECTING.
Proof.
  intros Hlt. apply Z.leb_gt in Hlt.
  destruct s as [es subs att rt ht man cs ls lh srcs tms ivs nh clk lg].
  cbn [reconnectAttempts] in Hlt.
  assert (Hb : backoff (att + 1)
               = Z.min (Config.initialReconnectDelay Config.sseConfig * 2 ^ att)
                       (Config.maxReconnectDelay Config.sseConfig))
    by (unfold backoff; now replace (att + 1 - 1) with att by lia).
  unfold scheduleReconnect, setConnectionState, setTimeout, clearTimeout.
  destruct rt as [h |]; frozen; rewrite Hlt; destruct cs; frozen; eval_decide; frozen;
    rewrite Hb; repeat split; quiet_logs.
Qed.

Lemma scheduleReconnect_ge s :
  Config.maxReconnectAttempts Config.sseConfig <= reconnectAttempts s ->
  let s' := scheduleReconnect s in
  core s' = core s
  /\ ctl s' = (isManualClose s, reconnectAttempts s, reconnectTimeout s,
              match reconnectTimeout s with
              | Some h => List.filter (fun p => negb (Nat.eqb (fst p) h)) (timers s)
              | None => timers s
              end,
              nextHandle s)
  /\ obs s' = obs s
  /\ heartbeatTimeout s' = heartbeatTimeout s
  /\ connectionState s' = ERROR.
Proof.
  intros Hge. apply Z.leb_le in Hge.
  destruct s as [es subs att rt ht man cs ls lh srcs tms ivs nh clk lg].
  cbn [reconnectAttempts] in Hge.
  unfold scheduleReconnect, setConnectionState, clearTimeout.
  destruct rt as [h |]; frozen; rewrite Hge; destruct cs; frozen; eval_decide; frozen;
    repeat split; quiet_logs.
Qed.

Lemma disconnect_fields s :
  let s' := disconnect s in
  ctl s' = (false, reconnectAttempts s, None,
            match reconnectTimeout s with
            | Some h => List.filter (fun p => negb (Nat.eqb (fst p) h)) (timers s)
            | None => timers s
            end,
            nextHandle s)
  /\ obs s' = obs s
  /\ heartbeatTimeout s' = None
  /\ connectionState s' = DISCONNECTED.
Proof.
  destruct s as [es subs att rt ht man cs ls lh srcs tms ivs nh clk lg].
  unfold disconnect, stopHeartbeat, setConnectionState, clearTimeout.
  destruct rt as [h |], ht as [i |], es as [j |], cs;
    lazy -[app map List.filter scheduledDelays invoked alter];
    repeat split; quiet_logs.
Qed.

Lemma connect_fields s :
  let s' := connect s in
  ctl s' = ctl s /\ obs s' = obs s /\ heartbeatTimeout s' = heartbeatTimeout s
  /\ connectionState s'
     = if live s then connectionState s
       else match subscriptions s with
            | [] => connectionState s
            | _ => CONNECTING
            end.
Proof.
  cbv zeta. unfold connect.
  destruct (live s); [repeat split |].
  destruct s as [es subs att rt ht man cs ls lh srcs tms ivs nh clk lg].
  destruct subs as [| sub subs]; [repeat split |].
  unfold setConnectionState.
  destruct cs; frozen; eval_decide; frozen; repeat split; quiet_logs.
Qed.

Lemma currentReadyState_core s s' :
  core s' = core s -> currentReadyState s' = currentReadyState s.
Proof.
  intros H. destruct (core_eq _ _ _ _ H) as (He & Hs & _).
  unfold currentReadyState. now rewrite He, Hs.
Qed.

Lemma currentReadyState_source s rs :
  currentReadyState s = Some rs -> exists i, eventSource s = Some i.
Proof. unfold currentReadyState. destruct (eventSource s); [eauto | discriminate]. Qed.

Lemma currentReadyState_setReadyState s i rs0 rs :
  eventSource s = Some i -> currentReadyState s = Some rs0 ->
  currentReadyState (setReadyState i rs s) = Some rs.
Proof.
  unfold currentReadyState. cbn [setReadyState set_sources eventSource sources].
  intros -> H. rewrite list_lookup_alter_eq.
  destruct (sources s !! i); [reflexivity | discriminate].
Qed.

(** An error that leaves the source closed, on a manager that did not close
    it itself, ends in [scheduleReconnect]. *)
Lemma step_error_closed s i rs fatal :
  eventSource s = Some i -> currentReadyState s = Some rs ->
  afterError fatal rs = ES_CLOSED -> isManualClose s = false ->
  exists s1,
    step (EsError fatal) s = scheduleReconnect s1
    /\ core s1 = core (setReadyState i ES_CLOSED s)
    /\ currentReadyState s1 = Some ES_CLOSED
    /\ ctl s1 = ctl s /\ obs s1 = obs s
    /\ heartbeatTimeout s1 = None /\ connectionState s1 = ERROR.
Proof.
  intros He Hrs Hafter Hman.
  cbn [step]. rewrite He, Hrs, Hafter.
  set (s0 := setReadyState i ES_CLOSED s).
  destruct (quiet_state ERROR s0) as (Hcore & Hctl & Hobs & Hhb & Hst).
  cbv zeta in Hcore, Hctl, Hobs, Hhb, Hst.
  assert (Hcur : currentReadyState (stopHeartbeat (setConnectionState ERROR s0))
                 = Some ES_CLOSED).
  { rewrite (currentReadyState_core _ _ Hcore).
    exact (currentReadyState_setReadyState s i rs ES_CLOSED He Hrs). }
  assert (Hm : isManualClose (stopHeartbeat (setConnectionState ERROR s0)) = false).
  { destruct (ctl_eq _ _ _ _ _ _ Hctl) as (-> & _). exact Hman. }
  exists (stopHeartbeat (setConnectionState ERROR s0)).
  split.
  - unfold onerror. cbv zeta. rewrite Hcur, Hm.
    rewrite bool_decide_eq_true_2 by reflexivity. reflexivity.
  - repeat split; assumption.
Qed.

Lemma filter_timers_nil (rt : option nat) :
  match rt with
  | Some h => List.filter (fun p : nat * Z => negb (Nat.eqb (fst p) h)) []
  | None => []
  end = [].
Proof. destruct rt; reflexivity. Qed.















(** The run of the specification, computed: one subscription, then twelve
    errors. *)
Example twelve_errors :
  let s' := Nat.iter 12 errorRound (subscribe "session:1" cbA (new_SSEManager 0)) in
  scheduledDelays (log s')
  = [1000; 2000; 4000; 8000; 16000; 30000; 30000; 30000; 30000; 30000]
  /\ connectionState s' = ERROR /\ reconnectAttempts s' = 10
  /\ length (sources s') = 11%nat /\ openSources s' = [].
Proof. vm_compute. repeat split. Qed.

(** An error after which the browser itself keeps the connection going
    leaves reconnection to the browser: nothing is scheduled. *)
Example error_left_to_the_browser :
  let s := subscribe "session:1" cbA (new_SSEManager 0) in
  let s' := step (EsError false) s in
  scheduledDelays (log s') = [] /\ connectionState s' = ERROR
  /\ currentReadyState s' = Some ES_CONNECTING.
Proof. vm_compute. repeat split. Qed.

End ReconnectSpec.

(** *** Errors built from responses *)

Module ErrorsMoreSpec.
Import Config Errors ErrorsJson ErrorsNotions ErrorsSpec ErrorsMoreNotions.

Lemma or_json_string (m : string) (b : option Js.Json) :
  m <> "" -> Js.or_json (Some (Js.JString m)) b = Some (Js.JString m).
Proof.
  intros Hm. unfold Js.or_json, Js.json_truthy.
  destruct (String.eqb_spec m ""); [contradiction | reflexivity].
Qed.

(** The message chosen among strings is a string that is not empty. *)
Lemma messageOf_strings (r : Response) :
  stringOrMissing (Js.prop (errorDataOf r) "message") ->
  stringOrMissing (Js.prop (errorDataOf r) "detail") ->
  exists msg, messageOf r = Some (Js.JString msg) /\ msg <> "".
Proof.
  unfold messageOf, Js.or_json, Js.json_truthy, stringOrMissing.
  intros Hm Hd.
  destruct (Js.prop (errorDataOf r) "message") as [[| | | m | |] |]; try contradiction;
    destruct (Js.prop (errorDataOf r) "detail") as [[| | | d | |] |]; try contradiction;
    repeat match goal with
           | |- context [String.eqb ?a ""] => destruct (String.eqb_spec a ""); cbn [negb]
           end; eexists; (split; [reflexivity |]); try assumption; discriminate.
Qed.

(** X1: an error that [parseErrorResponse] returns carries the status of the
    response, whatever class it is given.  Its message is the [message] of
    the body when that is a string that is not empty, and the fixed text for
    unknown errors when neither the body nor the status text offers one; it
    is never empty when [message] and [detail] are strings or missing, and
    then an error is always returned, unless the body is [null].  On a body
    that is [null] the function throws [TypeError]; so it does on a message
    that has no string, and a message that is an empty array gives an error
    whose message is empty. *)
Theorem parsed_error_keeps_status_and_has_message (r : Response) :
  let body := errorDataOf r in
  (forall e, parseErrorResponse r = Ok e ->
     statusCode e = status r
     /\ (forall m, Js.prop body "message" = Some (Js.JString m) -> m <> "" ->
           message e = m)
     /\ (stringOrMissing (Js.prop body "message") ->
         stringOrMissing (Js.prop body "detail") -> message e <> "")
     /\ (Js.json_truthy (Js.prop body "message") = false ->
         Js.json_truthy (Js.prop body "detail") = false -> statusText r = "" ->
         message e = ERROR_MESSAGES.UNKNOWN_ERROR))
  /\ (body = Js.JNull -> exists msg, parseErrorResponse r = Throw (ExTypeError msg))
  /\ (body <> Js.JNull ->
      stringOrMissing (Js.prop body "message") ->
      stringOrMissing (Js.prop body "detail") ->
      exists e, parseErrorResponse r = Ok e)
  /\ parseErrorResponse (messageIsArray 404) = Ok (NotFoundError "")
  /\ (exists msg, parseErrorResponse (messageHasToString 404) = Throw (ExTypeError msg)).
Proof.
  cbv zeta. split; [| split; [| split; [| split]]].
  - intros e (Hnn & msg & Hmsg & ->)%parseErrorResponse_Ok.
    rewrite statusCode_classified, message_classified.
    split; [reflexivity |]. split; [| split].
    + intros m Hm Hne. unfold messageOf in Hmsg. rewrite Hm in Hmsg.
      rewrite or_json_string in Hmsg by exact Hne. now injection Hmsg as <-.
    + intros Hm Hd. destruct (messageOf_strings r Hm Hd) as (msg' & H1 & H2).
      rewrite H1 in Hmsg. now injection Hmsg as <-.
    + intros Hm Hd Hst. unfold messageOf, Js.or_json in Hmsg.
      rewrite Hm, Hd, Hst in Hmsg. now injection Hmsg as <-.
  - intros Hnull. rewrite parseErrorResponse_eq, Hnull. eauto.
  - intros Hnn Hm Hd. destruct (messageOf_strings r Hm Hd) as (msg & H1 & _).
    rewrite parseErrorResponse_eq, H1.
    destruct (errorDataOf r); try contradiction; eauto.
  - reflexivity.
  - eexists. reflexivity.
Qed.

(** X2: an error response that [parseErrorResponse] classifies is retried as
    such exactly when its status is 429, 500, 502, 503 or 504; every other
    status, the remaining [5xx] included, is final.  What the function
    throws on a body it cannot classify is a [TypeError], which
    [isRetryableError] rejects and which the [catch] of [makeRequest] takes
    for a failure of the network. *)
Theorem retried_exactly_429_and_the_four_5xx (r : Response) :
  (forall e, parseErrorResponse r = Ok e ->
     (isRetryableError (ExApi e) = true <-> In (status r) retriedStatuses))
  /\ (forall x, parseErrorResponse r = Throw x ->
        isRetryableError x = false /\ exn_name x = "TypeError").
Proof.
  split.
  - intros e (_ & msg & _ & ->)%parseErrorResponse_Ok.
    rewrite retryable_classified. unfold retriedStatus.
    rewrite existsb_exists. split.
    + intros (s & Hin & Heq). apply Z.eqb_eq in Heq. now subst s.
    + intros Hin. exists (status r). split; [exact Hin | apply Z.eqb_refl].
  - intros x ((msg & ->) & _)%parseErrorResponse_Throw. split; reflexivity.
Qed.

(** What [parseErrorResponse] reads back from the serialisation of an
    error. *)
Lemma field_asJson (j : ApiErrorResponse) :
  Js.field (asJson j) "message" = Some (Js.JString (r_message j))
  /\ Js.field (asJson j) "code" = Js.reparsed <$> r_code j
  /\ Js.field (asJson j) "detail" = Js.reparsed <$> r_detail j
  /\ Js.field (asJson j) "errors" = Js.reparsed <$> r_errors j.
Proof.
  destruct j as [m [c |] [d |] [er |] sc]; repeat split.
Qed.

(** X3: serialising an error that [parseErrorResponse] returned with
    [toJSON] and parsing it back from a response of the same status gives
    the same error, provided its message is not empty (an empty message
    does not survive: the status text takes its place), its [code], [detail]
    and [errors] hold no number that is not finite (such a number comes back
    as [null]), and the status is not 429, whose [retryAfter] travels in a
    header and not in the body. *)
Theorem toJSON_round_trip (r : Response) (e : ApiError) (st : string)
    (h : gmap string string) :
  parseErrorResponse r = Ok e ->
  status r <> 429 ->
  message e <> "" ->
  survives e ->
  parseErrorResponse (carrying e st h) = Ok e.
Proof.
  intros (_ & msg & _ & ->)%parseErrorResponse_Ok H429.
  rewrite message_classified. intros Hne (Sc & Sd & Se).
  destruct (field_asJson (toJSON (classified r msg))) as (Fm & Fc & Fd & Fe).
  cbn [toJSON r_message r_code r_detail r_errors] in Fm, Fc, Fd, Fe.
  rewrite message_classified in Fm. rewrite Sc in Fc. rewrite Sd in Fd. rewrite Se in Fe.
  assert (Hbody : errorDataOf (carrying (classified r msg) st h)
                  = Js.JObject (asJson (toJSON (classified r msg)))) by reflexivity.
  assert (Hmsg : messageOf (carrying (classified r msg) st h) = Some (Js.JString msg)).
  { unfold messageOf. rewrite Hbody. cbn [Js.prop]. rewrite Fm.
    now apply or_json_string. }
  rewrite parseErrorResponse_eq, Hbody, Hmsg. cbn [mbind option_bind Js.toString].
  f_equal.
  assert (Hst : status (carrying (classified r msg) st h) = status r)
    by (cbn [carrying objectBody status]; apply statusCode_classified).
  unfold classified at 1. rewrite Hst, Hbody. cbn [Js.prop]. rewrite Fc, Fd, Fe.
  destruct (decide (In (status r) [401; 403; 404; 422; 429; 502; 503; 504; 500]))
    as [Hin | Hout]; cbn [In] in *.
  - repeat (destruct Hin as [Hin | Hin];
            [try (symmetry in Hin; contradiction);
             unfold classified; rewrite <- Hin; reflexivity |]).
    contradiction.
  - unfold classified. status_consts.
    repeat match goal with
           | |- context [status r =? ?k] =>
               rewrite (proj2 (Z.eqb_neq (status r) k))
                 by (intros E; apply Hout; rewrite E; tauto)
           end.
    reflexivity.
Qed.

(** A 404 whose body names the reason. *)
Lemma toJSON_round_trip_witness :
  parseErrorResponse (carrying (NotFoundError "no such post") "" ∅)
  = Ok (NotFoundError "no such post").
Proof.
  apply (toJSON_round_trip notFound (NotFoundError "no such post") "" ∅).
  - reflexivity.
  - cbn. lia.
  - discriminate.
  - repeat split.
Defined.

(** An error whose message is empty comes back with the status text. *)
Example empty_message_is_not_restored :
  parseErrorResponse (messageIsArray 404) = Ok (NotFoundError "")
  /\ parseErrorResponse (carrying (NotFoundError "") "Not Found" ∅)
     = Ok (NotFoundError "Not Found").
Proof. split; reflexivity. Qed.

(** A [code] that is not finite comes back as [null]. *)
Example infinite_code_is_not_restored :
  parseErrorResponse codeIsInfinite
  = Ok (mkApiError "bad" 400 (Some (Js.JNumber "Infinity")) None None)
  /\ parseErrorResponse
       (carrying (mkApiError "bad" 400 (Some (Js.JNumber "Infinity")) None None) "" ∅)
     = Ok (mkApiError "bad" 400 (Some Js.JNull) None None).
Proof. split; reflexivity. Qed.

End ErrorsMoreSpec.

(** *** The retry loop *)

Module RetrySpec.
Import Errors Http ErrorsNotions ErrorsSpec HttpNotions HttpSpec ErrorsMoreNotions
  RetryNotions.

(** One attempt of the client and what follows it, read off [makeRequest]. *)
Lemma makeRequest_client_S cfg m srv url options fuel a w :
  let c := client cfg m in
  let t := timeoutOf c options in
  let n := attemptsOf c options in
  let landed (elapsed : Z) (effects : list Effect) := {|
    localStorage := meanwhile srv (fetches w) (localStorage w);
    clock := clock w + Z.max 0 elapsed;
    fetches := S (fetches w);
    trace := trace w ++ FxFetch url options t :: effects |} in
  let retry (w1 : World) :=
    makeRequest_from fuel c srv url options (a + 1)
      (snd (sleep (delayOf c options * 2 ^ (a - 1)) w1)) in
  makeRequest_from (S fuel) c srv url options a w
  = match answer srv (fetches w) url options with
    | Responds latency r =>
        if t <=? latency then
          if a <? n then retry (landed t [])
          else Some (Throw (ExApi TimeoutError), landed t [])
        else
          let w2 := emits (responseLog cfg) (landed latency [FxResponse (status r)]) in
          if ok r then Some (Ok r, w2)
          else
            match parseErrorResponse r with
            | Ok e =>
                if retriedStatus (status r) && (a <? n) then retry w2
                else Some (Throw (ExApi e), afterErrorInterceptors e w2)
            | Throw _ =>
                if a <? n then retry w2
                else Some (Throw (ExApi NetworkError), w2)
            end
    | NetworkFailure latency =>
        if t <=? latency then
          if a <? n then retry (landed t [])
          else Some (Throw (ExApi TimeoutError), landed t [])
        else
          if a <? n then retry (landed latency [])
          else Some (Throw (ExApi NetworkError), landed latency [])
    end.
Proof.
  cbv zeta. rewrite makeRequest_from_S, attemptBody_client. cbv zeta.
  unfold fetch.
  destruct (answer srv (fetches w) url options) as [latency r | latency];
    destruct (timeoutOf (client cfg m) options <=? latency); cbn [exn_name isTypeError];
    try reflexivity.
  destruct (ok r); [reflexivity |].
  destruct (parseErrorResponse r) as [e | x] eqn:Hp.
  - rewrite <- (parseErrorResponse_retryable _ _ Hp).
    destruct (isRetryableError (ExApi e) && (a <? attemptsOf (client cfg m) options));
      [reflexivity |].
    rewrite (parseErrorResponse_not_abort _ _ Hp). reflexivity.
  - destruct (parseErrorResponse_TypeError _ _ Hp) as [Ha Ht]. rewrite Ha, Ht.
    reflexivity.
Qed.

Lemma responseLog_silent cfg :
  fetchesOf (responseLog cfg) = [] /\ fetchTimeouts (responseLog cfg) = []
  /\ sleepsOf (responseLog cfg) = []
  /\ count isInterceptError (responseLog cfg) = 0%nat
  /\ count isRemoveItem (responseLog cfg) = 0%nat
  /\ count isLogout (responseLog cfg) = 0%nat.
Proof. unfold responseLog. destruct (Config.logRequests cfg); repeat split. Qed.

Lemma backoffFrom_S d a k :
  backoffFrom d a (S k) = d * 2 ^ (a - 1) :: backoffFrom d (a + 1) k.
Proof.
  unfold backoffFrom. cbn [seq map]. f_equal.
  - f_equal. f_equal. lia.
  - rewrite <- seq_shift, map_map. apply map_ext. intros i.
    f_equal. f_equal. lia.
Qed.

Section Laws.
Variables (cfg : Config.ApiConfig) (m : gmap string CacheEntry) (srv : Server)
          (url : string) (options : Opts.t).

Let c := client cfg m.
Let t := timeoutOf c options.
Let n := attemptsOf c options.
Let v (i : nat) := verdict srv t url options i.

(** The run stops with its first attempt. *)
Lemma Law_stop a w w' res tr :
  res = resultOf (v (fetches w)) ->
  (retried (v (fetches w)) = true -> n <= a) ->
  trace w' = trace w ++ tr ->
  fetchesOf tr = [(url, options)] ->
  fetchTimeouts tr = [t] ->
  sleepsOf tr = [] ->
  count isInterceptError tr
  = match v (fetches w) with VHttp _ _ => 1%nat | _ => 0%nat end ->
  (count isRemoveItem tr + count isLogout tr)%nat
  = match v (fetches w) with
    | VHttp r _ => if status r =? 401 then 3%nat else 0%nat
    | _ => 0%nat
    end ->
  fetches w' = S (fetches w) ->
  Law c srv url options a w w' res 0 tr.
Proof.
  intros Hres Hlast Htr Hf Ht Hs Hi Hst Hc.
  constructor; rewrite ?Nat.add_0_r; try assumption.
  - intros i Hi0. lia.
  - intros Hr. specialize (Hlast Hr). fold n. lia.
  - rewrite Hc. lia.
Qed.

(** The first attempt is retried, and the rest of the run follows. *)
Lemma Law_retry a w w1 w' res k pre tr :
  retried (v (fetches w)) = true ->
  a < n ->
  trace w1 = trace w ++ pre ->
  fetches w1 = S (fetches w) ->
  fetchesOf pre = [(url, options)] ->
  fetchTimeouts pre = [t] ->
  sleepsOf pre = [delayOf c options * 2 ^ (a - 1)] ->
  count isInterceptError pre = 0%nat ->
  count isRemoveItem pre = 0%nat ->
  count isLogout pre = 0%nat ->
  Law c srv url options (a + 1) w1 w' res k tr ->
  Law c srv url options a w w' res (S k) (pre ++ tr).
Proof.
  intros Hr Ha Htr Hc Hf Ht Hs Hi Hrm Hl [R RT L T F TO SL I ST C].
  rewrite Hc in *.
  assert (Hidx : forall j, (S (fetches w) + j = fetches w + S j)%nat) by (intros; lia).
  rewrite Hidx in *.
  constructor; try assumption.
  - intros i Hik. destruct i as [| j].
    + rewrite Nat.add_0_r. split; [exact Hr | fold n; lia].
    + destruct (RT j ltac:(lia)) as [Hrj Haj]. rewrite Hidx in Hrj.
      split; [exact Hrj | lia].
  - intros Hlast. specialize (L Hlast). lia.
  - rewrite T, Htr. now rewrite app_assoc.
  - unfold fetchesOf in *. rewrite omap_app, Hf, F. reflexivity.
  - unfold fetchTimeouts in *. rewrite omap_app, Ht, TO. reflexivity.
  - unfold sleepsOf in *. rewrite omap_app, Hs, SL. now rewrite backoffFrom_S.
  - rewrite count_app, Hi. exact I.
  - rewrite !count_app, Hrm, Hl. exact ST.
Qed.

Lemma makeRequest_from_law :
  forall fuel a w res w',
    makeRequest_from fuel c srv url options a w = Some (res, w') ->
    exists k tr, Law c srv url options a w w' res k tr.
Proof.
  destruct (responseLog_silent cfg) as (HLf & HLt & HLs & HLi & HLr & HLl).
  induction fuel as [| fuel IH]; intros a w res w' H; [discriminate H |].
  unfold c in H. rewrite makeRequest_client_S in H. cbv zeta in H.
  fold c t n in H.
  assert (Hv : v (fetches w) = verdict srv t url options (fetches w)) by reflexivity.
  unfold verdict in Hv.
  destruct (answer srv (fetches w) url options) as [latency r | latency];
    destruct (t <=? latency) eqn:Et.
  - (* no answer in time *)
    destruct (a <? n) eqn:Ea.
    + apply IH in H as (k & tr & HL). apply Z.ltb_lt in Ea.
      exists (S k), ([FxFetch url options t; FxSleep (delayOf c options * 2 ^ (a - 1))] ++ tr).
      eapply Law_retry; [| exact Ea | | | | | | | | | exact HL]; fold v;
        try (rewrite Hv); try reflexivity.
      cbn [trace sleep snd]. now rewrite <- app_assoc.
    + injection H as <- <-. apply Z.ltb_ge in Ea.
      exists 0%nat, [FxFetch url options t].
      apply Law_stop; fold v; rewrite ?Hv; try reflexivity. intros _. exact Ea.
  - (* a response *)
    destruct (ok r) eqn:Hok.
    + injection H as <- <-.
      exists 0%nat, ([FxFetch url options t; FxResponse (status r)] ++ responseLog cfg).
      apply Law_stop; fold v; rewrite ?Hv; try reflexivity; try discriminate.
      * cbn [trace emits]. now rewrite <- app_assoc.
      * unfold fetchesOf in *. now rewrite omap_app, HLf.
      * unfold fetchTimeouts in *. now rewrite omap_app, HLt.
      * unfold sleepsOf in *. now rewrite omap_app, HLs.
      * now rewrite count_app, HLi.
      * now rewrite !count_app, HLr, HLl.
    + destruct (parseErrorResponse r) as [e | x] eqn:Hp; cycle 1.
      { destruct (a <? n) eqn:Ea.
        - apply IH in H as (k & tr & HL). apply Z.ltb_lt in Ea.
          exists (S k), (([FxFetch url options t; FxResponse (status r)] ++ responseLog cfg
                          ++ [FxSleep (delayOf c options * 2 ^ (a - 1))]) ++ tr).
          eapply Law_retry; [| exact Ea | | | | | | | | | exact HL]; fold v;
            try (rewrite Hv); try reflexivity.
          + cbn [trace sleep snd emits]. now rewrite <- !app_assoc.
          + unfold fetchesOf in *. now rewrite !omap_app, HLf.
          + unfold fetchTimeouts in *. now rewrite !omap_app, HLt.
          + unfold sleepsOf in *. now rewrite !omap_app, HLs.
          + now rewrite !count_app, HLi.
          + now rewrite !count_app, HLr.
          + now rewrite !count_app, HLl.
        - injection H as <- <-. apply Z.ltb_ge in Ea.
          exists 0%nat, ([FxFetch url options t; FxResponse (status r)] ++ responseLog cfg).
          apply Law_stop; fold v; rewrite ?Hv; try reflexivity.
          + intros _. exact Ea.
          + cbn [trace emits]. now rewrite <- app_assoc.
          + unfold fetchesOf in *. now rewrite omap_app, HLf.
          + unfold fetchTimeouts in *. now rewrite omap_app, HLt.
          + unfold sleepsOf in *. now rewrite omap_app, HLs.
          + now rewrite count_app, HLi.
          + now rewrite !count_app, HLr, HLl. }
      destruct (retriedStatus (status r) && (a <? n)) eqn:Ere.
      * apply andb_true_iff in Ere as [Hre Ea]. apply Z.ltb_lt in Ea.
        apply IH in H as (k & tr & HL).
        exists (S k), (([FxFetch url options t; FxResponse (status r)] ++ responseLog cfg
                        ++ [FxSleep (delayOf c options * 2 ^ (a - 1))]) ++ tr).
        eapply Law_retry; [| exact Ea | | | | | | | | | exact HL]; fold v;
          try (rewrite Hv); try exact Hre; try reflexivity.
        -- cbn [trace sleep snd emits]. now rewrite <- !app_assoc.
        -- unfold fetchesOf in *. now rewrite !omap_app, HLf.
        -- unfold fetchTimeouts in *. now rewrite !omap_app, HLt.
        -- unfold sleepsOf in *. now rewrite !omap_app, HLs.
        -- now rewrite !count_app, HLi.
        -- now rewrite !count_app, HLr.
        -- now rewrite !count_app, HLl.
      * injection H as <- <-.
        unfold afterErrorInterceptors. rewrite (parseErrorResponse_401 _ _ Hp).
        assert (Hlast : retriedStatus (status r) = true -> n <= a).
        { intros Hre. rewrite Hre in Ere. cbn in Ere. now apply Z.ltb_ge in Ere. }
        destruct (status r =? 401) eqn:E401.
        -- exists 0%nat, ([FxFetch url options t; FxResponse (status r)] ++ responseLog cfg
                           ++ [FxInterceptError 0; FxRemoveItem AUTH_TOKEN;
                               FxRemoveItem USER_DATA; FxDispatch "auth:logout"]).
           apply Law_stop; fold v; rewrite ?Hv; try reflexivity; try exact Hlast.
           ++ cbn [trace emits]. now rewrite <- !app_assoc.
           ++ unfold fetchesOf in *. now rewrite !omap_app, HLf.
           ++ unfold fetchTimeouts in *. now rewrite !omap_app, HLt.
           ++ unfold sleepsOf in *. now rewrite !omap_app, HLs.
           ++ now rewrite !count_app, HLi.
           ++ rewrite !count_app, HLr, HLl, E401. reflexivity.
        -- exists 0%nat, ([FxFetch url options t; FxResponse (status r)] ++ responseLog cfg
                           ++ [FxInterceptError 0]).
           apply Law_stop; fold v; rewrite ?Hv; try reflexivity; try exact Hlast.
           ++ cbn [trace emits]. now rewrite <- !app_assoc.
           ++ unfold fetchesOf in *. now rewrite !omap_app, HLf.
           ++ unfold fetchTimeouts in *. now rewrite !omap_app, HLt.
           ++ unfold sleepsOf in *. now rewrite !omap_app, HLs.
           ++ now rewrite !count_app, HLi.
           ++ rewrite !count_app, HLr, HLl, E401. reflexivity.
  - (* the network failed after the caller gave up *)
    destruct (a <? n) eqn:Ea.
    + apply IH in H as (k & tr & HL). apply Z.ltb_lt in Ea.
      exists (S k), ([FxFetch url options t; FxSleep (delayOf c options * 2 ^ (a - 1))] ++ tr).
      eapply Law_retry; [| exact Ea | | | | | | | | | exact HL]; fold v;
        try (rewrite Hv); try reflexivity.
      cbn [trace sleep snd]. now rewrite <- app_assoc.
    + injection H as <- <-. apply Z.ltb_ge in Ea.
      exists 0%nat, [FxFetch url options t].
      apply Law_stop; fold v; rewrite ?Hv; try reflexivity. intros _. exact Ea.
  - (* the network failed *)
    destruct (a <? n) eqn:Ea.
    + apply IH in H as (k & tr & HL). apply Z.ltb_lt in Ea.
      exists (S k), ([FxFetch url options t; FxSleep (delayOf c options * 2 ^ (a - 1))] ++ tr).
      eapply Law_retry; [| exact Ea | | | | | | | | | exact HL]; fold v;
        try (rewrite Hv); try reflexivity.
      cbn [trace sleep snd]. now rewrite <- app_assoc.
    + injection H as <- <-. apply Z.ltb_ge in Ea.
      exists 0%nat, [FxFetch url options t].
      apply Law_stop; fold v; rewrite ?Hv; try reflexivity. intros _. exact Ea.
Qed.

Lemma makeRequest_law w :
  exists res w' k tr,
    makeRequest c srv url options w = Some (res, w')
    /\ Law c srv url options 1 w w' res k tr.
Proof.
  destruct (makeRequest_total c srv url options w) as (res & w' & H).
  exists res, w'. unfold makeRequest in H.
  destruct (makeRequest_from_law _ _ _ _ _ H) as (k & tr & HL).
  exists k, tr. split; [exact H | exact HL].
Qed.

End Laws.


Lemma length_repeat_eq {A} (x : A) (k : nat) : length (repeat x k) = k.
Proof. apply repeat_length. Qed.






(** X6: a call that gets no response at all (every attempt times out or
    fails in the network) never runs the error interceptors: nothing is
    removed from [localStorage] and no logout is broadcast; it fails with
    [TimeoutError] or [NetworkError], according to its last attempt. *)
Theorem no_response_no_error_interceptor cfg m srv url options w :
  let c := client cfg m in
  (forall i, match verdict srv (timeoutOf c options) url options i with
             | VTimeout | VNetwork => True
             | _ => False
             end) ->
  exists e w' tr,
    makeRequest c srv url options w = Some (Throw (ExApi e), w')
    /\ (e = TimeoutError \/ e = NetworkError)
    /\ trace w' = trace w ++ tr
    /\ Z.of_nat (length (fetchesOf tr)) = budget c options
    /\ count isInterceptError tr = 0%nat
    /\ count isRemoveItem tr = 0%nat
    /\ count isLogout tr = 0%nat.
Proof.
  cbv zeta. intros Hall.
  destruct (makeRequest_law cfg m srv url options w) as (res & w' & k & tr & Hmk & HL).
  destruct HL as [R RT L T F TO SL I ST C].
  assert (Hretried : forall i,
            retried (verdict srv (timeoutOf (client cfg m) options) url options i) = true).
  { intros i. specialize (Hall i).
    destruct (verdict srv (timeoutOf (client cfg m) options) url options i);
      [contradiction | contradiction | contradiction | reflexivity | reflexivity]. }
  specialize (L (Hretried _)).
  assert (Hk : Z.of_nat (S k) = budget (client cfg m) options).
  { unfold budget. destruct k as [| k]; [lia |].
    destruct (RT k ltac:(lia)) as [_ Hlt]. lia. }
  specialize (Hall (fetches w + k)%nat).
  destruct (verdict srv (timeoutOf (client cfg m) options) url options (fetches w + k))
    as [r | r e | r | |]; try contradiction; cbn in R; subst res.
  - exists TimeoutError, w', tr. rewrite F, length_repeat_eq.
    repeat split; try assumption; try lia. now left.
  - exists NetworkError, w', tr. rewrite F, length_repeat_eq.
    repeat split; try assumption; try lia. now right.
Qed.

(** A server that takes a minute to answer, against the timeout of 30 s. *)
Lemma no_response_no_error_interceptor_witness :
  exists e w' tr,
    makeRequest (client (Config.defaultApiConfig false) ∅) serverSilent
      "http://localhost:8000/x" retry3 freshWorld = Some (Throw (ExApi e), w')
    /\ (e = TimeoutError \/ e = NetworkError)
    /\ trace w' = trace freshWorld ++ tr
    /\ Z.of_nat (length (fetchesOf tr)) = 3
    /\ count isInterceptError tr = 0%nat
    /\ count isRemoveItem tr = 0%nat
    /\ count isLogout tr = 0%nat.
Proof.
  apply (no_response_no_error_interceptor (Config.defaultApiConfig false) ∅ serverSilent
           "http://localhost:8000/x" retry3 freshWorld).
  intros i. exact I.
Defined.

(** X7: of the three per-request settings only [retryAttempts] can be set
    to zero.  With [retryAttempts: 0] the call makes a single attempt
    whatever happens to it; a [timeout] of [0] and a [retryDelay] of [0] are
    taken for missing, and the configured values are used. *)
Theorem zero_is_kept_for_attempts_only cfg m srv url options w :
  let c := client cfg m in
  exists res w' k tr,
    makeRequest c srv url options w = Some (res, w')
    /\ trace w' = trace w ++ tr
    /\ length (fetchesOf tr) = S k
    /\ (forall z, Opts.retryAttempts options = Some z -> z <= 1 -> k = 0%nat)
    /\ (Opts.timeout options = Some 0 ->
        fetchTimeouts tr = repeat (Config.timeout cfg) (S k))
    /\ (Opts.retryDelay options = Some 0 ->
        sleepsOf tr = backoffFrom (Config.retryDelay cfg) 1 k).
Proof.
  cbv zeta.
  destruct (makeRequest_law cfg m srv url options w) as (res & w' & k & tr & Hmk & HL).
  destruct HL as [R RT L T F TO SL I ST C].
  exists res, w', k, tr. split; [exact Hmk |]. split; [exact T |].
  split; [now rewrite F, length_repeat_eq |].
  split; [| split].
  - intros z Hz Hle. destruct k as [| k]; [reflexivity |].
    destruct (RT 0%nat ltac:(lia)) as [_ Hlt].
    unfold attemptsOf in Hlt. rewrite Hz in Hlt. cbn in Hlt. lia.
  - intros Hz. rewrite TO. unfold timeoutOf. now rewrite Hz.
  - intros Hz. rewrite SL. unfold delayOf. now rewrite Hz.
Qed.

End RetrySpec.

(** *** The response cache and the calls that go around it *)

Module CacheSpec.
Import Errors Http HttpVerbs HttpNotions HttpSpec RetryNotions RetrySpec CacheNotions.

Lemma cacheable_client cfg m options st :
  cacheable (client cfg m) (authorize st (withDefaultHeaders options))
  = cacheable (new_HttpClient cfg) options.
Proof. unfold authorize. destruct (_ && _); reflexivity. Qed.

Lemma cacheKeyOf_authorize url options st :
  cacheKeyOf url (authorize st (withDefaultHeaders options)) = cacheKeyOf url options.
Proof. unfold authorize. destruct (_ && _); reflexivity. Qed.

Lemma cacheTTL_authorize options st :
  Opts.cacheTTL (authorize st (withDefaultHeaders options)) = Opts.cacheTTL options.
Proof. unfold authorize. destruct (_ && _); reflexivity. Qed.

(** [request] on the client, step by step. *)
Lemma request_client_eq cfg m srv endpoint options w :
  let url := resolveUrl (new_HttpClient cfg) endpoint in
  let ro := authorize (localStorage w) (withDefaultHeaders options) in
  let w1 := emits (requestLog cfg url ro) w in
  let hit := lookUp cfg m endpoint options (clock w) in
  request (client cfg m) srv endpoint options w
  = if cacheable (new_HttpClient cfg) options && Js.truthy (fst hit)
    then Some (Ok (fst hit), client cfg (snd hit), w1)
    else
      match makeRequest (client cfg (snd hit)) srv url ro w1 with
      | None => None
      | Some (Throw x, w2) => Some (Throw x, client cfg (snd hit), w2)
      | Some (Ok response, w2) =>
          match fst (parseResponse response w2) with
          | Throw x => Some (Throw x, client cfg (snd hit), w2)
          | Ok d =>
              Some (Ok d,
                    client cfg
                      (if cacheable (new_HttpClient cfg) options
                       then cacheResponse (snd hit) (keyOf cfg endpoint options) d
                              (ttlOf cfg options) (clock w2)
                       else snd hit),
                    w2)
          end
      end.
Proof.
  cbv zeta. unfold request. rewrite runRequestInterceptors_client.
  rewrite cacheable_client, cacheKeyOf_authorize, cacheTTL_authorize.
  change (resolveUrl (client cfg m) endpoint) with (resolveUrl (new_HttpClient cfg) endpoint).
  unfold lookUp, keyOf.
  cbn [cache client set_cache emits clock config new_HttpClient].
  set (url := resolveUrl (new_HttpClient cfg) endpoint).
  set (ro := authorize (localStorage w) (withDefaultHeaders options)).
  set (w1 := emits (requestLog cfg url ro) w).
  destruct (cacheable (new_HttpClient cfg) options) eqn:Ec.
  - destruct (getCachedResponse m (cacheKeyOf url options) (clock w)) as [cached cache1].
    cbn [fst snd andb].
    destruct (Js.truthy cached); [reflexivity |].
    change (set_cache (client cfg m) cache1) with (client cfg cache1).
    destruct (makeRequest (client cfg cache1) srv url ro w1) as [[[response | x] w2] |];
      try reflexivity.
    pose proof (parseResponse_world response w2) as Hw.
    destruct (parseResponse response w2) as [[d | x] w3]; cbn in Hw; subst w3; reflexivity.
  - cbn [fst snd andb].
    change (set_cache (client cfg m) m) with (client cfg m).
    destruct (makeRequest (client cfg m) srv url ro w1) as [[[response | x] w2] |];
      try reflexivity.
    pose proof (parseResponse_world response w2) as Hw.
    destruct (parseResponse response w2) as [[d | x] w3]; cbn in Hw; subst w3; reflexivity.
Qed.

Lemma request_client_outcome cfg m srv endpoint options w :
  exists res mc w',
    request (client cfg m) srv endpoint options w = Some (res, client cfg mc, w')
    /\ Outcome_of cfg m endpoint options w res mc w'.
Proof.
  rewrite request_client_eq. cbv zeta.
  set (url := resolveUrl (new_HttpClient cfg) endpoint).
  set (ro := authorize (localStorage w) (withDefaultHeaders options)).
  set (w1 := emits (requestLog cfg url ro) w).
  set (hit := lookUp cfg m endpoint options (clock w)).
  destruct (cacheable (new_HttpClient cfg) options && Js.truthy (fst hit)) eqn:Ehit.
  - apply andb_true_iff in Ehit as [Ec Et].
    eexists _, _, _. split; [reflexivity |]. now constructor.
  - destruct (makeRequest_law cfg (snd hit) srv url ro w1)
      as (res & w2 & k & tr & Hmk & HL).
    rewrite Hmk.
    assert (Hlt : (fetches w < fetches w2)%nat).
    { rewrite (law_count _ _ _ _ _ _ _ _ _ _ HL). cbn. lia. }
    destruct res as [response | x].
    + destruct (fst (parseResponse response w2)) as [d | x].
      * eexists _, _, _. split; [reflexivity |]. now constructor.
      * eexists _, _, _. split; [reflexivity |]. now constructor.
    + eexists _, _, _. split; [reflexivity |]. now constructor.
Qed.

Lemma lookUp_uncacheable cfg m endpoint options now :
  cacheable (new_HttpClient cfg) options = false ->
  lookUp cfg m endpoint options now = (Js.DNull, m).
Proof. unfold lookUp. now intros ->. Qed.

Lemma request_uncacheable cfg m srv endpoint options w :
  cacheable (new_HttpClient cfg) options = false ->
  exists res w',
    request (client cfg m) srv endpoint options w = Some (res, client cfg m, w')
    /\ (fetches w < fetches w')%nat.
Proof.
  intros Hc.
  destruct (request_client_outcome cfg m srv endpoint options w)
    as (res & mc & w' & Hreq & Hout).
  exists res, w'. rewrite Hreq.
  destruct Hout as [w' Hc' _ _ _ _ | x w' _ Hlt | d w' _ Hlt].
  - congruence.
  - rewrite lookUp_uncacheable by exact Hc. auto.
  - rewrite Hc, lookUp_uncacheable by exact Hc. auto.
Qed.

Lemma uncacheable_method cfg options mth b :
  mth <> "GET" -> mth <> "" ->
  cacheable (new_HttpClient cfg) (with_method_body options mth b) = false.
Proof.
  intros H1 H2. unfold cacheable, methodIsGet. cbn.
  apply String.eqb_neq in H1, H2. rewrite H1, H2. apply andb_false_r.
Qed.

(** X8: [post], [put], [patch] and [delete] never read the cache and never
    write it: each of them goes to the network, and the cache of the client
    is afterwards what it was, whatever it held and however the call
    ended. *)
Theorem write_verbs_bypass_the_cache JSON_stringify cfg m srv endpoint data options w :
  (exists res w',
     post JSON_stringify (client cfg m) srv endpoint data options w
     = Some (res, client cfg m, w')
     /\ (fetches w < fetches w')%nat)
  /\ (exists res w',
        put JSON_stringify (client cfg m) srv endpoint data options w
        = Some (res, client cfg m, w')
        /\ (fetches w < fetches w')%nat)
  /\ (exists res w',
        patch JSON_stringify (client cfg m) srv endpoint data options w
        = Some (res, client cfg m, w')
        /\ (fetches w < fetches w')%nat)
  /\ (exists res w',
        delete_request (client cfg m) srv endpoint options w
        = Some (res, client cfg m, w')
        /\ (fetches w < fetches w')%nat).
Proof.
  repeat split.
  - apply request_uncacheable, uncacheable_method; discriminate.
  - apply request_uncacheable, uncacheable_method; discriminate.
  - apply request_uncacheable, uncacheable_method; discriminate.
  - apply request_uncacheable.
    unfold cacheable, methodIsGet. cbn. apply andb_false_r.
Qed.

(** X9: a request made with [skipCache: true], or on a client whose cache
    is off, goes to the network even when a fresh answer is cached, and
    leaves the cache as it was; that is how [getOrchestratorSession] and
    [creationService.getSession] read a session. *)
Theorem skipCache_always_fetches cfg m srv endpoint options sessionId w :
  (exists res w',
     request (client cfg m) srv endpoint (skipping options) w
     = Some (res, client cfg m, w')
     /\ (fetches w < fetches w')%nat)
  /\ (exists res w',
        request (client (cacheOff cfg) m) srv endpoint options w
        = Some (res, client (cacheOff cfg) m, w')
        /\ (fetches w < fetches w')%nat)
  /\ (exists res w',
        Services.getOrchestratorSession (client cfg m) srv sessionId w
        = Some (res, client cfg m, w')
        /\ (fetches w < fetches w')%nat)
  /\ (exists res w',
        Services.getSession (client cfg m) srv sessionId w
        = Some (res, client cfg m, w')
        /\ (fetches w < fetches w')%nat).
Proof.
  repeat split.
  - apply request_uncacheable. unfold cacheable. cbn.
    destruct (Config.cacheEnabled cfg); reflexivity.
  - apply request_uncacheable. reflexivity.
  - apply request_uncacheable. unfold cacheable. cbn.
    destruct (Config.cacheEnabled cfg); reflexivity.
  - apply request_uncacheable. unfold cacheable. cbn.
    destruct (Config.cacheEnabled cfg); reflexivity.
Qed.

Lemma cacheable_GET cfg options :
  cacheable (new_HttpClient cfg) (GET options)
  = Config.cacheEnabled cfg && negb (Opts.skipCache options).
Proof. unfold cacheable, methodIsGet. cbn. apply andb_true_r. Qed.

Lemma lookUp_entry cfg m endpoint options now entry :
  cacheable (new_HttpClient cfg) options = true ->
  m !! keyOf cfg endpoint options = Some entry ->
  lookUp cfg m endpoint options now
  = if now - timestamp entry <=? ttl entry then (data entry, m)
    else (Js.DNull, delete (keyOf cfg endpoint options) m).
Proof.
  intros Hc Hm. unfold lookUp. rewrite Hc. now apply getCachedResponse_entry.
Qed.

Lemma lookUp_missing cfg m endpoint options now :
  m !! keyOf cfg endpoint options = None ->
  lookUp cfg m endpoint options now = (Js.DNull, m).
Proof.
  intros Hm. unfold lookUp, getCachedResponse. rewrite Hm.
  destruct (cacheable _ _); reflexivity.
Qed.

(** A request that finds nothing to serve goes to the network. *)
Lemma request_miss cfg m srv endpoint options w :
  Js.truthy (fst (lookUp cfg m endpoint options (clock w))) = false ->
  exists res mc w',
    request (client cfg m) srv endpoint options w = Some (res, client cfg mc, w')
    /\ (fetches w < fetches w')%nat
    /\ (forall x, res = Throw x -> mc = snd (lookUp cfg m endpoint options (clock w))).
Proof.
  intros Hmiss.
  destruct (request_client_outcome cfg m srv endpoint options w)
    as (res & mc & w' & Hreq & Hout).
  exists res, mc, w'. split; [exact Hreq |].
  destruct Hout as [w' _ Ht _ _ _ | x w' _ Hlt | d w' _ Hlt].
  - congruence.
  - split; [exact Hlt | reflexivity].
  - split; [exact Hlt | discriminate].
Qed.

(** X10: an answer that [get] fetched and that is not falsy comes back from
    the cache, without the network, for every [get] of the same endpoint
    made up to and including [ttl] milliseconds after it was stored,
    whatever the token in [localStorage] is by then; a [get] made later than
    that goes to the network again. *)
Theorem cached_get_round_trip cfg m srv endpoint options w d mc w1 :
  Config.cacheEnabled cfg = true -> Opts.skipCache options = false ->
  get (client cfg m) srv endpoint options w = Some (Ok d, client cfg mc, w1) ->
  (fetches w < fetches w1)%nat ->
  Js.truthy d = true ->
  forall srv' w2,
    (clock w2 - clock w1 <= ttlOf cfg options ->
     exists w3,
       get (client cfg mc) srv' endpoint options w2 = Some (Ok d, client cfg mc, w3)
       /\ fetches w3 = fetches w2 /\ clock w3 = clock w2)
    /\ (ttlOf cfg options < clock w2 - clock w1 ->
        exists res mc' w3,
          get (client cfg mc) srv' endpoint options w2 = Some (res, client cfg mc', w3)
          /\ (fetches w2 < fetches w3)%nat).
Proof.
  intros Hon Hskip Hget Hfetched Htruthy srv' w2.
  assert (Hc : cacheable (new_HttpClient cfg) (GET options) = true)
    by (rewrite cacheable_GET, Hon, Hskip; reflexivity).
  unfold get in *. fold (GET options) in *.
  destruct (request_client_outcome cfg m srv endpoint (GET options) w)
    as (res & mc0 & w' & Hreq & Hout).
  rewrite Hreq in Hget. injection Hget as -> -> ->.
  assert (Hentry : mc !! keyOf cfg endpoint (GET options)
                   = Some {| data := d; timestamp := clock w1;
                             ttl := ttlOf cfg options |}).
  { inversion Hout as [w' _ _ Hsame _ _ | | d' w' _ _ Hd Hmc Hw]; subst.
    - lia.
    - rewrite Hc. unfold cacheResponse. apply lookup_insert_eq. }
  pose proof (lookUp_entry cfg mc endpoint (GET options) (clock w2) _ Hc Hentry) as Hlook.
  cbn [timestamp ttl data] in Hlook.
  split; intros Hage.
  - rewrite request_client_eq. cbv zeta.
    apply Z.leb_le in Hage. rewrite Hlook, Hage. cbn [fst snd].
    rewrite Hc, Htruthy. cbn [andb].
    eexists. split; [reflexivity |]. split; reflexivity.
  - assert (Hmiss : Js.truthy (fst (lookUp cfg mc endpoint (GET options) (clock w2))) = false).
    { rewrite Hlook. destruct (clock w2 - clock w1 <=? ttlOf cfg options) eqn:E;
        [apply Z.leb_le in E; lia | reflexivity]. }
    destruct (request_miss cfg mc srv' endpoint (GET options) w2 Hmiss)
      as (res & mc' & w3 & Hreq2 & Hlt & _).
    eauto.
Qed.

(** The first [get] of [/x] answers an object 10 ms after the start; the
    second is made 500 ms later. *)
Lemma cached_get_round_trip_witness :
  (clock (at_time 510 (snd afterFirst)) - clock (snd afterFirst)
   <= ttlOf (Config.defaultApiConfig false) ttl1000 ->
   exists w3,
     get (client (Config.defaultApiConfig false) (fst afterFirst))
       (serverOf Js.DNull) "/x" ttl1000 (at_time 510 (snd afterFirst))
     = Some (Ok (Js.DObject "{}"),
             client (Config.defaultApiConfig false) (fst afterFirst), w3)
     /\ fetches w3 = fetches (at_time 510 (snd afterFirst))
     /\ clock w3 = clock (at_time 510 (snd afterFirst)))
  /\ (ttlOf (Config.defaultApiConfig false) ttl1000
      < clock (at_time 510 (snd afterFirst)) - clock (snd afterFirst) ->
      exists res mc' w3,
        get (client (Config.defaultApiConfig false) (fst afterFirst))
          (serverOf Js.DNull) "/x" ttl1000 (at_time 510 (snd afterFirst))
        = Some (res, client (Config.defaultApiConfig false) mc', w3)
        /\ (fetches (at_time 510 (snd afterFirst)) < fetches w3)%nat).
Proof.
  apply (cached_get_round_trip (Config.defaultApiConfig false) ∅
           (serverOf (Js.DObject "{}")) "/x" ttl1000 freshWorld (Js.DObject "{}")
           (fst afterFirst) (snd afterFirst)).
  - reflexivity.
  - reflexivity.
  - vm_compute. reflexivity.
  - vm_compute. lia.
  - reflexivity.
Defined.

Lemma length_append (s1 s2 : string) :
  String.length (s1 +:+ s2) = (String.length s1 + String.length s2)%nat.
Proof.
  induction s1 as [| a s1 IH]; [reflexivity |].
  change (S (String.length (s1 +:+ s2)) = S (String.length s1 + String.length s2)).
  now rewrite IH.
Qed.

Lemma keyOf_GET cfg endpoint options :
  keyOf cfg endpoint (GET options)
  = "GET" +:+ ":" +:+ (if String.prefix "http" endpoint then endpoint
                       else Config.baseURL cfg +:+ endpoint).
Proof. reflexivity. Qed.

Lemma cache_clearCacheEntry cfg m endpoint method :
  clearCacheEntry (client cfg m) endpoint method
  = client cfg (delete (method +:+ ":" +:+ Config.baseURL cfg +:+ endpoint) m).
Proof. reflexivity. Qed.

(** X11: [clearCacheEntry(endpoint)] removes the entry that [get(endpoint)]
    reads, for an endpoint given relative to the base URL, and no other
    entry: the next [get] of that endpoint goes to the network.
    [clearCache()] does so for every endpoint. *)
Theorem clearCacheEntry_forces_a_fetch cfg m srv endpoint options w :
  String.prefix "http" endpoint = false ->
  (exists res mc w',
     get (clearCacheEntry (client cfg m) endpoint "GET") srv endpoint options w
     = Some (res, client cfg mc, w')
     /\ (fetches w < fetches w')%nat)
  /\ (forall k, k <> keyOf cfg endpoint (GET options) ->
        cache (clearCacheEntry (client cfg m) endpoint "GET") !! k = m !! k)
  /\ (forall endpoint',
      exists res mc w',
        get (clearCache (client cfg m)) srv endpoint' options w
        = Some (res, client cfg mc, w')
        /\ (fetches w < fetches w')%nat).
Proof.
  intros Hrel. rewrite cache_clearCacheEntry.
  assert (Hkey : keyOf cfg endpoint (GET options)
                 = "GET" +:+ ":" +:+ Config.baseURL cfg +:+ endpoint)
    by (rewrite keyOf_GET, Hrel; reflexivity).
  split; [| split].
  - destruct (request_miss cfg (delete ("GET" +:+ ":" +:+ Config.baseURL cfg +:+ endpoint) m)
                srv endpoint (GET options) w) as (res & mc & w' & Hreq & Hlt & _).
    + rewrite lookUp_missing; [reflexivity |]. rewrite Hkey. apply lookup_delete_eq.
    + exists res, mc, w'. split; [exact Hreq | exact Hlt].
  - intros k Hk. cbn [cache client set_cache]. rewrite Hkey in Hk.
    apply lookup_delete_ne. congruence.
  - intros endpoint'.
    destruct (request_miss cfg ∅ srv endpoint' (GET options) w) as (res & mc & w' & Hreq & Hlt & _).
    + rewrite lookUp_missing; [reflexivity | apply lookup_empty].
    + exists res, mc, w'. split; [exact Hreq | exact Hlt].
Qed.

(** The list of influencers. *)
Lemma clearCacheEntry_forces_a_fetch_witness :
  (exists res mc w',
     get (clearCacheEntry (client (Config.defaultApiConfig false) cdnCache)
            ENDPOINTS.INFLUENCERS "GET")
       (serverOf Js.DNull) ENDPOINTS.INFLUENCERS Opts.empty freshWorld
     = Some (res, client (Config.defaultApiConfig false) mc, w')
     /\ (fetches freshWorld < fetches w')%nat)
  /\ (forall k, k <> keyOf (Config.defaultApiConfig false) ENDPOINTS.INFLUENCERS
                       (GET Opts.empty) ->
        cache (clearCacheEntry (client (Config.defaultApiConfig false) cdnCache)
                 ENDPOINTS.INFLUENCERS "GET") !! k = cdnCache !! k)
  /\ (forall endpoint',
      exists res mc w',
        get (clearCache (client (Config.defaultApiConfig false) cdnCache))
          (serverOf Js.DNull) endpoint' Opts.empty freshWorld
        = Some (res, client (Config.defaultApiConfig false) mc, w')
        /\ (fetches freshWorld < fetches w')%nat).
Proof.
  apply (clearCacheEntry_forces_a_fetch (Config.defaultApiConfig false) cdnCache
           (serverOf Js.DNull) ENDPOINTS.INFLUENCERS Opts.empty freshWorld).
  reflexivity.
Defined.

(** X12: for an endpoint given as an absolute URL, which [request] uses as
    it is, [clearCacheEntry] computes another key (the base URL followed by
    the endpoint) and the entry stays: a fresh answer is still served from
    the cache after it. *)
Theorem clearCacheEntry_misses_absolute_urls cfg m srv endpoint options w entry :
  String.prefix "http" endpoint = true ->
  Config.baseURL cfg <> "" ->
  Config.cacheEnabled cfg = true -> Opts.skipCache options = false ->
  m !! keyOf cfg endpoint (GET options) = Some entry ->
  clock w - timestamp entry <= ttl entry ->
  Js.truthy (data entry) = true ->
  cache (clearCacheEntry (client cfg m) endpoint "GET") !! keyOf cfg endpoint (GET options)
  = Some entry
  /\ exists w',
       get (clearCacheEntry (client cfg m) endpoint "GET") srv endpoint options w
       = Some (Ok (data entry), clearCacheEntry (client cfg m) endpoint "GET", w')
       /\ fetches w' = fetches w.
Proof.
  intros Habs Hbase Hon Hskip Hm Hfresh Htruthy.
  rewrite cache_clearCacheEntry. cbn [cache client set_cache].
  assert (Hne : "GET" +:+ ":" +:+ Config.baseURL cfg +:+ endpoint
                <> keyOf cfg endpoint (GET options)).
  { rewrite keyOf_GET, Habs. intros Heq.
    apply (f_equal String.length) in Heq. rewrite !length_append in Heq.
    destruct (Config.baseURL cfg) as [| a b]; [contradiction | cbn in Heq; lia]. }
  assert (Hkept : delete ("GET" +:+ ":" +:+ Config.baseURL cfg +:+ endpoint) m
                    !! keyOf cfg endpoint (GET options) = Some entry)
    by (rewrite lookup_delete_ne by exact Hne; exact Hm).
  split; [exact Hkept |].
  assert (Hc : cacheable (new_HttpClient cfg) (GET options) = true)
    by (rewrite cacheable_GET, Hon, Hskip; reflexivity).
  unfold get. fold (GET options). rewrite request_client_eq. cbv zeta.
  rewrite (lookUp_entry _ _ _ _ _ _ Hc Hkept).
  apply Z.leb_le in Hfresh. rewrite Hfresh. cbn [fst snd]. rewrite Hc, Htruthy. cbn [andb].
  eexists. split; reflexivity.
Qed.

(** An answer for [http://cdn.example/a], cached at time 0 for a second. *)
Lemma clearCacheEntry_misses_absolute_urls_witness :
  cache (clearCacheEntry (client (Config.defaultApiConfig false) cdnCache)
           "http://cdn.example/a" "GET")
    !! keyOf (Config.defaultApiConfig false) "http://cdn.example/a" (GET Opts.empty)
  = Some {| data := Js.DObject "{}"; timestamp := 0; ttl := 1000 |}
  /\ exists w',
       get (clearCacheEntry (client (Config.defaultApiConfig false) cdnCache)
              "http://cdn.example/a" "GET")
         (serverOf Js.DNull) "http://cdn.example/a" Opts.empty freshWorld
       = Some (Ok (data {| data := Js.DObject "{}"; timestamp := 0; ttl := 1000 |}),
               clearCacheEntry (client (Config.defaultApiConfig false) cdnCache)
                 "http://cdn.example/a" "GET", w')
       /\ fetches w' = fetches freshWorld.
Proof.
  apply (clearCacheEntry_misses_absolute_urls (Config.defaultApiConfig false) cdnCache
           (serverOf Js.DNull) "http://cdn.example/a" Opts.empty freshWorld).
  - reflexivity.
  - discriminate.
  - reflexivity.
  - reflexivity.
  - vm_compute. reflexivity.
  - vm_compute. discriminate.
  - reflexivity.
Defined.

(** X13: a [request] changes the cache at its own key at most.  When it
    fails, the entry under that key is the one that was there, or none if
    that one had expired and the request was one that consults the cache (a
    [GET] without [skipCache] on a client with the cache enabled); an entry
    is written only for an answer that was fetched and parsed, and it records
    the payload, the time and the [cacheTTL] of the request. *)
Theorem request_touches_its_own_key_only cfg m srv endpoint options w :
  exists res mc w',
    request (client cfg m) srv endpoint options w = Some (res, client cfg mc, w')
    /\ (forall k, k <> keyOf cfg endpoint options -> mc !! k = m !! k)
    /\ (forall x, res = Throw x ->
          mc !! keyOf cfg endpoint options
          = match m !! keyOf cfg endpoint options with
            | Some e =>
                if cacheable (new_HttpClient cfg) options
                   && (ttl e <? clock w - timestamp e)
                then None
                else Some e
            | None => None
            end)
    /\ (forall e, mc !! keyOf cfg endpoint options = Some e ->
          m !! keyOf cfg endpoint options = Some e
          \/ (res = Ok (data e) /\ timestamp e = clock w' /\ ttl e = ttlOf cfg options
              /\ (fetches w < fetches w')%nat)).
Proof.
  destruct (request_client_outcome cfg m srv endpoint options w)
    as (res & mc & w' & Hreq & Hout).
  exists res, mc, w'. split; [exact Hreq |].
  set (key := keyOf cfg endpoint options) in *.
  assert (Hlook : forall now,
            snd (lookUp cfg m endpoint options now) = m
            \/ snd (lookUp cfg m endpoint options now) = delete key m).
  { intros now. unfold lookUp, getCachedResponse. fold key.
    destruct (cacheable _ _); [| now left].
    destruct (m !! key) as [e |]; [| now left].
    destruct (ttl e <? now - timestamp e); [now right | now left]. }
  assert (Hother : forall now k, k <> key ->
            snd (lookUp cfg m endpoint options now) !! k = m !! k).
  { intros now k Hk. destruct (Hlook now) as [-> | ->]; [reflexivity |].
    apply lookup_delete_ne. congruence. }
  assert (Hown : forall now,
            snd (lookUp cfg m endpoint options now) !! key = m !! key
            \/ snd (lookUp cfg m endpoint options now) !! key = None).
  { intros now. destruct (Hlook now) as [-> | ->]; [now left | right].
    apply lookup_delete_eq. }
  destruct Hout as [w' Hc Ht Hf Hcl Hls | x w' Hmiss Hlt | d w' Hmiss Hlt].
  - split; [intros k Hk; now apply Hother |].
    split; [discriminate |].
    intros e He. left. destruct (Hown (clock w)) as [H | H]; congruence.
  - split; [intros k Hk; now apply Hother |].
    split.
    { intros _ _. unfold lookUp, getCachedResponse. fold key.
      destruct (cacheable _ _); cbn [andb snd].
      - destruct (m !! key) as [e |] eqn:E; [| exact E].
        destruct (ttl e <? clock w - timestamp e); [apply lookup_delete_eq | exact E].
      - now destruct (m !! key). }
    intros e He. left. destruct (Hown (clock w)) as [H | H]; congruence.
  - destruct (cacheable (new_HttpClient cfg) options).
    + unfold cacheResponse. fold key.
      split; [intros k Hk; rewrite lookup_insert_ne by congruence; now apply Hother |].
      split; [discriminate |].
      intros e He. rewrite lookup_insert_eq in He. injection He as <-. right.
      repeat split. exact Hlt.
    + split; [intros k Hk; now apply Hother |].
      split; [discriminate |].
      intros e He. left. destruct (Hown (clock w)) as [H | H]; congruence.
Qed.

Lemma unit_result (r : option (Outcome Js.Data * HttpClient * World)) c' :
  (exists res w', r = Some (res, c', w')) ->
  exists res w',
    match r with
    | Some (Ok _, c1, w1) => Some (Ok tt, c1, w1)
    | Some (Throw x, c1, w1) => Some (Throw x, c1, w1)
    | None => None
    end = Some (res, c', w').
Proof. intros (res & w' & ->). destruct res; eauto. Qed.

Lemma delete_request_keeps_cache cfg m srv endpoint w :
  exists res w',
    delete_request (client cfg m) srv endpoint Opts.empty w = Some (res, client cfg m, w').
Proof.
  destruct (request_uncacheable cfg m srv endpoint (Opts.with_method Opts.empty "DELETE") w)
    as (res & w' & H & _); [| eauto].
  unfold cacheable, methodIsGet. cbn. apply andb_false_r.
Qed.

(** X14: which calls of the service modules invalidate cached lists.
    [postingApi.create] leaves the cache without the list of the
    influencer's posts, and [influencerApi.delete] without the list of
    influencers and without the influencer, however the request itself ends;
    [postingApi.delete], [creationService.discardSession] and
    [resetSession] leave every cached answer in place. *)
Theorem which_service_calls_invalidate JSON_stringify cfg m srv w :
  (forall data, exists res w',
     Services.postingApi_create JSON_stringify (client cfg m) srv data w
     = Some (res,
             client cfg
               (delete (keyOf cfg (ENDPOINTS.POSTS_BY_INFLUENCER
                                     (Services.influencer_id data)) (GET Opts.empty)) m),
             w'))
  /\ (forall id, exists res w',
        Services.influencerApi_delete (client cfg m) srv id w
        = Some (res,
                client cfg
                  (delete (keyOf cfg (ENDPOINTS.INFLUENCER_BY_ID id) (GET Opts.empty))
                     (delete (keyOf cfg ENDPOINTS.INFLUENCERS (GET Opts.empty)) m)),
                w'))
  /\ (forall postId, exists res w',
        Services.postingApi_delete (client cfg m) srv postId w
        = Some (res, client cfg m, w'))
  /\ (forall sessionId, exists res w',
        Services.discardSession (client cfg m) srv sessionId w
        = Some (res, client cfg m, w'))
  /\ (forall sessionId, exists res w',
        Services.resetSession (client cfg m) srv sessionId w
        = Some (res, client cfg m, w')).
Proof.
  split; [| split; [| split; [| split]]].
  - intros data. unfold Services.postingApi_create. cbv zeta.
    rewrite cache_clearCacheEntry.
    destruct (request_uncacheable cfg
                (delete ("GET" +:+ ":" +:+ Config.baseURL cfg
                         +:+ ENDPOINTS.POSTS_BY_INFLUENCER (Services.influencer_id data)) m)
                srv ENDPOINTS.POSTS_CREATE
                (with_method_body Opts.empty "POST"
                   (bodyOf JSON_stringify (Some (Js.DObject (Services.repr data))))) w)
      as (res & w' & H & _); [apply uncacheable_method; discriminate |].
    exists res, w'. exact H.
  - intros id. unfold Services.influencerApi_delete. cbv zeta.
    rewrite !cache_clearCacheEntry. apply unit_result.
    apply delete_request_keeps_cache.
  - intros postId. unfold Services.postingApi_delete. apply unit_result.
    apply delete_request_keeps_cache.
  - intros sessionId. apply delete_request_keeps_cache.
  - intros sessionId. apply delete_request_keeps_cache.
Qed.

End CacheSpec.

(** *** Timers, heartbeat and the reported state *)

Module TidySpec.
Import Sse SseNotions ReconnectNotions SseSpec ReconnectSpec TidyNotions.

Lemma hbv_eq s h i : hbv s = (h, i) -> heartbeatTimeout s = h /\ intervals s = i.
Proof. unfold hbv. intros [= -> ->]. split; reflexivity. Qed.

Lemma intervals_setConnectionState st s :
  intervals (setConnectionState st s) = intervals s.
Proof. unfold setConnectionState. destruct (bool_decide _); reflexivity. Qed.

Lemma intervals_stopHeartbeat s :
  intervals (stopHeartbeat s)
  = match heartbeatTimeout s with
    | Some h => List.filter (fun i => negb (Nat.eqb i h)) (intervals s)
    | None => intervals s
    end.
Proof. unfold stopHeartbeat. destruct (heartbeatTimeout s); reflexivity. Qed.

Lemma intervals_quiet st s :
  intervals (stopHeartbeat (setConnectionState st s))
  = match heartbeatTimeout s with
    | Some h => List.filter (fun i => negb (Nat.eqb i h)) (intervals s)
    | None => intervals s
    end.
Proof.
  rewrite intervals_stopHeartbeat, intervals_setConnectionState.
  unfold setConnectionState. destruct (bool_decide _); reflexivity.
Qed.

Lemma intervals_scheduleReconnect s :
  intervals (scheduleReconnect s) = intervals s.
Proof.
  destruct s as [es subs att rt ht man cs ls lh srcs tms ivs nh clk lg].
  unfold scheduleReconnect, setConnectionState, setTimeout, clearTimeout.
  destruct rt as [h |]; frozen;
    destruct (Config.maxReconnectAttempts Config.sseConfig <=? att);
    destruct cs; frozen; eval_decide; reflexivity.
Qed.

Lemma intervals_disconnect s :
  intervals (disconnect s)
  = match heartbeatTimeout s with
    | Some h => List.filter (fun i => negb (Nat.eqb i h)) (intervals s)
    | None => intervals s
    end.
Proof.
  destruct s as [es subs att rt ht man cs ls lh srcs tms ivs nh clk lg].
  unfold disconnect, stopHeartbeat, setConnectionState, clearTimeout, clearInterval.
  destruct rt as [h |], ht as [i |], es as [j |], cs;
    lazy -[app map List.filter scheduledDelays invoked alter Nat.eqb negb];
    reflexivity.
Qed.

Lemma intervals_connect s : intervals (connect s) = intervals s.
Proof.
  unfold connect. destruct (live s); [reflexivity |].
  destruct (subscriptions s); [reflexivity |].
  cbn [intervals set_eventSource set_sources emit]. apply intervals_setConnectionState.
Qed.

Lemma Tidy_Tidy0 s : Tidy s -> Tidy0 s.
Proof. intros [M A T I H C D]. constructor; assumption. Qed.

Lemma Tidy_tv s s' : tv s' = tv s -> Tidy s -> Tidy s'.
Proof.
  unfold tv, ctl. intros [= Hm Ha Hr Ht Hn Hh Hi Hc Hd Hrs] [M A T I H C D].
  constructor; rewrite ?Hm, ?Ha, ?Hr, ?Ht, ?Hh, ?Hi, ?Hc, ?Hd, ?Hrs; assumption.
Qed.

Lemma Tidy0_fields s s' :
  reconnectAttempts s' = reconnectAttempts s -> reconnectTimeout s' = reconnectTimeout s ->
  timers s' = timers s -> heartbeatTimeout s' = heartbeatTimeout s ->
  intervals s' = intervals s -> scheduledDelays (log s') = scheduledDelays (log s) ->
  Tidy0 s -> Tidy0 s'.
Proof.
  intros Ha Hr Ht Hh Hi Hd [A T I D].
  constructor; rewrite ?Ha, ?Hr, ?Ht, ?Hh, ?Hi, ?Hd; assumption.
Qed.

Lemma filter_own_timer (tm : list (nat * Z)) (rt : option nat) :
  (tm = [] \/ exists h d, tm = [(h, d)] /\ rt = Some h) ->
  match rt with
  | Some h => List.filter (fun p : nat * Z => negb (Nat.eqb (fst p) h)) tm
  | None => tm
  end = [].
Proof.
  intros [-> | (h & d & -> & ->)]; [apply filter_timers_nil |].
  cbn. now rewrite Nat.eqb_refl.
Qed.

Lemma filter_own_interval (ht : option nat) :
  match ht with
  | Some h => List.filter (fun i => negb (Nat.eqb i h))
                match ht with Some h' => [h'] | None => [] end
  | None => match ht with Some h' => [h'] | None => [] end
  end = [].
Proof. destruct ht as [h |]; [| reflexivity]. cbn. now rewrite Nat.eqb_refl. Qed.

Lemma live_open s : currentReadyState s = Some ES_OPEN -> live s = true.
Proof.
  intros H. destruct (currentReadyState_source s _ H) as [i Hi].
  unfold live. rewrite Hi, H. reflexivity.
Qed.

(** [disconnect] leaves a manager at rest. *)
Lemma Tidy_disconnect s :
  Tidy0 s ->
  Tidy (disconnect s)
  /\ reconnectTimeout (disconnect s) = None /\ timers (disconnect s) = []
  /\ heartbeatTimeout (disconnect s) = None
  /\ connectionState (disconnect s) = DISCONNECTED.
Proof.
  intros [A T I D].
  destruct (disconnect_fields s) as (Hctl & Hobs & Hhb & Hcs). cbv zeta in *.
  destruct (ctl_eq _ _ _ _ _ _ Hctl) as (Hm & Ha & Hr & Ht & Hn).
  destruct (obs_eq _ _ _ Hobs) as (Hd & _).
  rewrite (filter_own_timer _ _ T) in Ht.
  pose proof (intervals_disconnect s) as Hi.
  rewrite I, filter_own_interval in Hi.
  split; [constructor |]; try assumption.
  - now rewrite Ha.
  - now left.
  - now rewrite Hi, Hhb.
  - rewrite Hhb. congruence.
  - rewrite Hcs. discriminate.
  - now rewrite Hd.
  - auto.
Qed.

Lemma Tidy_connect s : Tidy s -> Tidy (connect s).
Proof.
  intros HT.
  destruct (connect_fields s) as (Hctl & Hobs & Hhb & Hcs). cbv zeta in *.
  destruct (live s) eqn:Hlive; [unfold connect; now rewrite Hlive |].
  destruct (subscriptions s) as [| sub subs] eqn:Hsubs;
    [unfold connect; now rewrite Hlive, Hsubs |].
  destruct HT as [M A T I H C D].
  assert (Hnone : heartbeatTimeout s = None).
  { destruct (heartbeatTimeout s) as [h |] eqn:E; [| reflexivity].
    destruct H as [_ Hopen]; [discriminate |].
    apply live_open in Hopen. congruence. }
  destruct (ctl_eq _ _ _ _ _ _ Hctl) as (Hm & Ha & Hr & Ht & Hn).
  destruct (obs_eq _ _ _ Hobs) as (Hd & _).
  constructor.
  - now rewrite Hm.
  - now rewrite Ha.
  - now rewrite Ht, Hr.
  - now rewrite intervals_connect, Hhb.
  - rewrite Hhb, Hnone. congruence.
  - rewrite Hcs. discriminate.
  - now rewrite Hd.
Qed.

Lemma Tidy_reconnect s : Tidy0 s -> Tidy (reconnect s).
Proof. intros H. apply Tidy_connect. now apply Tidy_disconnect. Qed.

Lemma delayOk_backoff (a : Z) : 0 <= a -> delayOk (backoff (a + 1)).
Proof.
  intros Ha. unfold delayOk, backoff. replace (a + 1 - 1) with a by lia.
  change (Config.initialReconnectDelay Config.sseConfig) with 1000.
  change (Config.maxReconnectDelay Config.sseConfig) with 30000.
  assert (1 <= 2 ^ a) by (apply (Z.pow_le_mono_r 2 0 a); lia).
  lia.
Qed.

(** [scheduleReconnect] on a manager whose heartbeat is stopped. *)
Lemma Tidy_scheduleReconnect s :
  isManualClose s = false -> heartbeatTimeout s = None -> Tidy0 s ->
  Tidy (scheduleReconnect s).
Proof.
  intros M Hnone [A T I D].
  pose proof (intervals_scheduleReconnect s) as Hi.
  destruct (Z.lt_ge_cases (reconnectAttempts s)
              (Config.maxReconnectAttempts Config.sseConfig)) as [Hlt | Hge].
  - destruct (scheduleReconnect_lt s Hlt) as (_ & Hctl & Hobs & Hhb & Hcs). cbv zeta in *.
    destruct (ctl_eq _ _ _ _ _ _ Hctl) as (Hm & Ha & Hr & Ht & Hn).
    destruct (obs_eq _ _ _ Hobs) as (Hd & _).
    rewrite (filter_own_timer _ _ T) in Ht. cbn [app] in Ht.
    constructor.
    + now rewrite Hm.
    + rewrite Ha. lia.
    + right. eauto.
    + now rewrite Hi, Hhb.
    + rewrite Hhb, Hnone. congruence.
    + rewrite Hcs. discriminate.
    + rewrite Hd. apply Forall_app. split; [exact D |].
      constructor; [| constructor]. apply delayOk_backoff. lia.
  - destruct (scheduleReconnect_ge s Hge) as (_ & Hctl & Hobs & Hhb & Hcs). cbv zeta in *.
    destruct (ctl_eq _ _ _ _ _ _ Hctl) as (Hm & Ha & Hr & Ht & Hn).
    destruct (obs_eq _ _ _ Hobs) as (Hd & _).
    rewrite (filter_own_timer _ _ T) in Ht.
    constructor.
    + now rewrite Hm.
    + now rewrite Ha.
    + now left.
    + now rewrite Hi, Hhb.
    + rewrite Hhb, Hnone. congruence.
    + rewrite Hcs. discriminate.
    + now rewrite Hd.
Qed.

Lemma Tidy_onerror s : isManualClose s = false -> Tidy0 s -> Tidy (onerror s).
Proof.
  intros M [A T I D].
  destruct (quiet_state ERROR s) as (Hcore & Hctl & Hobs & Hhb & Hcs). cbv zeta in *.
  destruct (ctl_eq _ _ _ _ _ _ Hctl) as (Hm & Ha & Hr & Ht & Hn).
  destruct (obs_eq _ _ _ Hobs) as (Hd & _).
  pose proof (intervals_quiet ERROR s) as Hi.
  rewrite I, filter_own_interval in Hi.
  set (s1 := stopHeartbeat (setConnectionState ERROR s)) in *.
  assert (H0 : Tidy0 s1).
  { constructor.
    - now rewrite Ha.
    - now rewrite Ht, Hr.
    - now rewrite Hi, Hhb.
    - now rewrite Hd. }
  assert (H1 : Tidy s1).
  { destruct H0 as [A1 T1 I1 D1]. constructor; try assumption.
    - now rewrite Hm.
    - rewrite Hhb. congruence.
    - rewrite Hcs. discriminate. }
  unfold onerror. fold s1. cbv zeta.
  destruct (bool_decide (currentReadyState s1 = Some ES_CLOSED)); [| exact H1].
  rewrite Hm, M. cbn [negb].
  apply Tidy_scheduleReconnect; [now rewrite Hm | exact Hhb | exact H0].
Qed.

Lemma onopen_fields s :
  let s' := onopen s in
  ctl s' = (isManualClose s, 0, reconnectTimeout s, timers s, S (nextHandle s))
  /\ obs s' = obs s
  /\ hbv s' = (Some (nextHandle s),
               match heartbeatTimeout s with
               | Some h => List.filter (fun i => negb (Nat.eqb i h)) (intervals s)
               | None => intervals s
               end ++ [nextHandle s])
  /\ connectionState s' = CONNECTED.
Proof.
  destruct s as [es subs att rt ht man cs ls lh srcs tms ivs nh clk lg].
  unfold onopen, startHeartbeat, stopHeartbeat, setConnectionState, setInterval,
    clearInterval.
  destruct ht as [i |], cs;
    lazy -[app map List.filter scheduledDelays invoked alter Nat.eqb negb];
    repeat split; quiet_logs.
Qed.

Lemma Tidy_onopen s :
  isManualClose s = false -> currentReadyState s = Some ES_OPEN -> Tidy0 s ->
  Tidy (onopen s).
Proof.
  intros M Hopen [A T I D].
  destruct (onopen_fields s) as (Hctl & Hobs & Hhbv & Hcs). cbv zeta in *.
  destruct (ctl_eq _ _ _ _ _ _ Hctl) as (Hm & Ha & Hr & Ht & Hn).
  destruct (obs_eq _ _ _ Hobs) as (Hd & _).
  destruct (hbv_eq _ _ _ Hhbv) as (Hh & Hi).
  rewrite I, filter_own_interval in Hi. cbn [app] in Hi.
  constructor.
  - now rewrite Hm.
  - rewrite Ha. change (Config.maxReconnectAttempts Config.sseConfig) with 10. lia.
  - now rewrite Ht, Hr.
  - now rewrite Hi, Hh.
  - intros _. split; [exact Hcs |].
    rewrite (currentReadyState_core _ _ (core_onopen s)). exact Hopen.
  - intros _. rewrite Hh. discriminate.
  - now rewrite Hd.
Qed.

Lemma scheduledDelays_invoke event ty cbs :
  scheduledDelays (concat (map (invoke event ty) cbs)) = [].
Proof.
  unfold scheduledDelays. induction cbs as [| cb cbs IH]; [reflexivity |].
  cbn [map concat]. rewrite omap_app, IH, app_nil_r.
  unfold invoke. destruct (cb_throws cb); reflexivity.
Qed.

Lemma tv_onframe ty p s : tv (onframe ty p s) = tv s.
Proof.
  unfold tv, ctl, onframe, notifySubscribers, updateHeartbeat. cbv zeta.
  destruct p as [p |].
  - destruct (subs_get _ _) as [cbs |]; [| reflexivity].
    cbn -[scheduledDelays]. unfold scheduledDelays at 1.
    rewrite omap_app. fold (scheduledDelays (log s)).
    fold (scheduledDelays (concat (map (invoke p ty) cbs))).
    now rewrite scheduledDelays_invoke, app_nil_r.
  - cbn -[scheduledDelays]. unfold scheduledDelays at 1.
    rewrite omap_app. cbn. now rewrite app_nil_r.
Qed.

Lemma Tidy0_setReadyState i rs s : Tidy0 s -> Tidy0 (setReadyState i rs s).
Proof. apply Tidy0_fields; reflexivity. Qed.

Lemma Tidy0_set_subscriptions v s : Tidy0 s -> Tidy0 (set_subscriptions v s).
Proof. apply Tidy0_fields; reflexivity. Qed.

Lemma Tidy_set_subscriptions v s : Tidy s -> Tidy (set_subscriptions v s).
Proof. apply Tidy_tv. reflexivity. Qed.

Lemma step_Tidy e s : Tidy s -> Tidy (step e s).
Proof.
  intros HT. pose proof (Tidy_Tidy0 _ HT) as H0.
  destruct e as [r cb | r cb | l | l | | | | fatal | ty p | | h | | dt]; cbn [step].
  - unfold subscribe. cbv zeta.
    destruct (_ && _).
    + apply Tidy_reconnect. now apply Tidy0_set_subscriptions.
    + apply Tidy_connect. now apply Tidy_set_subscriptions.
  - unfold unsubscribe. cbv zeta.
    destruct (subscriptions (set_subscriptions _ s)).
    + apply Tidy_disconnect. now apply Tidy0_set_subscriptions.
    + apply Tidy_reconnect. now apply Tidy0_set_subscriptions.
  - revert HT. apply Tidy_tv. reflexivity.
  - revert HT. apply Tidy_tv. reflexivity.
  - now apply Tidy_disconnect.
  - unfold destroy.
    assert (Hd : Tidy (disconnect s)) by now apply Tidy_disconnect.
    revert Hd. apply Tidy_tv. reflexivity.
  - destruct (eventSource s) as [i |] eqn:He; [| exact HT].
    destruct (currentReadyState s) as [[| |] |] eqn:Hrs; try exact HT.
    apply Tidy_onopen.
    + exact (tidy_manual _ HT).
    + exact (currentReadyState_setReadyState s i _ ES_OPEN He Hrs).
    + now apply Tidy0_setReadyState.
  - destruct (eventSource s) as [i |] eqn:He; [| exact HT].
    destruct (currentReadyState s) as [rs |] eqn:Hrs; [| exact HT].
    apply Tidy_onerror; [exact (tidy_manual _ HT) | now apply Tidy0_setReadyState].
  - destruct (currentReadyState s) as [[| |] |]; try exact HT.
    revert HT. apply Tidy_tv, tv_onframe.
  - destruct (currentReadyState s) as [[| |] |]; try exact HT.
    destruct parses; [| exact HT].
    revert HT. apply Tidy_tv. reflexivity.
  - destruct (existsb _ _); [| exact HT].
    apply Tidy_reconnect.
    destruct H0 as [A T I D]. constructor; try assumption.
    cbn [timers set_timers reconnectTimeout].
    destruct T as [-> | (h' & d & -> & Hr)]; [now left |].
    cbn. destruct (Nat.eqb h' h); cbn; [now left | right; eauto].
  - destruct (heartbeatTimeout s) as [h |]; [| exact HT].
    destruct (_ && _); [| exact HT].
    now apply Tidy_reconnect.
  - revert HT. apply Tidy_tv. reflexivity.
Qed.

Lemma run_Tidy events : forall s, Tidy s -> Tidy (run events s).
Proof.
  induction events as [| e events IH]; intros s H; [exact H |].
  cbn [run fold_left]. fold (run events (step e s)). apply IH. now apply step_Tidy.
Qed.

Lemma Tidy_new t : Tidy (new_SSEManager t).
Proof.
  constructor; cbn.
  - reflexivity.
  - lia.
  - now left.
  - reflexivity.
  - congruence.
  - discriminate.
  - constructor.
Qed.

(** X15: in every state the manager can reach, at most one reconnect timer
    is pending, and it is the one [reconnectTimeout] holds; at most one
    heartbeat interval is running, and it runs exactly when
    [heartbeatTimeout] holds it; and [isManualClose] is false, so that the
    check of it in [onerror] never keeps a closed connection from being
    rescheduled. *)
Theorem at_most_one_timer_and_one_heartbeat (t : Z) (events : list Event) :
  let s := run events (new_SSEManager t) in
  (length (timers s) <= 1)%nat
  /\ (forall h d, In (h, d) (timers s) -> reconnectTimeout s = Some h)
  /\ (length (intervals s) <= 1)%nat
  /\ (forall h, In h (intervals s) <-> heartbeatTimeout s = Some h)
  /\ isManualClose s = false.
Proof.
  cbv zeta. destruct (run_Tidy events _ (Tidy_new t)) as [M A T I H C D].
  set (s := run events (new_SSEManager t)) in *.
  split; [| split; [| split; [| split]]].
  - destruct T as [-> | (h & d & -> & _)]; cbn; lia.
  - intros h d Hin. destruct T as [E | (h' & d' & E & Hr)]; rewrite E in Hin.
    + destruct Hin.
    + destruct Hin as [[= -> ->] | []]. exact Hr.
  - rewrite I. destruct (heartbeatTimeout s); cbn; lia.
  - intros h. rewrite I. destruct (heartbeatTimeout s) as [h' |]; cbn.
    + split; [intros [-> | []]; reflexivity | intros [= ->]; now left].
    + split; [intros [] | discriminate].
  - exact M.
Qed.

(** X16: in every state the manager can reach, the count of reconnect
    attempts lies between 0 and [maxReconnectAttempts], and every delay it
    has ever passed to [setTimeout] lies between [initialReconnectDelay] and
    [maxReconnectDelay]. *)
Theorem attempts_and_delays_stay_in_range (t : Z) (events : list Event) :
  let s := run events (new_SSEManager t) in
  0 <= reconnectAttempts s <= 10
  /\ Forall (fun d => 1000 <= d <= 30000) (scheduledDelays (log s)).
Proof.
  cbv zeta. destruct (run_Tidy events _ (Tidy_new t)) as [M A T I H C D].
  split; [exact A | exact D].
Qed.

(** X17: the manager reports [CONNECTED] exactly while its heartbeat
    monitor runs, and then the [EventSource] it holds is open. *)
Theorem connected_means_open_and_monitored (t : Z) (events : list Event) :
  let s := run events (new_SSEManager t) in
  (connectionState s = CONNECTED <-> heartbeatTimeout s <> None)
  /\ (connectionState s = CONNECTED ->
      currentReadyState s = Some ES_OPEN /\ live s = true).
Proof.
  cbv zeta. destruct (run_Tidy events _ (Tidy_new t)) as [M A T I H C D].
  split.
  - split; [exact C | intros Hh; exact (proj1 (H Hh))].
  - intros Hc. destruct (H (C Hc)) as [_ Hopen].
    split; [exact Hopen | now apply live_open].
Qed.

(** What a fatal error does to a manager that is tidy and holds a source. *)
Lemma fatal_error_on_tidy s i rs :
  Tidy s -> eventSource s = Some i -> currentReadyState s = Some rs ->
  let s' := step (EsError true) s in
  if reconnectAttempts s <? Config.maxReconnectAttempts Config.sseConfig then
    timers s' = [(nextHandle s, backoff (reconnectAttempts s + 1))]
    /\ reconnectTimeout s' = Some (nextHandle s)
    /\ reconnectAttempts s' = reconnectAttempts s + 1
    /\ scheduledDelays (log s')
       = scheduledDelays (log s) ++ [backoff (reconnectAttempts s + 1)]
    /\ connectionState s' = RECONNECTING
    /\ currentReadyState s' = Some ES_CLOSED
  else
    timers s' = [] /\ reconnectAttempts s' = reconnectAttempts s
    /\ scheduledDelays (log s') = scheduledDelays (log s)
    /\ connectionState s' = ERROR
    /\ currentReadyState s' = Some ES_CLOSED.
Proof.
  intros [M A T I H C D] He Hrs. cbv zeta.
  destruct (step_error_closed s i rs true He Hrs eq_refl M)
    as (s1 & Hstep & Hcore1 & Hcur1 & Hctl1 & Hobs1 & Hhb1 & Hst1).
  destruct (ctl_eq _ _ _ _ _ _ Hctl1) as (Hm1 & Ha1 & Hr1 & Ht1 & Hn1).
  destruct (obs_eq _ _ _ Hobs1) as (Hd1 & _).
  rewrite Hstep.
  destruct (reconnectAttempts s <? Config.maxReconnectAttempts Config.sseConfig) eqn:E.
  - apply Z.ltb_lt in E.
    assert (Hlt : reconnectAttempts s1 < Config.maxReconnectAttempts Config.sseConfig)
      by now rewrite Ha1.
    destruct (scheduleReconnect_lt s1 Hlt) as (Hcore2 & Hctl2 & Hobs2 & _ & Hcs2).
    cbv zeta in *.
    rewrite Hr1, Ht1, (filter_own_timer _ _ T), Ha1, Hn1 in Hctl2. cbn [app] in Hctl2.
    rewrite Ha1, Hd1 in Hobs2.
    destruct (ctl_eq _ _ _ _ _ _ Hctl2) as (Hm2 & Ha2 & Hr2 & Ht2 & Hn2).
    destruct (obs_eq _ _ _ Hobs2) as (Hd2 & _).
    repeat split; try assumption.
    now rewrite (currentReadyState_core _ _ Hcore2).
  - apply Z.ltb_ge in E.
    assert (Hge : Config.maxReconnectAttempts Config.sseConfig <= reconnectAttempts s1)
      by now rewrite Ha1.
    destruct (scheduleReconnect_ge s1 Hge) as (Hcore2 & Hctl2 & Hobs2 & _ & Hcs2).
    cbv zeta in *.
    rewrite Hr1, Ht1, (filter_own_timer _ _ T), Ha1 in Hctl2.
    destruct (ctl_eq _ _ _ _ _ _ Hctl2) as (Hm2 & Ha2 & Hr2 & Ht2 & Hn2).
    destruct (obs_eq _ _ _ Hobs2) as (Hd2 & _).
    repeat split; try assumption.
    + now rewrite Hd2, Hd1.
    + now rewrite (currentReadyState_core _ _ Hcore2).
Qed.

(** X18: whatever happened to the manager before, an error that closes the
    connection it holds either arms exactly one timer, with the delay
    [min (1000 * 2^k) 30000] where [k] is the number of attempts made since
    a connection last opened, and moves to [RECONNECTING]; or, after ten
    attempts, arms nothing and moves to [ERROR]. *)
Theorem fatal_error_reschedules_or_gives_up (t : Z) (events : list Event) i rs :
  let s := run events (new_SSEManager t) in
  eventSource s = Some i -> currentReadyState s = Some rs ->
  let s' := step (EsError true) s in
  (reconnectAttempts s < 10 ->
   timers s' = [(nextHandle s, Z.min (1000 * 2 ^ reconnectAttempts s) 30000)]
   /\ reconnectAttempts s' = reconnectAttempts s + 1
   /\ connectionState s' = RECONNECTING)
  /\ (reconnectAttempts s = 10 ->
      timers s' = [] /\ connectionState s' = ERROR
      /\ scheduledDelays (log s') = scheduledDelays (log s)).
Proof.
  cbv zeta. intros He Hrs.
  pose proof (run_Tidy events _ (Tidy_new t)) as HT.
  pose proof (fatal_error_on_tidy _ i rs HT He Hrs) as H. cbv zeta in H.
  set (s := run events (new_SSEManager t)) in *.
  change (Config.maxReconnectAttempts Config.sseConfig) with 10 in H.
  split; intros Ha.
  - apply Z.ltb_lt in Ha. rewrite Ha in H.
    destruct H as (Ht & _ & Hatt & _ & Hcs & _).
    unfold backoff in Ht. replace (reconnectAttempts s + 1 - 1) with (reconnectAttempts s) in Ht by lia.
    auto.
  - rewrite Ha in H. cbn in H. destruct H as (Ht & _ & Hd & Hcs & _). auto.
Qed.

(** The manager of the creation flow after five rounds of error and
    reconnection. *)
Lemma fatal_error_reschedules_or_gives_up_witness :
  let s := run fiveRounds (new_SSEManager 0) in
  let s' := step (EsError true) s in
  (reconnectAttempts s < 10 ->
   timers s' = [(nextHandle s, Z.min (1000 * 2 ^ reconnectAttempts s) 30000)]
   /\ reconnectAttempts s' = reconnectAttempts s + 1
   /\ connectionState s' = RECONNECTING)
  /\ (reconnectAttempts s = 10 ->
      timers s' = [] /\ connectionState s' = ERROR
      /\ scheduledDelays (log s') = scheduledDelays (log s)).
Proof.
  apply (fatal_error_reschedules_or_gives_up 0 fiveRounds 5%nat ES_CONNECTING).
  - vm_compute. reflexivity.
  - vm_compute. reflexivity.
Defined.

(** X19: the count of attempts starts again when a connection opens: the
    first error that closes an opened connection is followed by a reconnect
    after [initialReconnectDelay], however many attempts it took to get the
    connection open. *)
Theorem backoff_restarts_after_open (t : Z) (events : list Event) i :
  let s := run events (new_SSEManager t) in
  eventSource s = Some i -> currentReadyState s = Some ES_CONNECTING ->
  let s1 := step EsOpen s in
  let s2 := step (EsError true) s1 in
  connectionState s1 = CONNECTED /\ reconnectAttempts s1 = 0
  /\ scheduledDelays (log s2) = scheduledDelays (log s) ++ [1000]
  /\ reconnectAttempts s2 = 1 /\ connectionState s2 = RECONNECTING.
Proof.
  cbv zeta. intros He Hrs.
  pose proof (run_Tidy events _ (Tidy_new t)) as HT.
  set (s := run events (new_SSEManager t)) in *.
  pose proof (step_Tidy EsOpen s HT) as HT1.
  assert (Hstep : step EsOpen s = onopen (setReadyState i ES_OPEN s))
    by (cbn [step]; now rewrite He, Hrs).
  destruct (onopen_fields (setReadyState i ES_OPEN s)) as (Hctl & Hobs & _ & Hcs).
  cbv zeta in *. rewrite <- Hstep in *.
  destruct (ctl_eq _ _ _ _ _ _ Hctl) as (_ & Ha & _).
  destruct (obs_eq _ _ _ Hobs) as (Hd & _). cbn [setReadyState set_sources log] in Hd.
  assert (He1 : eventSource (step EsOpen s) = Some i).
  { rewrite Hstep.
    destruct (core_eq _ _ _ _ (core_onopen (setReadyState i ES_OPEN s))) as (-> & _).
    exact He. }
  assert (Hrs1 : currentReadyState (step EsOpen s) = Some ES_OPEN).
  { rewrite Hstep, (currentReadyState_core _ _ (core_onopen _)).
    exact (currentReadyState_setReadyState s i _ ES_OPEN He Hrs). }
  pose proof (fatal_error_on_tidy _ i ES_OPEN HT1 He1 Hrs1) as H. cbv zeta in H.
  rewrite Ha in H. cbn [Z.ltb Z.compare] in H.
  change (Config.maxReconnectAttempts Config.sseConfig) with 10 in H.
  cbn [Z.ltb Z.compare] in H.
  destruct H as (_ & _ & Hatt & Hdel & Hst & _).
  split; [exact Hcs |]. split; [exact Ha |].
  split; [rewrite Hdel, Hd; reflexivity |]. split; assumption.
Qed.

(** The connection that was opened as the sixth, after five failures. *)
Lemma backoff_restarts_after_open_witness :
  let s := run fiveRounds (new_SSEManager 0) in
  let s1 := step EsOpen s in
  let s2 := step (EsError true) s1 in
  connectionState s1 = CONNECTED /\ reconnectAttempts s1 = 0
  /\ scheduledDelays (log s2) = scheduledDelays (log s) ++ [1000]
  /\ reconnectAttempts s2 = 1 /\ connectionState s2 = RECONNECTING.
Proof.
  apply (backoff_restarts_after_open 0 fiveRounds 5%nat).
  - vm_compute. reflexivity.
  - vm_compute. reflexivity.
Defined.

Lemma Busy_core s s' : core s' = core s -> Busy s -> Busy s'.
Proof.
  intros H. destruct (core_eq _ _ _ _ H) as (He & _ & Hs).
  unfold Busy. now rewrite He, Hs.
Qed.

Lemma Busy_none s : eventSource s = None -> Busy s.
Proof. intros H Hne. congruence. Qed.

Lemma Busy_subs s : subscriptions s <> [] -> Busy s.
Proof. intros H _. exact H. Qed.

Lemma eventSource_disconnect s : eventSource (disconnect s) = None.
Proof. now destruct (core_eq _ _ _ _ (core_disconnect s)) as (-> & _). Qed.

Lemma Busy_reconnect s : Busy (reconnect s).
Proof.
  pose proof (core_reconnect s) as H.
  destruct (subscriptions s) as [| sub subs] eqn:E.
  - apply Busy_none. rewrite core_disconnect in H.
    now destruct (core_eq _ _ _ _ H) as (-> & _).
  - apply Busy_subs. destruct (core_eq _ _ _ _ H) as (_ & _ & ->). discriminate.
Qed.

Lemma step_Busy e s : Busy s -> Busy (step e s).
Proof.
  intros HB.
  destruct e as [r cb | r cb | l | l | | | | fatal | ty p | | h | | dt]; cbn [step].
  - apply Busy_subs. rewrite subscriptions_subscribe. apply subs_add_nonempty.
  - unfold unsubscribe. cbv zeta.
    destruct (subscriptions (set_subscriptions _ s));
      [apply Busy_none, eventSource_disconnect | apply Busy_reconnect].
  - exact HB.
  - exact HB.
  - apply Busy_none, eventSource_disconnect.
  - apply Busy_none. unfold destroy. cbn [eventSource set_stateChangeListeners set_subscriptions].
    apply eventSource_disconnect.
  - destruct (eventSource s) as [i |] eqn:He; [| exact HB].
    destruct (currentReadyState s) as [[| |] |]; try exact HB.
    revert HB. unfold Busy.
    destruct (core_eq _ _ _ _ (core_onopen (setReadyState i ES_OPEN s))) as (-> & _ & ->).
    cbn [setReadyState set_sources eventSource subscriptions]. trivial.
  - destruct (eventSource s) as [i |] eqn:He; [| exact HB].
    destruct (currentReadyState s) as [rs |]; [| exact HB].
    revert HB. unfold Busy.
    destruct (core_eq _ _ _ _ (core_onerror (setReadyState i (afterError fatal rs) s)))
      as (-> & _ & ->).
    cbn [setReadyState set_sources eventSource subscriptions]. trivial.
  - destruct (currentReadyState s) as [[| |] |]; try exact HB.
    apply (Busy_core s); [apply core_onframe | exact HB].
  - destruct (currentReadyState s) as [[| |] |]; try exact HB.
    destruct parses; exact HB.
  - destruct (existsb _ _); [apply Busy_reconnect | exact HB].
  - destruct (heartbeatTimeout s); [| exact HB].
    destruct (_ && _); [apply Busy_reconnect | exact HB].
  - exact HB.
Qed.

Lemma run_Busy events : forall s, Busy s -> Busy (run events s).
Proof.
  induction events as [| e events IH]; intros s H; [exact H |].
  cbn [run fold_left]. fold (run events (step e s)). apply IH. now apply step_Busy.
Qed.

Lemma Busy_new t : Busy (new_SSEManager t).
Proof. intros H. now contradiction H. Qed.

Lemma AtRest_disconnect s :
  Shape (fun _ => True) (eventSource s) (sources s) -> Tidy0 s -> AtRest (disconnect s).
Proof.
  intros HS HT.
  destruct (Tidy_disconnect s HT) as (HT' & _ & Htim & Hhb & Hcs).
  pose proof (Inv_disconnect s HS) as HI'.
  constructor.
  - apply eventSource_disconnect.
  - destruct (Inv_openSources _ HI') as [[Ho _] | (cur & _ & Hl & _)]; [exact Ho |].
    unfold live in Hl. now rewrite eventSource_disconnect in Hl.
  - exact Htim.
  - rewrite (tidy_intervals _ HT'), Hhb. reflexivity.
  - exact Hcs.
Qed.

Lemma AtRest_fields s s' :
  eventSource s' = eventSource s -> sources s' = sources s -> timers s' = timers s ->
  intervals s' = intervals s -> connectionState s' = connectionState s ->
  AtRest s -> AtRest s'.
Proof.
  intros He Hs Ht Hi Hc [E O T I C].
  constructor; unfold openSources in *; rewrite ?He, ?Hs, ?Ht, ?Hi, ?Hc; assumption.
Qed.

(** X20: the manager holds a connection only while something is
    subscribed.  In every state it can reach, an [EventSource] held or open
    means that the registry is not empty; and the unsubscribe that empties
    the registry, [disconnect()] and [destroy()] leave the manager at rest:
    no source held, none open, no timer pending, no heartbeat running, state
    [DISCONNECTED]. *)
Theorem no_connection_without_subscribers (t : Z) (events : list Event) :
  let s := run events (new_SSEManager t) in
  (eventSource s <> None -> subscriptions s <> [])
  /\ (openSources s <> [] -> subscriptions s <> [])
  /\ (forall r cb, subscriptions (step (Unsubscribe r cb) s) = [] ->
                   AtRest (step (Unsubscribe r cb) s))
  /\ AtRest (step Disconnect s)
  /\ AtRest (step Destroy s)
  /\ subscriptions (step Destroy s) = [] /\ stateChangeListeners (step Destroy s) = [].
Proof.
  cbv zeta.
  pose proof (run_Tidy events _ (Tidy_new t)) as HT.
  pose proof (run_Inv events _ (Inv_new t)) as HI.
  pose proof (run_Busy events _ (Busy_new t)) as HB.
  set (s := run events (new_SSEManager t)) in *.
  split; [exact HB |].
  split; [| split; [| split; [| split; [| split]]]].
  - intros Hopen. apply HB.
    destruct (Inv_openSources _ HI) as [[Ho _] | (cur & _ & Hl & _)]; [contradiction |].
    unfold live in Hl. destruct (eventSource s); [discriminate | discriminate].
  - intros r cb Hempty. cbn [step] in *.
    rewrite subscriptions_unsubscribe in Hempty.
    unfold unsubscribe. cbv zeta.
    cbn [subscriptions set_subscriptions]. rewrite Hempty.
    apply AtRest_disconnect.
    + exact (Inv_shape s HI).
    + apply Tidy0_set_subscriptions, Tidy_Tidy0, HT.
  - apply AtRest_disconnect; [exact (Inv_shape s HI) | exact (Tidy_Tidy0 _ HT)].
  - cbn [step]. unfold destroy.
    apply (AtRest_fields (disconnect s)); try reflexivity.
    apply AtRest_disconnect; [exact (Inv_shape s HI) | exact (Tidy_Tidy0 _ HT)].
  - reflexivity.
  - reflexivity.
Qed.

Lemma heartbeat_onframe ty p s :
  lastHeartbeat (onframe ty p s) = clock s /\ clock (onframe ty p s) = clock s
  /\ heartbeatTimeout (onframe ty p s) = heartbeatTimeout s
  /\ intervals (onframe ty p s) = intervals s.
Proof.
  unfold onframe, notifySubscribers, updateHeartbeat. cbv zeta.
  destruct p as [p |]; [| repeat split].
  cbn [resource_id subscriptions set_lastHeartbeat].
  destruct (subs_get _ _); repeat split.
Qed.

(** What [reconnect] makes of a manager that is tidy and has subscribers. *)
Lemma reconnect_on_tidy s :
  Tidy0 s -> subscriptions s <> [] ->
  let s' := reconnect s in
  eventSource s' = Some (length (sources s))
  /\ sources s' = match eventSource s with
                  | Some i => closeAt i (sources s)
                  | None => sources s
                  end ++ [fresh (subscriptions s)]
  /\ subscriptions s' = subscriptions s
  /\ connectionState s' = CONNECTING
  /\ heartbeatTimeout s' = None
  /\ reconnectAttempts s' = reconnectAttempts s
  /\ reconnectTimeout s' = None
  /\ timers s' = []
  /\ scheduledDelays (log s') = scheduledDelays (log s)
  /\ invoked (log s') = invoked (log s).
Proof.
  intros H0 Hsubs. cbv zeta.
  pose proof (core_reconnect s) as Hcore.
  destruct (subscriptions s) as [| sub subs] eqn:Esubs; [contradiction |].
  destruct (core_eq _ _ _ _ Hcore) as (He & Hs & Hsub).
  destruct (Tidy_disconnect s H0) as (_ & Hrt & Htim & Hhb & _).
  destruct (disconnect_fields s) as (Hdctl & Hdobs & _ & _). cbv zeta in *.
  destruct (ctl_eq _ _ _ _ _ _ Hdctl) as (_ & Hda & _).
  destruct (obs_eq _ _ _ Hdobs) as (Hdd & Hdi).
  unfold reconnect in *.
  destruct (connect_fields (disconnect s)) as (Hctl & Hobs & Hchb & Hcs). cbv zeta in *.
  destruct (ctl_eq _ _ _ _ _ _ Hctl) as (_ & Ha & Hr & Ht & _).
  destruct (obs_eq _ _ _ Hobs) as (Hd & Hi).
  rewrite live_core, eventSource_disconnect, subscriptions_disconnect, Esubs in Hcs.
  cbn [liveC] in Hcs.
  repeat split; try assumption; congruence.
Qed.

(** X21: the heartbeat watchdog.  On a connected manager every frame, even
    one that cannot be parsed or that is for a resource nobody subscribed
    to, counts as a sign of life: a check made up to 45 s after it does
    nothing.  A check made after more than 45 s of silence closes the
    connection and opens a new one at once on the same resource list,
    without a timer and without counting a reconnect attempt. *)
Theorem heartbeat_watchdog (t : Z) (events : list Event) :
  let s := run events (new_SSEManager t) in
  connectionState s = CONNECTED ->
  (forall ty p dt, dt <= 45000 ->
     let s1 := step (Tick dt) (step (EsFrame ty p) s) in
     lastHeartbeat s1 = clock s /\ step HeartbeatTick s1 = s1)
  /\ (clock s - lastHeartbeat s <= 45000 -> step HeartbeatTick s = s)
  /\ (45000 < clock s - lastHeartbeat s ->
      exists i,
        eventSource s = Some i
        /\ let s' := step HeartbeatTick s in
           eventSource s' = Some (length (sources s))
           /\ sources s' = closeAt i (sources s) ++ [fresh (subscriptions s)]
           /\ subscriptions s' = subscriptions s
           /\ connectionState s' = CONNECTING
           /\ heartbeatTimeout s' = None
           /\ reconnectAttempts s' = reconnectAttempts s
           /\ timers s' = []
           /\ scheduledDelays (log s') = scheduledDelays (log s)).
Proof.
  cbv zeta. intros Hconn.
  pose proof (run_Tidy events _ (Tidy_new t)) as HT.
  pose proof (run_Busy events _ (Busy_new t)) as HB.
  set (s := run events (new_SSEManager t)) in *.
  pose proof (tidy_connected _ HT Hconn) as Hhb.
  destruct (tidy_heartbeat _ HT Hhb) as [_ Hopen].
  destruct (heartbeatTimeout s) as [h |] eqn:Eh; [clear Hhb | contradiction].
  pose proof (tidy_intervals _ HT) as Hiv. rewrite Eh in Hiv.
  change (Config.heartbeatTimeout Config.sseConfig) with 45000.
  split; [| split].
  - intros ty p dt Hdt. cbn [step]. rewrite Hopen.
    destruct (heartbeat_onframe ty p s) as (Hl & Hc & Hh & Hi).
    split; [exact Hl |].
    cbn [heartbeatTimeout intervals clock lastHeartbeat set_clock].
    rewrite Hh, Eh, Hi, Hiv, Hl, Hc.
    change (Config.heartbeatTimeout Config.sseConfig) with 45000.
    destruct (45000 <? clock s + Z.max 0 dt - clock s) eqn:E;
      [apply Z.ltb_lt in E; lia |].
    now rewrite andb_false_r.
  - intros Hq. cbn [step]. rewrite Eh.
    change (Config.heartbeatTimeout Config.sseConfig) with 45000.
    destruct (45000 <? clock s - lastHeartbeat s) eqn:E; [apply Z.ltb_lt in E; lia |].
    now rewrite andb_false_r.
  - intros Hs.
    destruct (currentReadyState_source s _ Hopen) as [i Hi]. exists i.
    split; [exact Hi |].
    cbn [step]. rewrite Eh, Hiv.
    change (Config.heartbeatTimeout Config.sseConfig) with 45000.
    apply Z.ltb_lt in Hs. rewrite Hs. cbn [existsb]. rewrite Nat.eqb_refl. cbn [orb andb].
    assert (Hsubs : subscriptions s <> []) by (apply HB; congruence).
    destruct (reconnect_on_tidy s (Tidy_Tidy0 _ HT) Hsubs)
      as (H1 & H2 & H3 & H4 & H5 & H6 & _ & H8 & H9 & _).
    cbv zeta in *. rewrite Hi in H2. repeat split; assumption.
Qed.

(** A connection that opened and then heard nothing for a minute. *)
Lemma heartbeat_watchdog_witness :
  let s := run (silentFor 60000) (new_SSEManager 0) in
  (forall ty p dt, dt <= 45000 ->
     let s1 := step (Tick dt) (step (EsFrame ty p) s) in
     lastHeartbeat s1 = clock s /\ step HeartbeatTick s1 = s1)
  /\ (clock s - lastHeartbeat s <= 45000 -> step HeartbeatTick s = s)
  /\ (45000 < clock s - lastHeartbeat s ->
      exists i,
        eventSource s = Some i
        /\ let s' := step HeartbeatTick s in
           eventSource s' = Some (length (sources s))
           /\ sources s' = closeAt i (sources s) ++ [fresh (subscriptions s)]
           /\ subscriptions s' = subscriptions s
           /\ connectionState s' = CONNECTING
           /\ heartbeatTimeout s' = None
           /\ reconnectAttempts s' = reconnectAttempts s
           /\ timers s' = []
           /\ scheduledDelays (log s') = scheduledDelays (log s)).
Proof.
  apply (heartbeat_watchdog 0 (silentFor 60000)). vm_compute. reflexivity.
Defined.

End TidySpec.

(** *** The registry of subscriptions *)

Module RegistrySpec.
Import Sse SseNotions ReconnectNotions SseSpec ReconnectSpec TidyNotions TidySpec.

Lemma set_delete_snoc cb cbs : ~ In cb cbs -> set_delete cb (cbs ++ [cb]) = cbs.
Proof.
  intros Hnin. unfold set_delete. rewrite List.filter_app. cbn.
  rewrite bool_decide_eq_true_2 by reflexivity. cbn. rewrite app_nil_r.
  induction cbs as [| c cbs IH]; [reflexivity |].
  cbn. rewrite bool_decide_eq_false_2 by (intros ->; apply Hnin; now left).
  cbn. f_equal. apply IH. intros H. apply Hnin. now right.
Qed.

Lemma set_add_new cb cbs : ~ In cb cbs -> set_add cb cbs = cbs ++ [cb].
Proof.
  intros H. unfold set_add. rewrite bool_decide_eq_false_2; [reflexivity |].
  now rewrite list_elem_of_In.
Qed.

(** Removing what was just added gives the registry back. *)
Lemma subs_remove_add subs r cb :
  Forall (fun p => snd p <> []) subs ->
  ~ In cb (default [] (subs_get subs r)) ->
  subs_remove (subs_add subs r cb) r cb = subs.
Proof.
  intros Hok Hnin. induction subs as [| [k cbs] subs IH].
  - cbn. rewrite String.eqb_refl. unfold set_delete. cbn.
    now rewrite bool_decide_eq_true_2 by reflexivity.
  - cbn in Hnin |- *. apply Forall_cons_1 in Hok as [Hne Hok]. cbn in Hne.
    destruct (String.eqb k r) eqn:E; cbn; rewrite E.
    + cbn in Hnin. rewrite set_add_new, set_delete_snoc by exact Hnin.
      destruct cbs; [contradiction | reflexivity].
    + f_equal. apply IH; assumption.
Qed.

(** X22: a [subscribe] followed by its unsubscribe closure gives back the
    registry as it was, for a callback that was not yet subscribed to the
    resource; it leaves the manager at rest when nothing else is
    subscribed, and otherwise with exactly one open connection, on the
    resource list as it was. *)
Theorem subscribe_then_unsubscribe_round_trip (t : Z) (events : list Event) r cb :
  let s := run events (new_SSEManager t) in
  ~ In cb (registered s r) ->
  let s' := step (Unsubscribe r cb) (step (Subscribe r cb) s) in
  subscriptions s' = subscriptions s
  /\ (subscriptions s = [] -> AtRest s')
  /\ (subscriptions s <> [] ->
      exists cur, openSources s' = [cur] /\ url cur = streamUrl (resourceIds s)
                  /\ readyState cur = ES_CONNECTING).
Proof.
  cbv zeta. intros Hnin.
  pose proof (run_SetsOk events _ (SetsOk_new t)) as HS.
  set (s := run events (new_SSEManager t)) in *.
  assert (Hrun : step (Unsubscribe r cb) (step (Subscribe r cb) s)
                 = run (events ++ [Subscribe r cb; Unsubscribe r cb]) (new_SSEManager t)).
  { unfold run. rewrite fold_left_app. reflexivity. }
  pose proof (run_Tidy (events ++ [Subscribe r cb]) _ (Tidy_new t)) as HT1.
  pose proof (run_Inv (events ++ [Subscribe r cb]) _ (Inv_new t)) as HI1.
  pose proof (run_Inv (events ++ [Subscribe r cb; Unsubscribe r cb]) _ (Inv_new t)) as HI2.
  rewrite <- Hrun in HI2.
  assert (Hrun1 : run (events ++ [Subscribe r cb]) (new_SSEManager t)
                  = step (Subscribe r cb) s).
  { unfold run. rewrite fold_left_app. reflexivity. }
  rewrite Hrun1 in HT1, HI1.
  assert (Hsubs : subscriptions (step (Unsubscribe r cb) (step (Subscribe r cb) s))
                  = subscriptions s).
  { rewrite !subscriptions_step. apply subs_remove_add; assumption. }
  split; [exact Hsubs |].
  set (s1 := step (Subscribe r cb) s) in *.
  assert (Hmid : subs_remove (subscriptions s1) r cb = subscriptions s).
  { unfold s1. rewrite subscriptions_step. apply subs_remove_add; assumption. }
  split.
  - intros Hempty. cbn [step]. unfold unsubscribe. cbv zeta.
    cbn [subscriptions set_subscriptions]. rewrite Hmid, Hempty.
    apply AtRest_disconnect.
    + exact (Inv_shape s1 HI1).
    + apply Tidy0_set_subscriptions, Tidy_Tidy0, HT1.
  - intros Hne.
    assert (Hstep : step (Unsubscribe r cb) s1
                    = reconnect (set_subscriptions (subscriptions s) s1)).
    { cbn [step]. unfold unsubscribe. cbv zeta.
      cbn [subscriptions set_subscriptions]. rewrite Hmid.
      destruct (subscriptions s); [contradiction | reflexivity]. }
    destruct (reconnect_on_tidy (set_subscriptions (subscriptions s) s1))
      as (He & Hsrc & _); [apply Tidy0_set_subscriptions, Tidy_Tidy0, HT1 | exact Hne |].
    cbv zeta in *. rewrite <- Hstep in He, Hsrc.
    destruct (Inv_openSources _ HI2) as [[_ Hdead] | (cur & Hopen & _ & Hurl)].
    + exfalso. unfold live, currentReadyState in Hdead. rewrite He, Hsrc in Hdead.
      rewrite lookup_app_r in Hdead by (cbn [set_subscriptions eventSource sources];
        destruct (eventSource s1); unfold closeAt; rewrite ?length_alter; lia).
      replace (length (sources (set_subscriptions (subscriptions s) s1))
               - length match eventSource (set_subscriptions (subscriptions s) s1) with
                        | Some i => closeAt i (sources (set_subscriptions (subscriptions s) s1))
                        | None => sources (set_subscriptions (subscriptions s) s1)
                        end)%nat with 0%nat in Hdead
        by (destruct (eventSource (set_subscriptions (subscriptions s) s1));
            unfold closeAt; rewrite ?length_alter; lia).
      cbn in Hdead. discriminate.
    + exists cur. split; [exact Hopen |].
      split; [rewrite Hurl; unfold resourceIds; now rewrite Hsubs |].
      assert (Hin : In cur (sources (step (Unsubscribe r cb) s1))).
      { unfold openSources in Hopen.
        assert (Hc : In cur (List.filter isOpen (sources (step (Unsubscribe r cb) s1))))
          by (rewrite Hopen; now left).
        now apply List.filter_In in Hc as [Hc _]. }
      assert (Hop : isOpen cur = true).
      { unfold openSources in Hopen.
        assert (Hc : In cur (List.filter isOpen (sources (step (Unsubscribe r cb) s1))))
          by (rewrite Hopen; now left).
        now apply List.filter_In in Hc as [_ Hc]. }
      rewrite Hsrc in Hin. apply in_app_or in Hin as [Hin | [<- | []]]; [| reflexivity].
      exfalso.
      pose proof (Shape_disconnect _ _ _ (Inv_shape s1 HI1)) as Hclosed.
      cbn [set_subscriptions eventSource sources] in Hin.
      rewrite List.Forall_forall in Hclosed. specialize (Hclosed cur Hin).
      unfold closed in Hclosed. unfold isOpen in Hop. rewrite Hclosed in Hop.
      discriminate.
Qed.

(** A second callback subscribed to the session of the creation flow, and
    unsubscribed again. *)
Lemma subscribe_then_unsubscribe_round_trip_witness :
  let s := run [Subscribe "session:1" cbA] (new_SSEManager 0) in
  let s' := step (Unsubscribe "session:1" cbB) (step (Subscribe "session:1" cbB) s) in
  subscriptions s' = subscriptions s
  /\ (subscriptions s = [] -> AtRest s')
  /\ (subscriptions s <> [] ->
      exists cur, openSources s' = [cur] /\ url cur = streamUrl (resourceIds s)
                  /\ readyState cur = ES_CONNECTING).
Proof.
  apply (subscribe_then_unsubscribe_round_trip 0 [Subscribe "session:1" cbA]
           "session:1" cbB).
  vm_compute. intros [H | []]. discriminate H.
Defined.

End RegistrySpec.

(** *** State listeners and the hook *)

Module ListenerSpec.
Import Sse SseNotions ReconnectNotions SseSpec ReconnectSpec TidyNotions TidySpec
  SseHook ListenerNotions.

Lemma Chain_app a hs b hs' c : Chain a hs b -> Chain b hs' c -> Chain a (hs ++ hs') c.
Proof. induction 1; intros H2; [exact H2 | cbn; constructor; auto]. Qed.

Lemma last_default {A} (x : A) (l : list A) (a b : A) :
  List.last (x :: l) a = List.last (x :: l) b.
Proof.
  revert x. induction l as [| y l IH]; intros x; [reflexivity |].
  change (List.last (y :: l) a = List.last (y :: l) b). apply IH.
Qed.

Lemma Chain_last a hs b : Chain a hs b -> List.last hs a = b.
Proof.
  induction 1 as [| a b hs c Hne Hch IH]; [reflexivity |].
  destruct hs as [| x hs]; [inversion Hch; reflexivity |].
  change (List.last (x :: hs) a = c). rewrite <- IH. apply last_default.
Qed.

Lemma Sync_refl l s : Sync l s s.
Proof. exists []. rewrite app_nil_r. split; [reflexivity | constructor]. Qed.

Lemma Sync_trans l s1 s2 s3 : Sync l s1 s2 -> Sync l s2 s3 -> Sync l s1 s3.
Proof.
  intros (h1 & E1 & C1) (h2 & E2 & C2). exists (h1 ++ h2).
  split; [rewrite E2, E1; now rewrite app_assoc | eapply Chain_app; eassumption].
Qed.

Lemma Sync_same l s s' :
  heard l (log s') = heard l (log s) -> connectionState s' = connectionState s ->
  Sync l s s'.
Proof.
  intros Hh Hc. exists []. rewrite app_nil_r, Hh, Hc. split; [reflexivity | constructor].
Qed.

Lemma Said_refl l s : Said l s s.
Proof. intros H. split; [exact H |]. intros Hin. split; [exact Hin | apply Sync_refl]. Qed.

Lemma Said_trans l s1 s2 s3 : Said l s1 s2 -> Said l s2 s3 -> Said l s1 s3.
Proof.
  intros H12 H23 H1. destruct (H12 H1) as [H2 S12]. destruct (H23 H2) as [H3 S23].
  split; [exact H3 |]. intros Hin.
  destruct (S12 Hin) as [Hin2 Sy12]. destruct (S23 Hin2) as [Hin3 Sy23].
  split; [exact Hin3 | eapply Sync_trans; eassumption].
Qed.

Lemma Said_lv l s s' : lv l s' = lv l s -> Said l s s'.
Proof.
  unfold lv. intros [= Hl Hc Hh] Hnd. rewrite Hl. split; [exact Hnd |].
  intros Hin. split; [exact Hin | now apply Sync_same].
Qed.

Lemma heard_tell l st ls :
  NoDup ls -> In l ls -> heard l (map (fun l' => FxListener l' st) ls) = [st].
Proof.
  unfold heard. induction 1 as [| x ls Hx Hnd IH]; intros Hin; [destruct Hin |].
  cbn. destruct (Nat.eqb_spec x l) as [-> | Hne].
  - f_equal. clear IH Hin Hnd. induction ls as [| y ls IH]; [reflexivity |].
    cbn. destruct (Nat.eqb_spec y l) as [-> | _].
    + exfalso. apply Hx. now left.
    + apply IH. intros H. apply Hx. now right.
  - destruct Hin as [-> | Hin]; [contradiction | now apply IH].
Qed.

Lemma Said_setConnectionState l st s : Said l s (setConnectionState st s).
Proof.
  intros Hnd. unfold setConnectionState.
  destruct (bool_decide (connectionState s <> st)) eqn:E.
  - apply bool_decide_eq_true in E. split; [exact Hnd |].
    intros Hin. split; [exact Hin |].
    exists [st]. split.
    + cbn [log emit set_connectionState]. unfold heard at 1. rewrite omap_app.
      fold (heard l (log s)). f_equal. now apply heard_tell.
    + constructor; [exact E | constructor].
  - split; [exact Hnd |]. intros Hin. split; [exact Hin | apply Sync_refl].
Qed.

Ltac quiet_lv :=
  unfold lv, heard; cbn; rewrite ?omap_app; cbn; rewrite ?app_nil_r; reflexivity.

Lemma lv_stopHeartbeat l s : lv l (stopHeartbeat s) = lv l s.
Proof. unfold stopHeartbeat. destruct (heartbeatTimeout s); reflexivity. Qed.

Lemma lv_startHeartbeat l s : lv l (startHeartbeat s) = lv l s.
Proof.
  unfold startHeartbeat. cbv zeta. unfold setInterval. cbn.
  apply lv_stopHeartbeat.
Qed.

Lemma Said_disconnect l s : Said l s (disconnect s).
Proof.
  unfold disconnect. cbv zeta.
  match goal with
  | |- Said l s (set_isManualClose false (setConnectionState DISCONNECTED ?x)) =>
      set (s4 := x)
  end.
  apply (Said_trans l s s4); [apply Said_lv |].
  - subst s4.
    destruct s as [es subs att rt ht man cs ls lh srcs tms ivs nh clk lg].
    unfold stopHeartbeat, clearTimeout, clearInterval, setReadyState, lv, heard.
    destruct rt as [h |], ht as [i |], es as [j |];
      lazy -[app omap List.filter alter Nat.eqb negb];
      rewrite ?omap_app; cbn [omap]; rewrite ?app_nil_r; reflexivity.
  - apply (Said_trans l s4 (setConnectionState DISCONNECTED s4));
      [apply Said_setConnectionState | apply Said_lv; reflexivity].
Qed.

Lemma Said_connect l s : Said l s (connect s).
Proof.
  unfold connect. destruct (live s); [apply Said_refl |].
  destruct (subscriptions s); [apply Said_refl |].
  apply (Said_trans l s (setConnectionState CONNECTING s));
    [apply Said_setConnectionState | apply Said_lv].
  generalize (setConnectionState CONNECTING s) as s1. intros s1. quiet_lv.
Qed.

Lemma Said_reconnect l s : Said l s (reconnect s).
Proof. eapply Said_trans; [apply Said_disconnect | apply Said_connect]. Qed.

Lemma Said_scheduleReconnect l s : Said l s (scheduleReconnect s).
Proof.
  unfold scheduleReconnect. cbv zeta.
  set (s1 := match reconnectTimeout s with Some h => clearTimeout h s | None => s end).
  assert (H1 : lv l s1 = lv l s).
  { subst s1. destruct (reconnectTimeout s); [| reflexivity]. quiet_lv. }
  apply (Said_trans l s s1); [now apply Said_lv |].
  destruct (_ <=? _).
  - eapply Said_trans; [| apply Said_setConnectionState].
    apply Said_lv. quiet_lv.
  - match goal with
    | |- context [setConnectionState RECONNECTING ?x] => set (s2 := x)
    end.
    apply (Said_trans l s1 s2); [apply Said_lv; reflexivity |].
    apply (Said_trans l s2 (setConnectionState RECONNECTING s2));
      [apply Said_setConnectionState | apply Said_lv].
    generalize (setConnectionState RECONNECTING s2) as s3. intros s3.
    unfold setTimeout. quiet_lv.
Qed.

Lemma Said_onopen l s : Said l s (onopen s).
Proof.
  unfold onopen.
  apply (Said_trans l s (setConnectionState CONNECTED s));
    [apply Said_setConnectionState | apply Said_lv].
  rewrite lv_startHeartbeat. reflexivity.
Qed.

Lemma Said_onerror l s : Said l s (onerror s).
Proof.
  unfold onerror. cbv zeta.
  set (s1 := stopHeartbeat (setConnectionState ERROR s)).
  assert (H1 : Said l s s1).
  { eapply Said_trans; [apply Said_setConnectionState |].
    apply Said_lv, lv_stopHeartbeat. }
  destruct (bool_decide _); [| exact H1].
  destruct (negb _); [| exact H1].
  eapply Said_trans; [exact H1 | apply Said_scheduleReconnect].
Qed.

Lemma heard_invoke l event ty cbs : heard l (concat (map (invoke event ty) cbs)) = [].
Proof.
  unfold heard. induction cbs as [| cb cbs IH]; [reflexivity |].
  cbn [map concat]. rewrite omap_app, IH, app_nil_r.
  unfold invoke. destruct (cb_throws cb); reflexivity.
Qed.

Lemma lv_onframe l ty p s : lv l (onframe ty p s) = lv l s.
Proof.
  unfold onframe, notifySubscribers, updateHeartbeat. cbv zeta.
  destruct p as [p |]; [| quiet_lv].
  destruct (subs_get _ _) as [cbs |]; [| reflexivity].
  unfold lv. cbn -[heard]. unfold heard at 1. rewrite omap_app.
  fold (heard l (log s)). fold (heard l (concat (map (invoke p ty) cbs))).
  now rewrite heard_invoke, app_nil_r.
Qed.

Lemma Said_set_subscriptions l v s s' :
  Said l (set_subscriptions v s) s' -> Said l s s'.
Proof. apply Said_trans. apply Said_lv. reflexivity. Qed.

Lemma In_addStateListener l x s :
  In l (stateChangeListeners (addStateListener x s))
  <-> l = x \/ In l (stateChangeListeners s).
Proof.
  unfold addStateListener. cbn [stateChangeListeners set_stateChangeListeners].
  destruct (bool_decide (x ∈ stateChangeListeners s)) eqn:E.
  - apply bool_decide_eq_true, list_elem_of_In in E. split; [auto |].
    intros [-> | H]; assumption.
  - rewrite in_app_iff. cbn. intuition.
Qed.

Lemma NoDup_addStateListener x s :
  NoDup (stateChangeListeners s) -> NoDup (stateChangeListeners (addStateListener x s)).
Proof.
  intros Hnd. unfold addStateListener. cbn [stateChangeListeners set_stateChangeListeners].
  destruct (bool_decide (x ∈ stateChangeListeners s)) eqn:E; [exact Hnd |].
  apply bool_decide_eq_false in E. rewrite list_elem_of_In in E.
  apply NoDup_app. split; [exact Hnd |]. split.
  - intros y Hy [<- | []]%list_elem_of_In. rewrite list_elem_of_In in Hy. contradiction.
  - apply NoDup_singleton.
Qed.

Lemma NoDup_removeStateListener x s :
  NoDup (stateChangeListeners s) -> NoDup (stateChangeListeners (removeStateListener x s)).
Proof.
  intros Hnd. unfold removeStateListener. cbn [stateChangeListeners set_stateChangeListeners].
  induction Hnd as [| y ls Hy Hnd IH]; [constructor |].
  cbn. destruct (negb (Nat.eqb y x)); [| exact IH].
  constructor; [| exact IH].
  rewrite list_elem_of_In in *. intros H. apply List.filter_In in H as [H _]. contradiction.
Qed.

Lemma In_removeStateListener l x s :
  l <> x -> In l (stateChangeListeners s) ->
  In l (stateChangeListeners (removeStateListener x s)).
Proof.
  intros Hne Hin. unfold removeStateListener.
  cbn [stateChangeListeners set_stateChangeListeners].
  apply List.filter_In. split; [exact Hin |].
  apply negb_true_iff, Nat.eqb_neq. exact Hne.
Qed.

(** One event, for a listener that it does not take off the manager. *)
Lemma step_Said l e s : removes l e = false -> Said l s (step e s).
Proof.
  intros Hrm.
  destruct e as [r cb | r cb | x | x | | | | fatal | ty p | | h | | dt]; cbn [step].
  - unfold subscribe. cbv zeta. apply (Said_set_subscriptions l (subs_add (subscriptions s) r cb)).
    destruct (_ && _); [apply Said_reconnect | apply Said_connect].
  - unfold unsubscribe. cbv zeta.
    apply (Said_set_subscriptions l (subs_remove (subscriptions s) r cb)).
    destruct (subscriptions (set_subscriptions _ s));
      [apply Said_disconnect | apply Said_reconnect].
  - intros Hnd. split; [now apply NoDup_addStateListener |].
    intros Hin. split; [apply In_addStateListener; now right |].
    apply Sync_same; reflexivity.
  - cbn in Hrm. apply Nat.eqb_neq in Hrm.
    intros Hnd. split; [now apply NoDup_removeStateListener |].
    intros Hin. split; [apply In_removeStateListener; congruence |].
    apply Sync_same; reflexivity.
  - apply Said_disconnect.
  - discriminate Hrm.
  - destruct (eventSource s) as [i |]; [| apply Said_refl].
    destruct (currentReadyState s) as [[| |] |]; try apply Said_refl.
    eapply Said_trans; [| apply Said_onopen]. apply Said_lv. reflexivity.
  - destruct (eventSource s) as [i |]; [| apply Said_refl].
    destruct (currentReadyState s) as [rs |]; [| apply Said_refl].
    eapply Said_trans; [| apply Said_onerror]. apply Said_lv. reflexivity.
  - destruct (currentReadyState s) as [[| |] |]; try apply Said_refl.
    apply Said_lv, lv_onframe.
  - destruct (currentReadyState s) as [[| |] |]; try apply Said_refl.
    destruct parses; [| apply Said_refl].
    apply Said_lv. reflexivity.
  - destruct (existsb _ _); [| apply Said_refl].
    eapply Said_trans; [| apply Said_reconnect]. apply Said_lv. reflexivity.
  - destruct (heartbeatTimeout s); [| apply Said_refl].
    destruct (_ && _); [apply Said_reconnect | apply Said_refl].
  - apply Said_lv. reflexivity.
Qed.

Lemma run_Said l events :
  forall s, existsb (removes l) events = false -> Said l s (run events s).
Proof.
  induction events as [| e events IH]; intros s Hrm; [apply Said_refl |].
  cbn in Hrm. apply orb_false_iff in Hrm as [He Hev].
  cbn [run fold_left]. fold (run events (step e s)).
  eapply Said_trans; [apply step_Said, He | apply IH, Hev].
Qed.

Lemma step_NoDup_listeners e s :
  NoDup (stateChangeListeners s) -> NoDup (stateChangeListeners (step e s)).
Proof.
  intros Hnd.
  destruct (removes 0 e) eqn:Hrm; [| exact (proj1 (step_Said 0 e s Hrm Hnd))].
  destruct e; try discriminate Hrm; cbn [step].
  - now apply NoDup_removeStateListener.
  - constructor.
Qed.

Lemma run_NoDup_listeners events :
  forall s, NoDup (stateChangeListeners s) -> NoDup (stateChangeListeners (run events s)).
Proof.
  induction events as [| e events IH]; intros s H; [exact H |].
  cbn [run fold_left]. fold (run events (step e s)). apply IH.
  now apply step_NoDup_listeners.
Qed.

(** X23: a state listener hears every change of the connection state and
    nothing else.  From the moment it is added until it is removed or the
    manager is destroyed, whatever happens to the manager, the states it is
    called with are each different from the one before, the first of them
    from the state the manager had when it was added, and the last of them
    is the state the manager is in. *)
Theorem listener_hears_every_change (t : Z) (before after : list Event) (l : nat) :
  let s0 := step (AddStateListener l) (run before (new_SSEManager t)) in
  let s := run after s0 in
  existsb (removes l) after = false ->
  exists hs,
    heard l (log s) = heard l (log s0) ++ hs
    /\ Chain (connectionState s0) hs (connectionState s)
    /\ List.last hs (connectionState s0) = getConnectionState s
    /\ In l (stateChangeListeners s).
Proof.
  cbv zeta. intros Hrm.
  assert (Hnd : NoDup (stateChangeListeners (run before (new_SSEManager t))))
    by (apply run_NoDup_listeners; constructor).
  set (s1 := run before (new_SSEManager t)) in *.
  assert (Hnd0 : NoDup (stateChangeListeners (step (AddStateListener l) s1)))
    by now apply step_NoDup_listeners.
  assert (Hin0 : In l (stateChangeListeners (step (AddStateListener l) s1)))
    by (apply In_addStateListener; now left).
  destruct (run_Said l after _ Hrm Hnd0) as [_ H].
  destruct (H Hin0) as [Hin (hs & Hh & Hc)].
  exists hs. split; [exact Hh |]. split; [exact Hc |].
  split; [now apply Chain_last | exact Hin].
Qed.

(** A listener added before the first subscription, through an open, a
    fatal error and the reconnect. *)
Lemma listener_hears_every_change_witness :
  let s0 := step (AddStateListener 7) (run [] (new_SSEManager 0)) in
  let s := run [Subscribe "session:1" cbA; EsOpen; EsError true; TimerFires 2] s0 in
  exists hs,
    heard 7 (log s) = heard 7 (log s0) ++ hs
    /\ Chain (connectionState s0) hs (connectionState s)
    /\ List.last hs (connectionState s0) = getConnectionState s
    /\ In 7%nat (stateChangeListeners s).
Proof.
  apply (listener_hears_every_change 0 []
           [Subscribe "session:1" cbA; EsOpen; EsError true; TimerFires 2] 7).
  reflexivity.
Defined.

Lemma deliver_Sync l m m' c :
  Sync l m m' -> c = connectionState m -> deliver l m m' c = connectionState m'.
Proof.
  intros (hs & Hh & Hc) ->. unfold deliver. rewrite Hh, drop_app_length.
  now apply Chain_last.
Qed.

Lemma on_InSync l e h : removes l e = false -> InSync l h -> InSync l (on l h e).
Proof.
  intros Hrm (Hc & Hin & Hnd).
  destruct (step_Said l e (manager h) Hrm Hnd) as [Hnd' H].
  destruct (H Hin) as [Hin' Hsync].
  split; [| split; assumption].
  cbn [on cell manager]. now apply deliver_Sync.
Qed.

Lemma fold_on_InSync l events :
  forall h, existsb (removes l) events = false -> InSync l h ->
            InSync l (fold_left (on l) events h).
Proof.
  induction events as [| e events IH]; intros h Hrm H; [exact H |].
  cbn in Hrm. apply orb_false_iff in Hrm as [He Hev].
  cbn [fold_left]. apply IH; [exact Hev | now apply on_InSync].
Qed.

Lemma manager_fold_on l events :
  forall h, manager (fold_left (on l) events h) = run events (manager h).
Proof.
  induction events as [| e events IH]; intros h; [reflexivity |].
  cbn [fold_left run]. rewrite IH. reflexivity.
Qed.

Lemma not_In_removeStateListener l s :
  ~ In l (stateChangeListeners (removeStateListener l s)).
Proof.
  unfold removeStateListener. cbn [stateChangeListeners set_stateChangeListeners].
  intros H. apply List.filter_In in H as [_ H].
  rewrite Nat.eqb_refl in H. discriminate.
Qed.

(** X24: the hook [useSSESubscription] shows the state of the manager.
    From the effect that subscribes until the clean-up, whatever happens to
    the manager, the [connectionState] the hook returns is the state the
    manager reports, and [isConnected] holds only while the manager holds an
    open connection.  A hook without a resource, or disabled, touches the
    manager not at all and shows [DISCONNECTED].  The clean-up leaves the
    callback unsubscribed, the listener removed and the hook showing
    [DISCONNECTED]. *)
Theorem hook_shows_the_state_of_the_manager (t : Z) (before after : list Event)
    (r : string) (l : nat) (cb : Callback) (c0 : ConnectionState) :
  let m := run before (new_SSEManager t) in
  let h0 := {| manager := m; cell := c0 |} in
  r <> "" -> existsb (removes l) after = false ->
  let h := fold_left (on l) after (effect (Some r) true l cb h0) in
  manager h = run (AddStateListener l :: Subscribe r cb :: after) m
  /\ cell h = getConnectionState (manager h)
  /\ (isConnected h = true ->
      currentReadyState (manager h) = Some ES_OPEN /\ live (manager h) = true)
  /\ effect None true l cb h0 = {| manager := m; cell := DISCONNECTED |}
  /\ effect (Some r) false l cb h0 = {| manager := m; cell := DISCONNECTED |}
  /\ cell (cleanup r l cb h) = DISCONNECTED
  /\ ~ In l (stateChangeListeners (manager (cleanup r l cb h)))
  /\ ~ In cb (registered (manager (cleanup r l cb h)) r).
Proof.
  cbv zeta. intros Hr Hrm.
  set (m := run before (new_SSEManager t)).
  assert (Hnd : NoDup (stateChangeListeners m))
    by (apply run_NoDup_listeners; constructor).
  apply String.eqb_neq in Hr.
  set (m1 := addStateListener l m).
  set (h1 := {| manager := subscribe r cb m1;
                cell := deliver l m1 (subscribe r cb m1) (getConnectionState m1) |}).
  assert (Heff : effect (Some r) true l cb {| manager := m; cell := c0 |} = h1)
    by (unfold effect; rewrite Hr; reflexivity).
  rewrite Heff.
  assert (H1 : InSync l h1).
  { assert (Hnd1 : NoDup (stateChangeListeners m1)) by now apply NoDup_addStateListener.
    assert (Hin1 : In l (stateChangeListeners m1))
      by (apply In_addStateListener; now left).
    destruct (step_Said l (Subscribe r cb) m1 eq_refl Hnd1) as [Hnd2 H].
    destruct (H Hin1) as [Hin2 Hsync].
    split; [| split; assumption].
    cbn [h1 cell manager]. now apply deliver_Sync. }
  pose proof (fold_on_InSync l after h1 Hrm H1) as (Hc & Hin & Hnd').
  pose proof (manager_fold_on l after h1) as Hm. cbn [h1 manager] in Hm.
  set (h := fold_left (on l) after h1) in *.
  assert (Hreach : manager h
                   = run (before ++ AddStateListener l :: Subscribe r cb :: after)
                       (new_SSEManager t)).
  { rewrite Hm. unfold run. rewrite fold_left_app. reflexivity. }
  split; [exact Hm |]. split; [exact Hc |].
  split; [| split; [| split; [| split; [| split]]]].
  - intros Hconn. unfold isConnected in Hconn. apply bool_decide_eq_true in Hconn.
    rewrite Hc in Hconn. rewrite Hreach in *.
    pose proof (run_Tidy (before ++ AddStateListener l :: Subscribe r cb :: after) _
                  (Tidy_new t)) as HT.
    destruct (tidy_heartbeat _ HT (tidy_connected _ HT Hconn)) as [_ Hopen].
    split; [exact Hopen | now apply live_open].
  - reflexivity.
  - unfold effect. rewrite andb_false_r. reflexivity.
  - reflexivity.
  - cbn [cleanup manager]. apply not_In_removeStateListener.
  - cbn [cleanup manager].
    change (registered (removeStateListener l (unsubscribe r cb (manager h))) r)
      with (registered (unsubscribe r cb (manager h)) r).
    apply unsubscribe_unregisters. rewrite Hreach. apply run_KeysOk. constructor.
Qed.

(** The hook of the creation flow, on [session:1], through the opening of
    the connection. *)
Lemma hook_shows_the_state_of_the_manager_witness :
  let m := run [] (new_SSEManager 0) in
  let h0 := {| manager := m; cell := DISCONNECTED |} in
  let h := fold_left (on 7) [EsOpen] (effect (Some "session:1") true 7 cbA h0) in
  manager h = run (AddStateListener 7 :: Subscribe "session:1" cbA :: [EsOpen]) m
  /\ cell h = getConnectionState (manager h)
  /\ (isConnected h = true ->
      currentReadyState (manager h) = Some ES_OPEN /\ live (manager h) = true)
  /\ effect None true 7 cbA h0 = {| manager := m; cell := DISCONNECTED |}
  /\ effect (Some "session:1") false 7 cbA h0 = {| manager := m; cell := DISCONNECTED |}
  /\ cell (cleanup "session:1" 7 cbA h) = DISCONNECTED
  /\ ~ In 7%nat (stateChangeListeners (manager (cleanup "session:1" 7 cbA h)))
  /\ ~ In cbA (registered (manager (cleanup "session:1" 7 cbA h)) "session:1").
Proof.
  apply (hook_shows_the_state_of_the_manager 0 [] [EsOpen] "session:1" 7 cbA DISCONNECTED).
  - discriminate.
  - reflexivity.
Defined.

End ListenerSpec.

(** *** Editing the plan and the selection *)

Module PlanEditsSpec.
Import Orchestrator PlanEdits PlanEditsNotions PlanNotions.

Lemma In_filter_ne (set : list string) (id x : string) :
  In x (List.filter (fun y => negb (String.eqb y id)) set) <-> In x set /\ x <> id.
Proof.
  rewrite List.filter_In, negb_true_iff, String.eqb_neq. reflexivity.
Qed.

Lemma filter_ne_absent (set : list string) (id : string) :
  ~ In id set -> List.filter (fun y => negb (String.eqb y id)) set = set.
Proof.
  induction set as [| x set IH]; intros H; [reflexivity |].
  cbn. destruct (String.eqb_spec x id) as [-> | Hne]; cbn.
  - exfalso. apply H. now left.
  - f_equal. apply IH. intros Hin. apply H. now right.
Qed.

Lemma NoDup_filter_ne (set : list string) (id : string) :
  NoDup set -> NoDup (List.filter (fun y => negb (String.eqb y id)) set).
Proof.
  induction 1 as [| x set Hx Hnd IH]; [constructor |].
  cbn. destruct (negb (String.eqb x id)); [| exact IH].
  constructor; [| exact IH].
  rewrite list_elem_of_In in *. rewrite In_filter_ne. tauto.
Qed.

Lemma toggleIn_present (set : list string) (id : string) :
  In id set -> toggleIn set id = List.filter (fun y => negb (String.eqb y id)) set.
Proof.
  intros H. unfold toggleIn. now rewrite bool_decide_eq_true_2 by (now rewrite list_elem_of_In).
Qed.

Lemma toggleIn_absent (set : list string) (id : string) :
  ~ In id set -> toggleIn set id = set ++ [id].
Proof.
  intros H. unfold toggleIn. now rewrite bool_decide_eq_false_2 by (now rewrite list_elem_of_In).
Qed.

(** X25: [toggleIn] flips the membership of the identifier it is given and
    of no other; it keeps the selection free of duplicates and changes its
    size by one; and toggling the same identifier twice gives back the
    selection, in the same order if the identifier was not selected. *)
Theorem toggleIn_flips_one_member (set : list string) (id : string) :
  NoDup set ->
  (In id (toggleIn set id) <-> ~ In id set)
  /\ (forall x, x <> id -> (In x (toggleIn set id) <-> In x set))
  /\ NoDup (toggleIn set id)
  /\ (forall x, In x (toggleIn (toggleIn set id) id) <-> In x set)
  /\ (~ In id set ->
      toggleIn (toggleIn set id) id = set
      /\ length (toggleIn set id) = S (length set))
  /\ (In id set -> S (length (toggleIn set id)) = length set).
Proof.
  intros Hnd.
  destruct (in_dec string_dec id set) as [E | E].
  - pose proof (toggleIn_present set id E) as H1.
    assert (Hout : ~ In id (List.filter (fun y => negb (String.eqb y id)) set))
      by (rewrite In_filter_ne; tauto).
    pose proof (toggleIn_absent _ id Hout) as H2. rewrite <- H1 in H2.
    rewrite H2, H1.
    split; [split; [intros Hc; contradiction | intros Hc; contradiction] |].
    split; [intros x Hx; rewrite In_filter_ne; tauto |].
    split; [now apply NoDup_filter_ne |].
    split; [| split; [intros Hn; contradiction |]].
    + intros x. rewrite in_app_iff, In_filter_ne. cbn.
      destruct (String.eqb_spec x id) as [-> | Hne]; intuition (auto; congruence).
    + intros _. clear Hout H1 H2. induction Hnd as [| x set Hx Hnd IH]; [destruct E |].
      cbn. destruct (String.eqb_spec x id) as [-> | Hne]; cbn.
      * f_equal. f_equal. apply filter_ne_absent.
        now rewrite list_elem_of_In in Hx.
      * f_equal. apply IH. destruct E as [-> | E]; [contradiction | exact E].
  - pose proof (toggleIn_absent set id E) as H1.
    assert (Hin : In id (set ++ [id])) by (rewrite in_app_iff; cbn; tauto).
    pose proof (toggleIn_present _ id Hin) as H2. rewrite <- H1 in H2.
    assert (Htwice : toggleIn (toggleIn set id) id = set).
    { rewrite H2, H1, List.filter_app. cbn. rewrite String.eqb_refl. cbn.
      rewrite app_nil_r. now apply filter_ne_absent. }
    rewrite Htwice, H1.
    split; [rewrite in_app_iff; cbn; tauto |].
    split.
    { intros x Hx. rewrite in_app_iff. cbn. split; [| tauto].
      intros [H | [H | []]]; [exact H | congruence]. }
    split.
    { apply NoDup_app. split; [exact Hnd |]. split; [| apply NoDup_singleton].
      intros x Hx [<- | []]%list_elem_of_In. rewrite list_elem_of_In in Hx. contradiction. }
    split; [tauto |].
    split; [| intros Hc; contradiction].
    intros _. split; [reflexivity |]. rewrite length_app. cbn. lia.
Qed.

(** One image selected, and a web item toggled. *)
Lemma toggleIn_flips_one_member_witness :
  (In "w1" (toggleIn ["i1"] "w1") <-> ~ In "w1" ["i1"])
  /\ (forall x, x <> "w1" -> (In x (toggleIn ["i1"] "w1") <-> In x ["i1"]))
  /\ NoDup (toggleIn ["i1"] "w1")
  /\ (forall x, In x (toggleIn (toggleIn ["i1"] "w1") "w1") <-> In x ["i1"])
  /\ (~ In "w1" ["i1"] ->
      toggleIn (toggleIn ["i1"] "w1") "w1" = ["i1"]
      /\ length (toggleIn ["i1"] "w1") = S (length ["i1"]))
  /\ (In "w1" ["i1"] -> S (length (toggleIn ["i1"] "w1")) = length ["i1"]).
Proof.
  apply (toggleIn_flips_one_member ["i1"] "w1").
  apply NoDup_singleton.
Defined.

Lemma newSubTask_id_inj now1 now2 : id (newSubTask now1) = id (newSubTask now2) -> now1 = now2.
Proof.
  cbn. intros H. apply (String.app_inj "t-") in H. now apply pretty_Z_inj in H.
Qed.

(** X26: the entries of the plan are told apart by their identifier alone.
    [removeSubTask] removes every entry that has the identifier and keeps
    the others in order, and [updateSubTask] renames every entry that has
    it and changes neither the identifiers nor the order.  An entry that
    [addSubTask] made has an identifier taken from the clock: two entries
    added at different times are removed one by one, two entries added in
    the same millisecond are removed together. *)
Theorem plan_entries_are_told_apart_by_id (c : Component) (tid newName : string)
    (now1 now2 : Z) :
  ids (removeSubTask tid c) = List.filter (fun i => negb (String.eqb i tid)) (ids c)
  /\ (forall t, In t (editingPlan (removeSubTask tid c))
                <-> In t (editingPlan c) /\ id t <> tid)
  /\ ids (updateSubTask tid newName c) = ids c
  /\ (forall t, In t (editingPlan (updateSubTask tid newName c)) -> id t = tid ->
                name t = newName)
  /\ (forall t, id t <> tid ->
        (In t (editingPlan (updateSubTask tid newName c)) <-> In t (editingPlan c)))
  /\ (now1 <> now2 ->
      removeSubTask (id (newSubTask now1)) (addSubTask now2 (addSubTask now1 c))
      = addSubTask now2 (removeSubTask (id (newSubTask now1)) c))
  /\ removeSubTask (id (newSubTask now1)) (addSubTask now1 (addSubTask now1 c))
     = removeSubTask (id (newSubTask now1)) c.
Proof.
  unfold ids, removeSubTask, updateSubTask, addSubTask.
  cbn [editingPlan setEditingPlan].
  split; [| split; [| split; [| split; [| split; [| split]]]]].
  - induction (editingPlan c) as [| t plan IH]; [reflexivity |].
    cbn. destruct (negb (String.eqb (id t) tid)); cbn; now rewrite IH.
  - intros t. rewrite List.filter_In, negb_true_iff, String.eqb_neq. reflexivity.
  - rewrite map_map. apply map_ext. intros t.
    destruct (String.eqb (id t) tid); reflexivity.
  - intros t Hin Hid. apply in_map_iff in Hin as (t0 & Ht & _).
    destruct (String.eqb (id t0) tid) eqn:E; subst t; [reflexivity |].
    apply String.eqb_neq in E. contradiction.
  - intros t Hid. rewrite in_map_iff. split.
    + intros (t0 & Ht & Hin). destruct (String.eqb_spec (id t0) tid) as [E | E].
      * subst t. cbn in Hid. contradiction.
      * now subst t.
    + intros Hin. exists t. split; [| exact Hin].
      apply String.eqb_neq in Hid. rewrite Hid. reflexivity.
  - intros Hne. unfold setEditingPlan. cbn -[newSubTask List.filter]. f_equal.
    rewrite !List.filter_app. cbn [List.filter].
    rewrite String.eqb_refl. cbn [negb].
    destruct (String.eqb_spec (id (newSubTask now2)) (id (newSubTask now1))) as [E | E].
    + apply newSubTask_id_inj in E. congruence.
    + cbn [negb]. now rewrite app_nil_r.
  - unfold setEditingPlan. cbn -[newSubTask List.filter]. f_equal.
    rewrite !List.filter_app. cbn [List.filter].
    rewrite String.eqb_refl. cbn [negb]. now rewrite !app_nil_r.
Qed.

End PlanEditsSpec.
